(** * sam_agent_llm: the agent orchestrator, the tool registry and the stores

    A shallow embedding of the TypeScript sources

      - [services/agentOrchestrator]  (class [AgentOrchestrator])
      - [services/toolRegistry]       (class [ToolRegistry])
      - [db/productsRepo], [db/ordersRepo], [db/agentConfigRepo],
        [db/conversationsRepo]
      - [services/externalApiService], [services/ragService]
      - [services/promptBuilder]      (the part the orchestrator reads)

    Layout: the JavaScript value layer, then the data model and the
    operations of each class (one module per class, names as in the source),
    then the facts proved about them.

    Modelling conventions.
      - A JavaScript [number] in a document or in tool data is an exact
        rational ([Q]); [NaN] and the infinities are not values there, and
        arithmetic is exact. Token counts are integers ([Z]). The cost
        estimate is computed as the code computes it, in IEEE 754 binary64
        (module [Double]).
      - A JavaScript string is a [string]; one [ascii] stands for one code
        unit.
      - A value of type [any] (JSON from the model or from a tool backend) is
        a [JVal].
      - Behaviour that the sources delegate to the platform or to a remote
        service ([JSON.parse], [String(v)], the LLM provider, HTTP, the regex
        engine of the database) is a field of the class [Env]; nothing is
        assumed about these fields.
      - Code that can throw returns [Exc]; code that reads or writes a store
        threads a [World]. *)

From Stdlib Require Import List String Ascii Bool Arith ZArith QArith Qround Qabs.
From Stdlib Require Import Lia Lqa Sorting.Sorted Permutation DecimalString.
From Stdlib Require SpecFloat.
Import ListNotations.

Set Warnings "-register-all".
Close Scope Q_scope.
Close Scope Z_scope.
Open Scope nat_scope.
Open Scope bool_scope.
Open Scope list_scope.
Open Scope string_scope.

(* ================================================================== *)
(** * JavaScript values and string primitives                          *)
(* ================================================================== *)

Module Js.

(** A value of type [any]: what [JSON.parse] can return, plus [undefined]
    (a missing property). The fields of a [JObj] are in property order and
    carry distinct keys. *)
Inductive JVal : Type :=
| JUndefined
| JNull
| JBool (b : bool)
| JNum (q : Q)
| JStr (s : string)
| JArr (items : list JVal)
| JObj (fields : list (string * JVal)).

(** Thrown exceptions: [Exc A] is a computation that returns an [A] or
    throws an error carrying a message. *)
Inductive Exc (A : Type) : Type :=
| Ok (a : A)
| Throw (message : string).
Arguments Ok {A} a.
Arguments Throw {A} message.

Definition exc_bind {A B : Type} (m : Exc A) (k : A -> Exc B) : Exc B :=
  match m with
  | Ok a => k a
  | Throw e => Throw e
  end.

(** [try { body } catch (error) { handler(error.message) }] *)
Definition try_catch {A : Type} (body : Exc A) (handler : string -> A) : A :=
  match body with
  | Ok a => a
  | Throw e => handler e
  end.

(** ** Truthiness and property access *)

(** ToBoolean. *)
Definition truthy (v : JVal) : bool :=
  match v with
  | JUndefined | JNull => false
  | JBool b => b
  | JNum q => negb (Qeq_bool q 0%Q)
  | JStr s => negb (s =? "")
  | JArr _ | JObj _ => true
  end.

(** [a || b] *)
Definition jor (a b : JVal) : JVal := if truthy a then a else b.

Fixpoint assoc {A : Type} (k : string) (l : list (string * A)) : option A :=
  match l with
  | [] => None
  | (k', v) :: rest => if k' =? k then Some v else assoc k rest
  end.

Definition nat_to_Q (n : nat) : Q := inject_Z (Z.of_nat n).

(** [v?.k]: the property [k] of [v]; [undefined] when [v] has no such
    property (or is [null]/[undefined]). Strings and arrays have [length]. *)
Definition jget (v : JVal) (k : string) : JVal :=
  match v with
  | JObj fields =>
      match assoc k fields with
      | Some x => x
      | None => JUndefined
      end
  | JStr s => if k =? "length" then JNum (nat_to_Q (String.length s)) else JUndefined
  | JArr items => if k =? "length" then JNum (nat_to_Q (List.length items)) else JUndefined
  | _ => JUndefined
  end.

Fixpoint assoc_set {A : Type} (k : string) (x : A) (l : list (string * A))
  : list (string * A) :=
  match l with
  | [] => [(k, x)]
  | (k', v) :: rest =>
      if k' =? k then (k', x) :: rest else (k', v) :: assoc_set k x rest
  end.

(** [v.k = x] in strict mode (ES modules): updates or appends the property
    of an object; throws a TypeError on a primitive. An array accepts the
    write in JavaScript, but an array with a named property is not a value
    of this model: the model keeps the array as it was. *)
Definition jset (v : JVal) (k : string) (x : JVal) : Exc JVal :=
  match v with
  | JObj fields => Ok (JObj (assoc_set k x fields))
  | JArr items => Ok (JArr items)
  | _ => Throw "TypeError: Cannot create property"
  end.

(** [v == null] (loose equality: [null] or [undefined]). *)
Definition is_nullish (v : JVal) : bool :=
  match v with
  | JUndefined | JNull => true
  | _ => false
  end.

(** [v] is the empty object [{}]. *)
Definition is_empty_object (v : JVal) : bool :=
  match v with
  | JObj [] => true
  | _ => false
  end.

(** [v === s] for a string literal [s]. *)
Definition is_str (v : JVal) (s : string) : bool :=
  match v with
  | JStr s' => s' =? s
  | _ => false
  end.

(** Optional values as JavaScript sees them. *)
Definition of_opt_str (o : option string) : JVal :=
  match o with
  | Some s => JStr s
  | None => JUndefined
  end.

(** ** Strings *)

Definition dquote : string := String (ascii_of_nat 34) "".

(** The line feed. *)
Definition nl : string := String (ascii_of_nat 10) "".

Fixpoint drop (n : nat) (s : string) : string :=
  match n, s with
  | O, _ => s
  | S _, "" => ""
  | S n', String _ s' => drop n' s'
  end.

Fixpoint take (n : nat) (s : string) : string :=
  match n, s with
  | O, _ => ""
  | S _, "" => ""
  | S n', String c s' => String c (take n' s')
  end.

(** Offset of the first occurrence of [pat] in [s]. *)
Fixpoint indexOf (pat s : string) : option nat :=
  if prefix pat s then Some 0
  else match s with
       | "" => None
       | String _ s' => option_map S (indexOf pat s')
       end.

(** [s.includes(pat)] *)
Definition includes (pat s : string) : bool :=
  match indexOf pat s with
  | Some _ => true
  | None => false
  end.

(** GetSubstitution for a string pattern (no capture groups): in the
    replacement text, [$$] is a dollar, [$&] the matched text, [$`] the text
    before the match and [$'] the text after it; every other character,
    including a dollar followed by anything else, is copied. *)
Fixpoint getSubstitution (matched before after rep : string) : string :=
  match rep with
  | "" => ""
  | String c tl =>
      if (c =? "$")%char then
        match tl with
        | String d rest =>
            if (d =? "$")%char then String "$" (getSubstitution matched before after rest)
            else if (d =? "&")%char then matched ++ getSubstitution matched before after rest
            else if (d =? "`")%char then before ++ getSubstitution matched before after rest
            else if (d =? "'")%char then after ++ getSubstitution matched before after rest
            else String c (getSubstitution matched before after tl)
        | "" => String c ""
        end
      else String c (getSubstitution matched before after tl)
  end.

(** [s.replace(pat, rep)] with a string pattern: only the first occurrence
    is replaced. *)
Definition replace (pat rep s : string) : string :=
  match indexOf pat s with
  | None => s
  | Some i =>
      let before := take i s in
      let after := drop (i + String.length pat) s in
      before ++ getSubstitution pat before after rep ++ after
  end.

Definition is_space (c : ascii) : bool :=
  let n := nat_of_ascii c in
  orb (Nat.eqb n 32) (andb (Nat.leb 9 n) (Nat.leb n 13)).

Fixpoint trimStart (s : string) : string :=
  match s with
  | String c s' => if is_space c then trimStart s' else s
  | "" => ""
  end.

Fixpoint trimEnd (s : string) : string :=
  match s with
  | "" => ""
  | String c s' =>
      match trimEnd s' with
      | "" => if is_space c then "" else String c ""
      | t => String c t
      end
  end.

(** [s.trim()] (white space of the ASCII range). *)
Definition trim (s : string) : string := trimEnd (trimStart s).

Definition lower_ascii (c : ascii) : ascii :=
  let n := nat_of_ascii c in
  if andb (Nat.leb 65 n) (Nat.leb n 90) then ascii_of_nat (n + 32) else c.

(** [s.toLowerCase()] (letters of the ASCII range). *)
Fixpoint toLowerCase (s : string) : string :=
  match s with
  | "" => ""
  | String c s' => String (lower_ascii c) (toLowerCase s')
  end.

(** Offset of the last occurrence of the character [c] in [s]. *)
Fixpoint lastIndexOfChar (c : ascii) (s : string) : option nat :=
  match s with
  | "" => None
  | String d s' =>
      match lastIndexOfChar c s' with
      | Some i => Some (S i)
      | None => if (d =? c)%char then Some 0 else None
      end
  end.

(** [content.match(/\{[\s\S]*\}/)]: the text from the first opening brace
    to the last closing brace after it, if there is one. *)
Definition matchBraces (content : string) : option string :=
  match indexOf "{" content with
  | None => None
  | Some i =>
      let from := drop i content in
      match lastIndexOfChar "}" (drop 1 from) with
      | None => None
      | Some j => Some (take (j + 2) from)
      end
  end.

(** [parts.join(sep)] *)
Fixpoint join (sep : string) (parts : list string) : string :=
  match parts with
  | [] => ""
  | [p] => p
  | p :: rest => p ++ sep ++ join sep rest
  end.

End Js.

(* ================================================================== *)
(** * JavaScript numbers as the machine has them                       *)
(* ================================================================== *)

(** IEEE 754 binary64 with round-to-nearest-even, on the specification of
    the Standard Library: the arithmetic of [number] where the result
    depends on it. *)
Module Double.

Definition double : Type := SpecFloat.spec_float.

Definition prec : Z := 53%Z.
Definition emax : Z := 1024%Z.

Definition NaN : double := SpecFloat.S754_nan.

(** [x + y], [x * y], [x / y] *)
Definition add : double -> double -> double := SpecFloat.SFadd prec emax.
Definition mul : double -> double -> double := SpecFloat.SFmul prec emax.
Definition div : double -> double -> double := SpecFloat.SFdiv prec emax.

(** The number value of an integer. *)
Definition of_Z (z : Z) : double := SpecFloat.binary_normalize prec emax z 0%Z false.

(** The number value of the decimal numeral that denotes [n / d]: the
    double nearest to the quotient. *)
Definition ratio (n : Z) (d : positive) : double :=
  match n with
  | Zpos a => div (SpecFloat.S754_finite false a 0%Z) (SpecFloat.S754_finite false d 0%Z)
  | Zneg a => div (SpecFloat.S754_finite true a 0%Z) (SpecFloat.S754_finite false d 0%Z)
  | Z0 => SpecFloat.S754_zero false
  end.

(** [m * 2^e >= 10^21] *)
Definition at_least_1e21 (m : positive) (e : Z) : bool :=
  match e with
  | Zneg p => (10 ^ 21 * 2 ^ Zpos p <=? Zpos m)%Z
  | _ => (10 ^ 21 <=? Zpos m * 2 ^ e)%Z
  end.

(** The integer [n] for which [n / 10^6] is nearest to [m * 2^e], the
    larger one when two are equally near. *)
Definition millionths (m : positive) (e : Z) : Z :=
  match e with
  | Zneg p => ((2 * (Zpos m * 1000000) + 2 ^ Zpos p) / 2 ^ (Zpos p + 1))%Z
  | _ => (Zpos m * 1000000 * 2 ^ e)%Z
  end.

(** [parseFloat(x.toFixed(6))]. [toFixed] prints the sign and the digits
    of [millionths] of the magnitude; a magnitude of at least [10^21], an
    infinity and NaN are printed as [String(x)] prints them, and are read
    back unchanged. *)
Definition toFixed6 (x : double) : double :=
  match x with
  | SpecFloat.S754_finite s m e =>
      if at_least_1e21 m e then x
      else match millionths m e with
           | Zpos n => div (SpecFloat.S754_finite s n 0%Z)
                         (SpecFloat.S754_finite false 1000000%positive 0%Z)
           | _ => SpecFloat.S754_zero s
           end
  | SpecFloat.S754_zero _ => SpecFloat.S754_zero false
  | _ => x
  end.

End Double.

Import Js.

(* ================================================================== *)
(** * db/agentConfigRepo: the configuration read by the core           *)
(* ================================================================== *)

Module Config.

Record LLMConfig : Type := {
  provider : string;          (* 'openai' | 'gemini' | 'groq' *)
  model : string
}.

(** [KnowledgeSource.source] *)
Inductive SourceKind : Type := src_rag | src_api | src_mongodb.

Record KnowledgeSource : Type := {
  source : SourceKind;
  vectorIndex : option string;
  apiUrl : option string;
  ks_apiKeyEncrypted : option string
}.

(** [KnowledgeConfig]: the two named topics and the index signature. *)
Record KnowledgeConfig : Type := {
  companyInfo : option KnowledgeSource;
  kproducts : option KnowledgeSource;
  other_topics : list (string * KnowledgeSource)
}.

(** [ToolConfig.type] *)
Inductive ToolType : Type := type_mongodb | type_api | type_rag.

Record ToolConfig : Type := {
  enabled : bool;
  type : option ToolType
}.

(** [CustomTool]. The interface declares [name], [baseUrl] and [enabled] as
    required, but the registry checks them at run time, so they are optional
    here: [None] is a missing property. *)
Record CustomTool : Type := {
  name : option string;
  baseUrl : option string;
  path : option string;
  method : option string;      (* 'GET' | 'POST' | 'PUT' | 'DELETE' *)
  apiKeyEncrypted : option string;
  ct_enabled : option bool;
  description : option string;
  parameters : option JVal
}.

(** [tools.mode] *)
Inductive Mode : Type := mode_default | mode_custom | mode_hybrid.

Record Tools : Type := {
  mode : option Mode;
  searchProduct : option ToolConfig;
  addToCart : option ToolConfig;
  getOrder : option ToolConfig;
  custom : option (list CustomTool)
}.

(** [AgentConfig], without the fields that only the prompt text and the
    audio pipeline read (plan, policies, personality, audio, systemPrompt). *)
Record AgentConfig : Type := {
  tenantId : string;
  agentId : string;
  llm : LLMConfig;
  knowledge : KnowledgeConfig;
  tools : Tools
}.

(** [cfg?.enabled] as a condition. *)
Definition flag (cfg : option ToolConfig) : bool :=
  match cfg with
  | Some c => enabled c
  | None => false
  end.

(** [!s] is false: the property is there and is not the empty string. *)
Definition present (s : option string) : bool :=
  match s with
  | Some v => negb (v =? "")
  | None => false
  end.

(** [customTool.enabled === true] *)
Definition strictly_enabled (t : CustomTool) : bool :=
  match ct_enabled t with
  | Some true => true
  | _ => false
  end.

(** [k?.source === 'rag'] *)
Definition source_is_rag (k : option KnowledgeSource) : bool :=
  match k with
  | Some s => match source s with src_rag => true | _ => false end
  | None => false
  end.

(** [knowledge[topic]] *)
Definition topic (k : KnowledgeConfig) (t : string) : option KnowledgeSource :=
  if t =? "companyInfo" then companyInfo k
  else if t =? "products" then kproducts k
  else assoc t (other_topics k).

End Config.

(* ================================================================== *)
(** * services/llmRouter: the provider interface                       *)
(* ================================================================== *)

Module LLM.

Inductive Role : Type := role_system | role_user | role_assistant.

Record LLMMessage : Type := {
  role : Role;
  content : string
}.

Record Tokens : Type := {
  prompt : Z;
  completion : Z;
  total : Z
}.

Record ToolCall : Type := {
  tc_name : string;
  arguments : JVal
}.

(** [LLMResponseWithTools] *)
Record LLMResponse : Type := {
  r_content : string;
  r_model : string;
  r_tokens : option Tokens;
  r_latency : Z;
  toolCalls : option (list ToolCall)
}.

End LLM.

(* ================================================================== *)
(** * The stores and the outside world                                 *)
(* ================================================================== *)

(** Ordering helper shared by the [find(...).sort(...).limit(...)] chains:
    a stable insertion sort on a key, and the cursor's [limit]. *)
Module Cursor.

Section Sort.
Context {A : Type} (leb : A -> A -> bool).

Fixpoint insert (x : A) (l : list A) : list A :=
  match l with
  | [] => [x]
  | y :: rest => if leb x y then x :: l else y :: insert x rest
  end.

Fixpoint sort (l : list A) : list A :=
  match l with
  | [] => []
  | x :: rest => insert x (sort rest)
  end.

End Sort.

(** [cursor.limit(n)]: [0] means no limit, a negative [n] limits to [|n|]. *)
Definition limit {A : Type} (n : Z) (l : list A) : list A :=
  if (n =? 0)%Z then l else firstn (Z.abs_nat n) l.

(** [collection.findOne(filter)] *)
Definition findOne {A : Type} (filter : A -> bool) (l : list A) : option A :=
  List.find filter l.

End Cursor.

Module Store.

(** ** Documents *)

Record Price : Type := {
  regular : Q;
  sale : Q
}.

Record Trash : Type := {
  status : bool;
  date : string
}.

Record Category : Type := {
  idcat : string;
  cat_slug : string
}.

(** [Product] (collection [catalog-db.products]); [_id] is the ObjectId as
    [toHexString] prints it. *)
Record Product : Type := {
  p_id : string;
  p_domain : string;
  title : string;
  slug : string;
  description_short : option string;
  description_long : option string;
  price : Price;
  image_default : option (list string);
  stock : option Q;
  category : option (list Category);
  is_available : bool;
  is_trash : option Trash;
  order : option Q
}.

Record OrderProduct : Type := {
  productId : string;
  id : string;
  op_title : string;
  image : string;
  qty : Q;
  price_regular : Q;
  price_sale : Q;
  valid_price : Q;
  op_slug : string;
  isValid : bool
}.

Record ClientInfo : Type := {
  doc : string;
  ci_name : string;
  email : string;
  phone : string
}.

Record Status : Type := {
  typeStatus : string;
  st_message : string
}.

(** [Order] (collection [data-creceidea.orders]); times are clock ticks. *)
Record Order : Type := {
  o_id : string;
  o_domain : string;
  products : list OrderProduct;
  clientInfo : ClientInfo;
  billingInfo : ClientInfo;
  shippingInfo : ClientInfo;
  paymentStatus : Status;
  o_total : Q;
  currency : string;
  orderStatus : Status;
  createdAt : nat;
  updatedAt : nat;
  orderNumber : string
}.

(** [ConversationMessage.action] *)
Record StoredAction : Type := {
  sa_type : JVal;
  sa_payload : JVal
}.

Record ConversationMessage : Type := {
  m_tenantId : string;
  m_userId : string;
  m_conversationId : string;
  m_role : LLM.Role;
  m_content : JVal;
  m_action : option StoredAction;
  m_toolsUsed : option (list string);
  m_createdAt : nat
}.

(** ** Requests that leave the process *)

Record HttpRequest : Type := {
  url : string;
  h_method : string;
  body : option JVal;
  h_apiKeyEncrypted : option string
}.

Record LLMRequest : Type := {
  q_config : Config.LLMConfig;
  q_messages : list LLM.LLMMessage;
  q_tools : option (list JVal)
}.

(** ** The world: the collections, the log of provider and HTTP calls
    made so far, and a clock that also seeds generated identifiers. *)
Record World : Type := {
  configs : list Config.AgentConfig;
  catalog : list Product;
  orders : list Order;
  conversations : list ConversationMessage;
  llm_log : list LLMRequest;
  http_log : list HttpRequest;
  clock : nat
}.

Definition with_orders (os : list Order) (w : World) : World :=
  {| configs := configs w; catalog := catalog w; orders := os; conversations := conversations w;
     llm_log := llm_log w; http_log := http_log w; clock := clock w |}.

Definition with_conversations (ms : list ConversationMessage) (w : World) : World :=
  {| configs := configs w; catalog := catalog w; orders := orders w; conversations := ms;
     llm_log := llm_log w; http_log := http_log w; clock := clock w |}.

Definition log_llm (r : LLMRequest) (w : World) : World :=
  {| configs := configs w; catalog := catalog w; orders := orders w; conversations := conversations w;
     llm_log := llm_log w ++ [r]; http_log := http_log w; clock := clock w |}.

Definition log_http (r : HttpRequest) (w : World) : World :=
  {| configs := configs w; catalog := catalog w; orders := orders w; conversations := conversations w;
     llm_log := llm_log w; http_log := http_log w ++ [r]; clock := clock w |}.

Definition tick (w : World) : World :=
  {| configs := configs w; catalog := catalog w; orders := orders w; conversations := conversations w;
     llm_log := llm_log w; http_log := http_log w; clock := S (clock w) |}.

(** ** What the platform and the remote services do.

    No property of these functions is assumed anywhere; an instance fixes
    them when a run is evaluated. The provider's answer may depend on the
    number of calls already made in the turn's world, so that two calls with
    equal arguments may differ. *)
Class Env : Type := {
  (** [JSON.parse(text)], throwing a SyntaxError *)
  JSON_parse : string -> Exc JVal;
  (** [JSON.stringify(v)] *)
  JSON_stringify : JVal -> string;
  (** [JSON.stringify(v, null, 2)] *)
  JSON_stringify_pretty : JVal -> string;
  (** [String(v)] and [${v}] on a value that is not a string *)
  ToString : JVal -> string;
  (** ToNumber on a string, an array or an object; [None] is NaN *)
  ToNumber : JVal -> option Q;
  (** [x.toFixed(digits)] *)
  toFixed : nat -> Q -> string;
  (** the serializer of [URLSearchParams] for one name or one value *)
  urlencode : string -> string;
  (** [new URL(base)], [searchParams.set] for each pair, [toString()] *)
  url_with_search : string -> list (string * string) -> Exc string;
  (** [ObjectId.isValid(s)] *)
  ObjectId_isValid : string -> bool;
  (** [new ObjectId(s).toHexString()] for an [s] that [ObjectId.isValid]
      accepts (the driver reads hexadecimal digits in either case) *)
  ObjectId_hex : string -> string;
  (** [{ $regex: pattern, $options: 'i' }] on a field value *)
  regex_match : string -> string -> bool;
  (** the LLM vendor behind [LLMRouter.generate] *)
  provider_generate : nat -> LLMRequest -> Exc LLM.LLMResponse;
  (** the global [fetch] followed by [response.json()], with the non-2xx
      check of [ExternalApiService.fetch] *)
  http_fetch : HttpRequest -> Exc JVal;
  (** [OrdersRepo.generateOrderNumber] at a clock value
      ([Date.now()] followed by random base-36 digits) *)
  orderNumberAt : nat -> string;
  (** the ObjectId the driver assigns to a document inserted at a clock
      value *)
  objectIdAt : nat -> string;
  (** the error with which the database rejects the insertion of a
      conversation message, if it does *)
  insertOne_error : ConversationMessage -> option string
}.

(** [String(v)], [${v}] *)
Definition to_string `{Env} (v : JVal) : string :=
  match v with
  | JStr s => s
  | _ => ToString v
  end.

(** ToNumber; [None] is NaN. *)
Definition to_number `{Env} (v : JVal) : option Q :=
  match v with
  | JNum q => Some q
  | JUndefined => None
  | JNull => Some 0%Q
  | JBool b => Some (if b then 1%Q else 0%Q)
  | _ => ToNumber v
  end.

Definition Qlt_bool (x y : Q) : bool := negb (Qle_bool y x).

(** [v > n] for a number literal [n]; a comparison with NaN is false. *)
Definition js_gt `{Env} (v : JVal) (n : Q) : bool :=
  match to_number v with
  | Some q => Qlt_bool n q
  | None => false
  end.

(** ** Computations over the world.

    [M A] runs in a world, may change it, and returns an [A] or throws; the
    changes made before a throw stay. *)
Definition M (A : Type) : Type := World -> Exc A * World.

Definition ret {A : Type} (a : A) : M A := fun w => (Ok a, w).

Definition bind {A B : Type} (m : M A) (k : A -> M B) : M B :=
  fun w =>
    match m w with
    | (Ok a, w') => k a w'
    | (Throw e, w') => (Throw e, w')
    end.

Definition throw {A : Type} (e : string) : M A := fun w => (Throw e, w).

(** [try { m } catch (error) { handler(message of error) }] *)
Definition catch {A : Type} (m : M A) (handler : string -> M A) : M A :=
  fun w =>
    match m w with
    | (Ok a, w') => (Ok a, w')
    | (Throw e, w') => handler e w'
    end.

Definition lift {A : Type} (e : Exc A) : M A := fun w => (e, w).

(** A read of the stores. *)
Definition gets {A : Type} (f : World -> A) : M A := fun w => (Ok (f w), w).

(** A write to the stores that returns a value. *)
Definition update {A : Type} (f : World -> A * World) : M A :=
  fun w => let (a, w') := f w in (Ok a, w').

End Store.

Declare Scope m_scope.
Delimit Scope m_scope with M.
Notation "x <- m ;; k" := (Store.bind m (fun x => k))
  (at level 100, m at next level, right associativity) : m_scope.
Notation "' pat <- m ;; k" := (Store.bind m (fun x => match x with pat => k end))
  (at level 100, pat pattern, m at next level, right associativity) : m_scope.

(* ================================================================== *)
(** * db/productsRepo                                                  *)
(* ================================================================== *)

Module ProductsRepo.
Import Store.

(** ['is_trash.status': false] matches a document whose [is_trash.status] is
    [false]; a document without [is_trash] does not match. *)
Definition not_trashed (p : Product) : bool :=
  match is_trash p with
  | Some t => negb (status t)
  | None => false
  end.

Definition regex_opt `{Env} (pattern : string) (field : option string) : bool :=
  match field with
  | Some v => regex_match pattern v
  | None => false
  end.

(** The filter of [search]. *)
Definition search_filter `{Env} (domain query : string) (p : Product) : bool :=
  (p_domain p =? domain) && not_trashed p && is_available p &&
  (if negb (query =? "") && negb (trim query =? "")
   then regex_match query (title p)
        || regex_opt query (description_short p)
        || regex_opt query (description_long p)
        || regex_match query (slug p)
   else true).

(** [sort({ order: 1 })]: ascending, a missing [order] first. *)
Definition order_leb (a b : Product) : bool :=
  match order a, order b with
  | None, _ => true
  | Some _, None => false
  | Some x, Some y => Qle_bool x y
  end.

Definition search `{Env} (domain query : string) (limit : Z) (w : World)
  : list Product :=
  Cursor.limit limit (Cursor.sort order_leb (filter (search_filter domain query) (catalog w))).

Definition getById `{Env} (domain identifier : string) (w : World)
  : option Product :=
  let by_id :=
    if ObjectId_isValid identifier
    then Cursor.findOne
           (fun p => (p_id p =? ObjectId_hex identifier) && (p_domain p =? domain)
                     && not_trashed p)
           (catalog w)
    else None in
  match by_id with
  | Some p => Some p
  | None =>
      Cursor.findOne
        (fun p => (p_domain p =? domain) && (slug p =? identifier) && not_trashed p)
        (catalog w)
  end.

Definition getProductPrice (product : Product) : Q :=
  if Qlt_bool 0 (sale (price product)) then sale (price product)
  else regular (price product).

Definition getProductImage (product : Product) : option string :=
  match image_default product with
  | Some (first :: _) => Some first
  | _ => None
  end.

End ProductsRepo.

(* ================================================================== *)
(** * db/ordersRepo                                                    *)
(* ================================================================== *)

Module OrdersRepo.
Import Store.

Definition getById `{Env} (domain identifier : string) (w : World)
  : option Order :=
  let by_id :=
    if ObjectId_isValid identifier
    then Cursor.findOne
           (fun o => (o_id o =? ObjectId_hex identifier) && (o_domain o =? domain))
           (orders w)
    else None in
  match by_id with
  | Some o => Some o
  | None =>
      Cursor.findOne
        (fun o => (o_domain o =? domain) && (orderNumber o =? identifier)) (orders w)
  end.

Definition of_user (domain userIdentifier : string) (o : Order) : bool :=
  (o_domain o =? domain) &&
  ((email (clientInfo o) =? userIdentifier) || (phone (clientInfo o) =? userIdentifier)).

(** [sort({ createdAt: -1 })] *)
Definition newest_first (a b : Order) : bool := Nat.leb (createdAt b) (createdAt a).

Definition getByUser (domain userIdentifier : string) (limit : Z) (w : World)
  : list Order :=
  Cursor.limit limit
    (Cursor.sort newest_first (filter (of_user domain userIdentifier) (orders w))).

(** The fields the caller of [create] supplies. *)
Record NewOrder : Type := {
  n_domain : string;
  n_products : list OrderProduct;
  n_clientInfo : ClientInfo;
  n_billingInfo : ClientInfo;
  n_shippingInfo : ClientInfo;
  n_paymentStatus : Status;
  n_total : Q;
  n_currency : string;
  n_orderStatus : Status;
  n_orderNumber : string
}.

Definition create `{Env} (order : NewOrder) (w : World) : Order * World :=
  let newOrder :=
    {| o_id := objectIdAt (clock w);
       o_domain := n_domain order;
       products := n_products order;
       clientInfo := n_clientInfo order;
       billingInfo := n_billingInfo order;
       shippingInfo := n_shippingInfo order;
       paymentStatus := n_paymentStatus order;
       o_total := n_total order;
       currency := n_currency order;
       orderStatus := n_orderStatus order;
       createdAt := clock w;
       updatedAt := clock w;
       orderNumber := n_orderNumber order |} in
  (newOrder, tick (with_orders (orders w ++ [newOrder]) w)).

Definition getActiveCart (domain userIdentifier : string) (w : World)
  : option Order :=
  Cursor.findOne
    (fun o => (o_domain o =? domain) && (typeStatus (orderStatus o) =? "pending") &&
              ((email (clientInfo o) =? userIdentifier) ||
               (phone (clientInfo o) =? userIdentifier)))
    (orders w).

(** [products.reduce((sum, p) => sum + p.valid_price * p.qty, 0)] *)
Definition total_of (ps : list OrderProduct) : Q :=
  fold_left (fun sum p => (sum + valid_price p * qty p)%Q) ps 0%Q.

Definition set_products (ps : list OrderProduct) (total : Q) (now : nat) (o : Order)
  : Order :=
  {| o_id := o_id o; o_domain := o_domain o; products := ps;
     clientInfo := clientInfo o; billingInfo := billingInfo o;
     shippingInfo := shippingInfo o; paymentStatus := paymentStatus o;
     o_total := total; currency := currency o; orderStatus := orderStatus o;
     createdAt := createdAt o; updatedAt := now; orderNumber := orderNumber o |}.

(** [findOneAndUpdate(filter, { $set }, { returnDocument: 'after' })]:
    the first matching document is replaced; the updated document is
    returned, or [null] when nothing matches. *)
Fixpoint findOneAndUpdate (filter : Order -> bool) (upd : Order -> Order)
  (l : list Order) : option Order * list Order :=
  match l with
  | [] => (None, [])
  | o :: rest =>
      if filter o then (Some (upd o), upd o :: rest)
      else let (r, rest') := findOneAndUpdate filter upd rest in (r, o :: rest')
  end.

Definition updateProducts (domain orderNo : string) (ps : list OrderProduct)
  (w : World) : option Order * World :=
  let total := total_of ps in
  let (result, os) :=
    findOneAndUpdate
      (fun o => (o_domain o =? domain) && (orderNumber o =? orderNo))
      (set_products ps total (clock w)) (orders w) in
  (result, tick (with_orders os w)).

Definition generateOrderNumber `{Env} (w : World) : string * World :=
  (orderNumberAt (clock w), tick w).

End OrdersRepo.

(* ================================================================== *)
(** * services/externalApiService                                      *)
(* ================================================================== *)

Module ExternalApiService.
Import Store.
Local Open Scope m_scope.

(** [options] of [fetch]. *)
Record Options : Type := {
  o_method : option string;
  o_body : JVal;
  o_apiKeyEncrypted : option string
}.

(** [fetch(url, options)]: the method defaults to GET, a body is sent only
    when it is truthy, a non-2xx answer throws. *)
Definition fetch `{Env} (url : string) (options : Options) : M JVal :=
  let request :=
    {| Store.url := url;
       h_method := match o_method options with Some m => m | None => "GET" end;
       body := if truthy (o_body options) then Some (o_body options) else None;
       h_apiKeyEncrypted := o_apiKeyEncrypted options |} in
  fun w => (http_fetch request, log_http request w).

Definition is_array (v : JVal) : bool :=
  match v with JArr _ => true | _ => false end.

(** [params] of [fetchProducts]; a missing [limit] is [undefined]. The
    caller hands over the [limit] argument of the tool as it came. *)
Record Params : Type := {
  p_query : option string;
  p_limit : JVal;
  p_category : option string
}.

(** [if (params?.k) url.searchParams.set(name, params.k)] for a string. *)
Definition search_param (name : string) (v : option string) : list (string * string) :=
  match v with
  | Some s => if s =? "" then [] else [(name, s)]
  | None => []
  end.

(** The search parameters that [fetchProducts] sets, in order. *)
Definition search_params `{Env} (params : option Params) : list (string * string) :=
  match params with
  | Some p =>
      (search_param "q" (p_query p) ++
       (if truthy (p_limit p) then [("limit", to_string (p_limit p))] else []) ++
       search_param "category" (p_category p))%list
  | None => []
  end.

(** [fetchProducts(tenantId, apiUrl, apiKeyEncrypted, params)] *)
Definition fetchProducts `{Env} (tenantId apiUrl : string)
  (apiKeyEncrypted : option string) (params : option Params) : M JVal :=
  url <- lift (url_with_search apiUrl (search_params params)) ;;
  response <- fetch url {| o_method := Some "GET"; o_body := JUndefined;
                           o_apiKeyEncrypted := apiKeyEncrypted |} ;;
  if is_array response then ret response
  else if is_nullish response then throw "TypeError: Cannot read properties"
  else if is_array (jget response "products") then ret (jget response "products")
  else if is_array (jget response "data") then ret (jget response "data")
  else ret (JArr []).

End ExternalApiService.

(* ================================================================== *)
(** * services/ragService                                              *)
(* ================================================================== *)

Module RAGService.

(** [query(tenantId, query, vectorIndex)]: the service is a stub that finds
    nothing. *)
Definition query (tenantId query : string) (vectorIndex : option string) : JVal :=
  JObj [("data", JArr []); ("sources", JArr [])].

End RAGService.

(* ================================================================== *)
(** * services/toolRegistry                                            *)
(* ================================================================== *)

Module ToolRegistry.
Import Store Config.
Local Open Scope m_scope.

Record ToolDefinition : Type := {
  td_name : string;
  td_description : string;
  td_parameters : JVal
}.

(** [ToolResult]; an absent [data] is [undefined], an absent
    [needsUserInput] is [false]. *)
Record ToolResult : Type := {
  success : bool;
  data : JVal;
  error : option string;
  needsUserInput : bool;
  question : option string
}.

Record ToolContext : Type := {
  c_tenantId : string;
  c_userId : string;
  c_conversationId : string;
  agentConfig : AgentConfig
}.

(** [{ success: false, error }] *)
Definition failure (msg : string) : ToolResult :=
  {| success := false; data := JUndefined; error := Some msg;
     needsUserInput := false; question := None |}.

(** [{ success: true, data }] *)
Definition succeeded (d : JVal) : ToolResult :=
  {| success := true; data := d; error := None;
     needsUserInput := false; question := None |}.

(** [{ success: false, needsUserInput: true, question, error }] *)
Definition ask (q msg : string) : ToolResult :=
  {| success := false; data := JUndefined; error := Some msg;
     needsUserInput := true; question := Some q |}.

(** ** The advertised schemas *)

Definition prop (ty descr : string) : JVal :=
  JObj [("type", JStr ty); ("description", JStr descr)].

Definition schema (props : list (string * JVal)) (required : list string) : JVal :=
  JObj ([("type", JStr "object"); ("properties", JObj props)] ++
        match required with
        | [] => []
        | _ => [("required", JArr (map JStr required))]
        end)%list.

Definition def_search_product : ToolDefinition :=
  {| td_name := "search_product";
     td_description := "Busca productos en el catálogo por nombre, descripción o categoría";
     td_parameters :=
       schema [("query", prop "string" "Término de búsqueda");
               ("limit", prop "number" "Número máximo de resultados (default: 10)")]
              ["query"] |}.

Definition def_add_to_cart : ToolDefinition :=
  {| td_name := "add_to_cart";
     td_description := "Agrega un producto al carrito del usuario";
     td_parameters :=
       schema [("productId", prop "string" "ID del producto a agregar");
               ("quantity", prop "number" "Cantidad a agregar (default: 1)")]
              ["productId"] |}.

Definition def_get_order : ToolDefinition :=
  {| td_name := "get_order";
     td_description := "Obtiene información de una orden. Si no tienes el número de orden, pregunta al usuario por su email, teléfono o número de orden antes de usar esta herramienta.";
     td_parameters :=
       schema [("orderId", prop "string" "ID de la orden (ObjectId)");
               ("orderNumber", prop "string"
                  ("Número de orden (ej: " ++ dquote ++ "17405329519752tYdTn9" ++ dquote ++ ")"));
               ("email", prop "string" "Email del cliente para buscar órdenes");
               ("phone", prop "string" "Teléfono del cliente para buscar órdenes")]
              [] |}.

Definition def_show_product : ToolDefinition :=
  {| td_name := "show_product";
     td_description := "Muestra detalles de un producto específico";
     td_parameters :=
       schema [("productId", prop "string" "ID del producto")] ["productId"] |}.

Definition def_rag_query : ToolDefinition :=
  {| td_name := "rag_query";
     td_description := "Consulta información usando RAG (Retrieval Augmented Generation)";
     td_parameters :=
       schema [("query", prop "string" "Consulta a realizar");
               ("source",
                JObj [("type", JStr "string");
                      ("description", JStr "Fuente de conocimiento: companyInfo o products");
                      ("enum", JArr [JStr "companyInfo"; JStr "products"])])]
              ["query"] |}.

(** [`${x}`] for an optional string. *)
Definition interpolate (s : option string) : string :=
  match s with
  | Some v => v
  | None => "undefined"
  end.

(** The definition pushed for a custom tool. *)
Definition def_custom (customTool : CustomTool) : ToolDefinition :=
  {| td_name := interpolate (name customTool);
     td_description :=
       if present (description customTool) then interpolate (description customTool)
       else "Custom tool: " ++ interpolate (name customTool);
     td_parameters :=
       match parameters customTool with
       | Some p => if truthy p then p else schema [] []
       | None => schema [] []
       end |}.

(** [agentConfig.tools.mode || 'default'] *)
Definition effective_mode (agentConfig : AgentConfig) : Mode :=
  match mode (tools agentConfig) with
  | Some m => m
  | None => mode_default
  end.

(** The core block of [getToolDefinitions], in push order. *)
Definition core_definitions (agentConfig : AgentConfig) : list ToolDefinition :=
  ((if flag (searchProduct (tools agentConfig)) then [def_search_product] else []) ++
   (if flag (addToCart (tools agentConfig)) then [def_add_to_cart] else []) ++
   (if flag (getOrder (tools agentConfig)) then [def_get_order] else []) ++
   (if flag (searchProduct (tools agentConfig)) then [def_show_product] else []) ++
   (if source_is_rag (companyInfo (knowledge agentConfig))
       || source_is_rag (kproducts (knowledge agentConfig))
    then [def_rag_query] else []))%list.

(** One iteration of the loop over [agentConfig.tools.custom]. *)
Definition custom_definition (customTool : CustomTool) : list ToolDefinition :=
  let isEnabled := strictly_enabled customTool in
  if negb (present (name customTool)) || negb (present (baseUrl customTool)) then []
  else if isEnabled then [def_custom customTool]
  else [].

(** What the first block of [getToolDefinitions] pushes:
    [if (mode === 'default' || mode === 'hybrid') { ... }]. *)
Definition advertised_core (agentConfig : AgentConfig) : list ToolDefinition :=
  match effective_mode agentConfig with
  | mode_default | mode_hybrid => core_definitions agentConfig
  | mode_custom => []
  end.

(** What the second block pushes:
    [if ((mode === 'custom' || mode === 'hybrid') && agentConfig.tools.custom)
       for (const customTool of agentConfig.tools.custom) { ... }]. *)
Definition advertised_custom (agentConfig : AgentConfig) : list ToolDefinition :=
  match effective_mode agentConfig, custom (tools agentConfig) with
  | (mode_custom | mode_hybrid), Some l => flat_map custom_definition l
  | _, _ => []
  end.

Definition getToolDefinitions (agentConfig : AgentConfig) : list ToolDefinition :=
  (advertised_core agentConfig ++ advertised_custom agentConfig)%list.

(** ** Custom tools *)

Definition findCustomTool (toolName : string) (agentConfig : AgentConfig)
  : option CustomTool :=
  match custom (tools agentConfig) with
  | None => None
  | Some l =>
      match List.find (fun tool => match name tool with
                                   | Some n => n =? toolName
                                   | None => false
                                   end) l with
      | None => None
      | Some foundTool => if strictly_enabled foundTool then Some foundTool else None
      end
  end.

Definition findCustomToolByName := findCustomTool.

Fixpoint indexed {A : Type} (i : nat) (l : list A) : list (nat * A) :=
  match l with
  | [] => []
  | x :: rest => (i, x) :: indexed (S i) rest
  end.

Definition chars (s : string) : list string :=
  map (fun c => String c "") (list_ascii_of_string s).

(** [Object.entries(args)]: the own enumerable properties in property
    order; throws on [null] and [undefined]. *)
Definition entries `{Env} (args : JVal) : Exc (list (string * JVal)) :=
  match args with
  | JObj fields => Ok fields
  | JArr items =>
      Ok (map (fun '(i, x) => (to_string (JNum (nat_to_Q i)), x)) (indexed 0 items))
  | JStr s =>
      Ok (map (fun '(i, c) => (to_string (JNum (nat_to_Q i)), JStr c)) (indexed 0 (chars s)))
  | JUndefined | JNull => Throw "TypeError: Cannot convert undefined or null to object"
  | _ => Ok []
  end.

(** [`{${key}}`] *)
Definition placeholder (key : string) : string := "{" ++ key ++ "}".

(** The loop that fills the path: for each entry, the first occurrence of
    its placeholder is replaced by [String(value)]. *)
Definition fill_path `{Env} (path : string) (es : list (string * JVal)) : string :=
  fold_left (fun p '(key, value) => replace (placeholder key) (to_string value) p) es path.

(** The entries that become query parameters of a GET. *)
Definition query_entries `{Env} (path : option string) (es : list (string * JVal))
  : list (string * string) :=
  flat_map (fun '(key, value) =>
              if negb (present path)
                 || negb (includes (placeholder key) (interpolate path))
              then [(key, to_string value)] else [])
           es.

(** [new URLSearchParams(queryParams).toString()] *)
Definition query_string `{Env} (params : list (string * string)) : string :=
  join "&" (map (fun '(k, v) => urlencode k ++ "=" ++ urlencode v) params).

(** The request that [executeCustomTool] hands to [ExternalApiService.fetch]:
    the URL and the options. *)
Definition custom_request `{Env} (customTool : CustomTool) (args : JVal)
  : Exc (string * ExternalApiService.Options) :=
  exc_bind
    (if present (path customTool)
     then exc_bind (entries args) (fun es =>
            Ok (interpolate (baseUrl customTool)
                ++ fill_path (interpolate (path customTool)) es))
     else Ok (interpolate (baseUrl customTool) ++ "/" ++ interpolate (name customTool)))
    (fun url =>
       let method := if present (method customTool)
                     then interpolate (method customTool) else "POST" in
       exc_bind
         (if method =? "GET"
          then exc_bind (entries args) (fun es =>
                 let queryString := query_string (query_entries (path customTool) es) in
                 if negb (queryString =? "")
                 then let separator := if includes "?" url then "&" else "?" in
                      Ok (url ++ separator ++ queryString, JUndefined)
                 else Ok (url, JUndefined))
          else Ok (url, args))
         (fun '(url', body) =>
            Ok (url', {| ExternalApiService.o_method := Some method;
                         ExternalApiService.o_body := body;
                         ExternalApiService.o_apiKeyEncrypted :=
                           apiKeyEncrypted customTool |}))).

Definition executeCustomTool `{Env} (customTool : CustomTool) (args : JVal)
  (context : ToolContext) : M ToolResult :=
  if negb (present (baseUrl customTool))
  then ret (failure ("Custom tool " ++ dquote ++ interpolate (name customTool)
                     ++ dquote ++ " is missing baseUrl"))
  else
    catch
      ('(url, options) <- lift (custom_request customTool args) ;;
       response <- ExternalApiService.fetch url options ;;
       ret (succeeded response))
      (fun errorMessage => ret (failure errorMessage)).

(** ** Documents as the JavaScript objects the tools return *)

Definition opt_num (o : option Q) : JVal :=
  match o with Some q => JNum q | None => JUndefined end.

Definition product_json (p : Product) : JVal :=
  JObj [("_id", JStr (p_id p));
        ("domain", JStr (p_domain p));
        ("title", JStr (title p));
        ("slug", JStr (slug p));
        ("description_short", of_opt_str (description_short p));
        ("description_long", of_opt_str (description_long p));
        ("price", JObj [("regular", JNum (regular (price p)));
                        ("sale", JNum (sale (price p)))]);
        ("image_default",
         match image_default p with
         | Some l => JArr (map JStr l)
         | None => JUndefined
         end);
        ("stock", opt_num (stock p));
        ("category",
         match category p with
         | Some l => JArr (map (fun c => JObj [("idcat", JStr (idcat c));
                                               ("slug", JStr (cat_slug c))]) l)
         | None => JUndefined
         end);
        ("is_available", JBool (is_available p));
        ("is_trash",
         match is_trash p with
         | Some t => JObj [("status", JBool (status t)); ("date", JStr (date t))]
         | None => JUndefined
         end);
        ("order", opt_num (order p))].

Definition order_product_json (p : OrderProduct) : JVal :=
  JObj [("productId", JStr (productId p));
        ("id", JStr (id p));
        ("title", JStr (op_title p));
        ("image", JStr (image p));
        ("qty", JNum (qty p));
        ("price_regular", JNum (price_regular p));
        ("price_sale", JNum (price_sale p));
        ("valid_price", JNum (valid_price p));
        ("slug", JStr (op_slug p));
        ("isValid", JBool (isValid p))].

Definition status_json (s : Status) : JVal :=
  JObj [("typeStatus", JStr (typeStatus s)); ("message", JStr (st_message s))].

Definition client_json (c : ClientInfo) : JVal :=
  JObj [("doc", JStr (doc c)); ("name", JStr (ci_name c));
        ("email", JStr (email c)); ("phone", JStr (phone c))].

(** ** Arguments as the executors read them *)

(** [const { k = dflt } = args] *)
Definition arg_default (args : JVal) (k : string) (dflt : JVal) : JVal :=
  match jget args k with
  | JUndefined => dflt
  | v => v
  end.

(** A truthy identifier handed to a repository method typed [string]. The
    tool schemas declare identifiers as strings; any other value is outside
    the schema and is read through [String(v)]. *)
Definition as_identifier `{Env} (v : JVal) : string := to_string v.

(** The quantity of an order line. An order line is a typed document whose
    [qty] is a number, and the tool schema declares the argument as a
    number: on a number this is the number itself. A value of another type
    is outside the schema and outside the typed document (the code would
    store what [+=] makes of it); the model reads it through ToNumber, and
    the facts about quantities are stated for numbers only. *)
Definition as_number `{Env} (v : JVal) : Q :=
  match to_number v with
  | Some q => q
  | None => 0%Q
  end.

(** [cursor.limit(v)]: the driver accepts an integer and throws on anything
    else. *)
Definition as_limit (v : JVal) : Exc Z :=
  match v with
  | JNum q =>
      if Qeq_bool q (inject_Z (Qfloor q)) then Ok (Qfloor q)
      else Throw "Operation limit requires an integer"
  | _ => Throw "Operation limit requires an integer"
  end.

(** ** Core tools *)

(** [const { ... } = args] throws on [null] and [undefined]. *)
Definition destructure (args : JVal) : Exc JVal :=
  if is_nullish args then Throw "TypeError: Cannot destructure" else Ok args.

(** The query that [searchProduct] hands to the repository: an empty query
    or the wildcard means everything. [query.trim] throws on a truthy value
    that is not a string. *)
Definition searchQuery_of (query : JVal) : Exc string :=
  if negb (truthy query) then Ok ""
  else match query with
       | JStr q => if (trim q =? "") || (q =? "*") then Ok "" else Ok (trim q)
       | _ => Throw "TypeError: query.trim is not a function"
       end.

Definition mongo_search `{Env} (context : ToolContext) (searchQuery : string)
  (limit : JVal) : M JVal :=
  n <- lift (as_limit limit) ;;
  found <- gets (ProductsRepo.search (c_tenantId context) searchQuery n) ;;
  ret (JArr (map product_json found)).

(** [{ success: true, data: { products: products || [], count: products?.length || 0 } }] *)
Definition search_result (found : JVal) : ToolResult :=
  succeeded (JObj [("products", jor found (JArr []));
                   ("count", jor (jget found "length") (JNum 0))]).

Definition searchProduct `{Env} (args : JVal) (context : ToolContext) : M ToolResult :=
  args <- lift (destructure args) ;;
  let query := arg_default args "query" (JStr "") in
  let limit := arg_default args "limit" (JNum 10) in
  searchQuery <- lift (searchQuery_of query) ;;
  let toolConfig := Config.searchProduct (tools (agentConfig context)) in
  if negb (flag toolConfig)
  then ret (failure "search_product tool is not enabled")
  else
    catch
      (match toolConfig with
       | Some {| type := Some type_api |} =>
           match kproducts (knowledge (agentConfig context)) with
           | Some apiConfig =>
               if present (apiUrl apiConfig)
               then found <- ExternalApiService.fetchProducts
                               (c_tenantId context) (interpolate (apiUrl apiConfig))
                               (ks_apiKeyEncrypted apiConfig)
                               (Some {| ExternalApiService.p_query := Some searchQuery;
                                        ExternalApiService.p_limit := limit;
                                        ExternalApiService.p_category := None |}) ;;
                    ret (search_result found)
               else ret (failure "API URL not configured for products")
           | None => ret (failure "API URL not configured for products")
           end
       | Some {| type := Some type_rag |} =>
           let ragResult :=
             RAGService.query (c_tenantId context) searchQuery
               match kproducts (knowledge (agentConfig context)) with
               | Some k => vectorIndex k
               | None => None
               end in
           ret (search_result (jget ragResult "data"))
       | _ =>
           found <- mongo_search context searchQuery limit ;;
           ret (search_result found)
       end)
      (fun msg => ret (failure msg)).

(** [cart.products.findIndex(p => p.productId === id || p.id === id)] as a
    test on one line. *)
Definition line_matches (productIdStr : string) (p : OrderProduct) : bool :=
  (productId p =? productIdStr) || (id p =? productIdStr).

(** [qty += quantity; valid_price = productPrice] on a line. *)
Definition bump_line (quantity productPrice : Q) (p : OrderProduct) : OrderProduct :=
  {| productId := productId p; id := id p; op_title := op_title p; image := image p;
     qty := (qty p + quantity)%Q;
     price_regular := price_regular p; price_sale := price_sale p;
     valid_price := productPrice;
     op_slug := op_slug p; isValid := isValid p |}.

(** The line pushed for a product that is not in the cart yet. *)
Definition new_line (product : Product) (productIdStr : string)
  (quantity productPrice : Q) : OrderProduct :=
  {| productId := productIdStr;
     id := productIdStr;
     op_title := if title product =? "" then "Producto sin nombre" else title product;
     image := match ProductsRepo.getProductImage product with
              | Some i => i
              | None => ""
              end;
     qty := quantity;
     price_regular := if Qeq_bool (regular (price product)) 0%Q then productPrice
                      else regular (price product);
     price_sale := if Qeq_bool (sale (price product)) 0%Q then 0%Q
                   else sale (price product);
     valid_price := productPrice;
     op_slug := slug product;
     isValid := true |}.

(** The first matching line is bumped; [None] when no line matches. *)
Fixpoint merge_line (productIdStr : string) (quantity productPrice : Q)
  (lines : list OrderProduct) : option (list OrderProduct) :=
  match lines with
  | [] => None
  | p :: rest =>
      if line_matches productIdStr p
      then Some (bump_line quantity productPrice p :: rest)
      else option_map (cons p) (merge_line productIdStr quantity productPrice rest)
  end.

(** The cart lines after the merge-or-push of [addToCart]. *)
Definition add_line (product : Product) (productIdStr : string)
  (quantity productPrice : Q) (lines : list OrderProduct) : list OrderProduct :=
  match merge_line productIdStr quantity productPrice lines with
  | Some merged => merged
  | None => (lines ++ [new_line product productIdStr quantity productPrice])%list
  end.

Definition defaultClientInfo (userId : string) : ClientInfo :=
  {| doc := ""; ci_name := "";
     email := if includes "@" userId then userId else userId ++ "@temp.com";
     phone := if includes "@" userId then "" else userId |}.

(** The cart created when the user has no pending order. *)
Definition empty_cart (context : ToolContext) (orderNo : string) : OrdersRepo.NewOrder :=
  {| OrdersRepo.n_domain := c_tenantId context;
     OrdersRepo.n_products := [];
     OrdersRepo.n_clientInfo := defaultClientInfo (c_userId context);
     OrdersRepo.n_billingInfo := defaultClientInfo (c_userId context);
     OrdersRepo.n_shippingInfo := defaultClientInfo (c_userId context);
     OrdersRepo.n_paymentStatus := {| typeStatus := "pending"; st_message := "" |};
     OrdersRepo.n_total := 0%Q;
     OrdersRepo.n_currency := "PEN";
     OrdersRepo.n_orderStatus := {| typeStatus := "pending"; st_message := "" |};
     OrdersRepo.n_orderNumber := orderNo |}.

(** [getActiveCart] or, when there is none, [generateOrderNumber] and
    [create]. *)
Definition active_or_new_cart `{Env} (context : ToolContext) : M Order :=
  found <- gets (OrdersRepo.getActiveCart (c_tenantId context) (c_userId context)) ;;
  match found with
  | Some cart => ret cart
  | None =>
      orderNo <- update OrdersRepo.generateOrderNumber ;;
      update (OrdersRepo.create (empty_cart context orderNo))
  end.

Definition addToCart `{Env} (args : JVal) (context : ToolContext) : M ToolResult :=
  args <- lift (destructure args) ;;
  let productId := jget args "productId" in
  let quantity := as_number (arg_default args "quantity" (JNum 1)) in
  if negb (truthy productId)
  then ret (failure "productId parameter is required")
  else
    catch
      (found <- gets (ProductsRepo.getById (c_tenantId context) (as_identifier productId)) ;;
       match found with
       | None => ret (failure ("Product not found: " ++ as_identifier productId))
       | Some product =>
           let productPrice := ProductsRepo.getProductPrice product in
           let productIdStr := if p_id product =? "" then as_identifier productId
                               else p_id product in
           cart <- active_or_new_cart context ;;
           let lines := add_line product productIdStr quantity productPrice (products cart) in
           let total := OrdersRepo.total_of lines in
           updatedCart <- update (OrdersRepo.updateProducts
                                    (c_tenantId context) (orderNumber cart) lines) ;;
           match updatedCart with
           | None => ret (failure "Failed to update cart")
           | Some _ =>
               ret (succeeded
                      (JObj [("message",
                              JStr ("Producto " ++ title product ++ " agregado al carrito"));
                             ("cart",
                              JObj [("orderNumber", JStr (orderNumber cart));
                                    ("products", JArr (map order_product_json lines));
                                    ("total", JNum total);
                                    ("currency", JStr (currency cart))])]))
           end
       end)
      (fun msg => ret (failure msg)).

Definition question_missing : string :=
  "Para buscar tu orden, necesito alguna de estas informaciones: número de orden, tu email o tu teléfono. ¿Cuál puedes proporcionarme?".

Definition question_not_found : string :=
  "No encontré ninguna orden con esa información. ¿Podrías verificar el número de orden, email o teléfono?".

Definition order_data (o : Order) : JVal :=
  JObj [("orderNumber", JStr (orderNumber o));
        ("products", JArr (map order_product_json (products o)));
        ("total", JNum (o_total o));
        ("currency", JStr (currency o));
        ("paymentStatus", status_json (paymentStatus o));
        ("orderStatus", status_json (orderStatus o));
        ("clientInfo", client_json (clientInfo o));
        ("createdAt", JNum (nat_to_Q (createdAt o)))].

(** The lookup of [getOrder]: [inl] is the early return of the last branch,
    [inr] the order found, if any. *)
Definition lookup_order `{Env} (args : JVal) (context : ToolContext)
  : M (ToolResult + option Order) :=
  let orderId := jget args "orderId" in
  let orderNumber := jget args "orderNumber" in
  let email := jget args "email" in
  let phone := jget args "phone" in
  if truthy orderNumber
  then o <- gets (OrdersRepo.getById (c_tenantId context) (as_identifier orderNumber)) ;;
       ret (inr o)
  else if truthy orderId
  then o <- gets (OrdersRepo.getById (c_tenantId context) (as_identifier orderId)) ;;
       ret (inr o)
  else if truthy email || truthy phone
  then let userIdentifier := jor email phone in
       os <- gets (OrdersRepo.getByUser (c_tenantId context)
                     (as_identifier userIdentifier) 1%Z) ;;
       ret (inr (hd_error os))
  else ret (inl (ask question_missing
                   "Missing required information: orderNumber, orderId, email, or phone")).

Definition getOrder `{Env} (args : JVal) (context : ToolContext) : M ToolResult :=
  args <- lift (destructure args) ;;
  catch
    (r <- lookup_order args context ;;
     match r with
     | inl early => ret early
     | inr None => ret (ask question_not_found "Order not found")
     | inr (Some order) => ret (succeeded (order_data order))
     end)
    (fun msg => ret (failure msg)).

Definition showProduct `{Env} (args : JVal) (context : ToolContext) : M ToolResult :=
  args <- lift (destructure args) ;;
  let productId := jget args "productId" in
  if negb (truthy productId)
  then ret (failure "productId parameter is required")
  else
    catch
      (found <- gets (ProductsRepo.getById (c_tenantId context) (as_identifier productId)) ;;
       match found with
       | None => ret (failure ("Product not found: " ++ as_identifier productId))
       | Some product =>
           ret (succeeded
                  (JObj [("id", JStr (p_id product));
                         ("title", JStr (title product));
                         ("slug", JStr (slug product));
                         ("description",
                          jor (of_opt_str (description_short product))
                              (of_opt_str (description_long product)));
                         ("price", JNum (ProductsRepo.getProductPrice product));
                         ("regularPrice", JNum (regular (price product)));
                         ("salePrice", JNum (sale (price product)));
                         ("image", match ProductsRepo.getProductImage product with
                                   | Some i => JStr i
                                   | None => JNull
                                   end);
                         ("category", match category product with
                                      | Some (c :: _) => JStr (cat_slug c)
                                      | _ => JUndefined
                                      end);
                         ("isAvailable", JBool (is_available product));
                         ("stock", opt_num (stock product))]))
       end)
      (fun msg => ret (failure msg)).

Definition ragQuery `{Env} (args : JVal) (context : ToolContext) : M ToolResult :=
  args <- lift (destructure args) ;;
  let query := jget args "query" in
  let source := arg_default args "source" (JStr "companyInfo") in
  if negb (truthy query)
  then ret (failure "query parameter is required")
  else
    catch
      (match topic (knowledge (agentConfig context)) (as_identifier source) with
       | Some knowledgeConfig =>
           match Config.source knowledgeConfig with
           | src_rag =>
               ret (succeeded (RAGService.query (c_tenantId context)
                                 (as_identifier query) (vectorIndex knowledgeConfig)))
           | _ => ret (failure ("RAG not configured for source: " ++ as_identifier source))
           end
       | None => ret (failure ("RAG not configured for source: " ++ as_identifier source))
       end)
      (fun msg => ret (failure msg)).

Definition externalApi (args : JVal) (context : ToolContext) : M ToolResult :=
  ret (failure "External API tool execution not fully implemented").

(** [this.tools.get(toolName)] after [registerCoreTools]. *)
Definition core_executor `{Env} (toolName : string)
  : option (JVal -> ToolContext -> M ToolResult) :=
  if toolName =? "search_product" then Some searchProduct
  else if toolName =? "add_to_cart" then Some addToCart
  else if toolName =? "get_order" then Some getOrder
  else if toolName =? "show_product" then Some showProduct
  else if toolName =? "rag_query" then Some ragQuery
  else if toolName =? "external_api" then Some externalApi
  else None.

Definition executeTool `{Env} (toolName : string) (args : JVal) (context : ToolContext)
  : M ToolResult :=
  match findCustomTool toolName (agentConfig context) with
  | Some customTool => executeCustomTool customTool args context
  | None =>
      match core_executor toolName with
      | None => ret (failure ("Tool not found: " ++ toolName))
      | Some executor =>
          catch (executor args context) (fun errorMessage => ret (failure errorMessage))
      end
  end.

End ToolRegistry.

(* ================================================================== *)
(** * services/promptBuilder                                           *)
(* ================================================================== *)

Module PromptBuilder.
Import Store.

(** The part of the extracted context that the orchestrator reads; the
    other parts (mentioned ids, last action, summary) only feed the prompt
    text. An absent [lastSearchResults] is [undefined]. *)
Record ExtractedContext : Type := {
  lastSearchResults : JVal
}.

(** [for (const product of products)] *)
Definition iterate (products : JVal) : Exc (list JVal) :=
  match products with
  | JArr items => Ok items
  | JStr s => Ok (map (fun c => JStr (String c "")) (list_ascii_of_string s))
  | _ => Throw "TypeError: products is not iterable"
  end.

(** One message of the history, as [extractContext] treats the search
    results: a message whose action is a [search_product] with truthy
    [payload.products] sets [lastSearchResults]; the loop over its products
    throws when they are not iterable or when one of them is [null]. *)
Definition extract_step (msg : ConversationMessage) (last : JVal) : Exc JVal :=
  match m_action msg with
  | Some a =>
      let products := jget (sa_payload a) "products" in
      if is_str (sa_type a) "search_product" && truthy products
      then exc_bind (iterate products) (fun items =>
             if existsb is_nullish items
             then Throw "TypeError: Cannot read properties"
             else Ok products)
      else Ok last
  | None => Ok last
  end.

Fixpoint extract_loop (msgs : list ConversationMessage) (last : JVal) : Exc JVal :=
  match msgs with
  | [] => Ok last
  | msg :: rest => exc_bind (extract_step msg last) (extract_loop rest)
  end.

(** [extractContext(lastMessages)]. The summary maps over the last search
    results, which throws when they are a non-empty string. *)
Definition extractContext (lastMessages : list ConversationMessage)
  : Exc ExtractedContext :=
  exc_bind (extract_loop lastMessages JUndefined) (fun last =>
    match last with
    | JStr _ => if truthy last then Throw "TypeError: slice(...).map is not a function"
                else Ok {| lastSearchResults := last |}
    | _ => Ok {| lastSearchResults := last |}
    end).

End PromptBuilder.

(* ================================================================== *)
(** * services/agentOrchestrator                                       *)
(* ================================================================== *)

Module AgentOrchestrator.
Import Store Config LLM ToolRegistry PromptBuilder.
Local Open Scope m_scope.

Record Meta : Type := {
  m_model : string;
  tokens : Z;
  tokensInput : Z;
  tokensOutput : Z;
  latency : Z;
  toolsUsed : option (list string);
  estimatedCost : Double.double
}.

(** [AgentResponse]. The declared types of [message], [audio_description]
    and [action] are what the code writes itself; what it copies from the
    model's JSON reply is whatever that reply holds, hence [JVal]. *)
Record AgentResponse : Type := {
  message : JVal;
  audio_description : JVal;
  conversationId : option string;
  action : JVal;
  meta : option Meta
}.

Record OrchestratorContext : Type := {
  tenantId : string;
  userId : string;
  x_conversationId : string;
  agentId : option string
}.

(** [{ type, payload }] *)
Definition mk_action (type payload : JVal) : JVal :=
  JObj [("type", type); ("payload", payload)].

(** [{ type: null, payload: {} }] *)
Definition null_action : JVal := mk_action JNull (JObj []).

(** [{ message, audio_description, action }] *)
Definition respond (message audio_description action : JVal) : AgentResponse :=
  {| message := message; audio_description := audio_description;
     conversationId := None; action := action; meta := None |}.

(** The text assembly of [PromptBuilder]. The prompt only reaches the
    provider, whose answer is arbitrary here, so the text itself is left
    open; [buildConversationMessages] may throw (it maps over stored search
    results). *)
Class Prompts : Type := {
  buildSystemPrompt : AgentConfig -> list ToolDefinition -> string;
  buildConversationMessages :
    string -> list ConversationMessage -> string -> ExtractedContext
    -> Exc (list LLMMessage)
}.

(** ** generateAudioDescription

    [action] is [undefined] when the argument is omitted. *)
Definition generateAudioDescription `{Env} (message action : JVal) : Exc JVal :=
  if is_nullish message then Throw "TypeError: Cannot read properties"
  else
    exc_bind
      (if js_gt (jget message "length") 200%Q
       then match message with
            | JStr s => Ok (JStr (take 197 s ++ "..."))
            | _ => Throw "TypeError: description.substring is not a function"
            end
       else Ok message)
      (fun description =>
         if truthy (jget action "type")
         then Ok (JStr (to_string description ++ " Acción: "
                        ++ to_string (jget action "type") ++ "."))
         else Ok description).

(** ** parseLLMResponse *)

(** The answer of both fall-back branches. *)
Definition plain_response `{Env} (content : string) : Exc AgentResponse :=
  exc_bind (generateAudioDescription (JStr content) JUndefined) (fun audio =>
    Ok (respond (JStr content) audio null_action)).

(** The [try] block. *)
Definition parse_body `{Env} (content : string) : Exc AgentResponse :=
  match matchBraces content with
  | Some text =>
      exc_bind (JSON_parse text) (fun parsed =>
        if is_nullish parsed then Throw "TypeError: Cannot read properties"
        else
          exc_bind
            (if truthy (jget parsed "audio_description")
             then Ok (jget parsed "audio_description")
             else generateAudioDescription (jor (jget parsed "message") (JStr content))
                    JUndefined)
            (fun audio =>
               Ok (respond (jor (jget parsed "message") (JStr content)) audio
                     (jor (jget parsed "action") null_action))))
  | None => plain_response content
  end.

Definition parseLLMResponse `{Env} (content : string) : Exc AgentResponse :=
  match parse_body content with
  | Ok r => Ok r
  | Throw _ => plain_response content
  end.

(** ** estimatePromptTokens and calculateEstimatedCost *)

Definition tool_json (t : ToolDefinition) : JVal :=
  JObj [("name", JStr (td_name t)); ("description", JStr (td_description t));
        ("parameters", td_parameters t)].

Definition Qceiling_div4 (n : nat) : Z := Qceiling (nat_to_Q n / 4)%Q.

(** [Math.round(x)] *)
Definition Math_round (x : Q) : Z := Qfloor (x + (1 # 2))%Q.

Definition estimatePromptTokens `{Env} (messages : list LLMMessage)
  (tools : list ToolDefinition) : Z :=
  let totalChars := fold_left (fun n msg => n + String.length (content msg)) messages 0 in
  let messageOverhead := Z.of_nat (List.length messages * 4) in
  let toolsTokens :=
    fold_left (fun t tool =>
                 (t + nat_to_Q (String.length (JSON_stringify (tool_json tool))) / 4 + 50)%Q)
              tools 0%Q in
  let estimatedTokens :=
    (inject_Z (Qceiling_div4 totalChars) + inject_Z messageOverhead + toolsTokens)%Q in
  Math_round estimatedTokens.

(** [{ input, output }]; [None] is [undefined], a property that the value
    does not have. *)
Record ModelPrice : Type := {
  input : option Double.double;
  output : option Double.double
}.

(** [{ input, output }] for the decimal literals [i / i_den] and
    [o / o_den]. *)
Definition price_of (i : Z) (i_den : positive) (o : Z) (o_den : positive)
  : ModelPrice :=
  {| input := Some (Double.ratio i i_den); output := Some (Double.ratio o o_den) |}.

(** The own properties of the object literal [pricing], in USD per million
    tokens. *)
Definition pricing : list (string * ModelPrice) :=
  [ ("gpt-4o", price_of 250 100 1000 100);
    ("gpt-4o-mini", price_of 15 100 60 100);
    ("gpt-4-turbo", price_of 1000 100 3000 100);
    ("gpt-4", price_of 3000 100 6000 100);
    ("gpt-3.5-turbo", price_of 50 100 150 100);
    ("gemini-2.5-flash", price_of 75 1000 30 100);
    ("gemini-2.0-flash-exp", price_of 75 1000 30 100);
    ("gemini-1.5-pro", price_of 125 100 500 100);
    ("gemini-1.5-flash", price_of 75 1000 30 100);
    ("llama-3.1-70b-versatile", price_of 59 100 79 100);
    ("llama-3.1-8b-instant", price_of 5 100 8 100);
    ("mixtral-8x7b-32768", price_of 24 100 24 100) ]%Z.

(** The properties that an object literal inherits from [Object.prototype].
    Each is a function, or the prototype itself for [__proto__]: a truthy
    value that has neither [input] nor [output]. *)
Definition Object_prototype : list string :=
  [ "constructor"; "__defineGetter__"; "__defineSetter__"; "hasOwnProperty";
    "__lookupGetter__"; "__lookupSetter__"; "isPrototypeOf"; "propertyIsEnumerable";
    "toString"; "valueOf"; "__proto__"; "toLocaleString" ].

Definition inherited : ModelPrice := {| input := None; output := None |}.

(** [pricing[key]]: an own property, else an inherited one, else
    [undefined]. *)
Definition pricing_at (key : string) : option ModelPrice :=
  match assoc key pricing with
  | Some price => Some price
  | None => if existsb (String.eqb key) Object_prototype then Some inherited else None
  end.

(** The defaults by provider. *)
Definition default_price (provider : string) : ModelPrice :=
  if provider =? "openai" then price_of 50 100 150 100
  else if provider =? "gemini" then price_of 75 1000 30 100
  else if provider =? "groq" then price_of 59 100 79 100
  else price_of 50 100 150 100.

(** [let price = pricing[model.toLowerCase()]; if (!price) { ... }] *)
Definition price_for (provider model : string) : ModelPrice :=
  match pricing_at (toLowerCase model) with
  | Some price => price
  | None => default_price provider
  end.

(** A property used as an operand: [undefined] is NaN. *)
Definition operand (v : option Double.double) : Double.double :=
  match v with
  | Some x => x
  | None => Double.NaN
  end.

Record CostEstimate : Type := {
  inputCostPerMillion : option Double.double;
  outputCostPerMillion : option Double.double;
  totalCost : Double.double;
  cost_currency : string
}.

Definition calculateEstimatedCost (provider model : string)
  (inputTokens outputTokens : Z) : CostEstimate :=
  let price := price_for provider model in
  let inputCost :=
    Double.mul (Double.div (Double.of_Z inputTokens) (Double.of_Z 1000000))
      (operand (input price)) in
  let outputCost :=
    Double.mul (Double.div (Double.of_Z outputTokens) (Double.of_Z 1000000))
      (operand (output price)) in
  let totalCost := Double.add inputCost outputCost in
  {| inputCostPerMillion := input price;
     outputCostPerMillion := output price;
     totalCost := Double.toFixed6 totalCost;
     cost_currency := "USD" |}.

(** ** The provider call *)

Definition generate `{Env} (config : LLMConfig) (messages : list LLMMessage)
  (tools : option (list ToolDefinition)) : M LLMResponse :=
  fun w =>
    let request := {| q_config := config; q_messages := messages;
                      q_tools := option_map (map tool_json) tools |} in
    (provider_generate (List.length (llm_log w)) request, log_llm request w).

Definition say (r : Role) (text : string) : LLMMessage :=
  {| role := r; content := text |}.

Definition narrate_instructions : string :=
  "{" ++ (nl ++ "  ") ++ dquote ++ "message" ++ dquote ++ ": " ++ dquote
  ++ "tu respuesta al usuario" ++ dquote ++ ("," ++ nl ++ "  ") ++ dquote ++ "audio_description"
  ++ dquote ++ ": " ++ dquote ++ "descripción para audio" ++ dquote ++ ("," ++ nl ++ "  ")
  ++ dquote ++ "action" ++ dquote ++ ": { " ++ dquote ++ "type" ++ dquote
  ++ ": null, " ++ dquote ++ "payload" ++ dquote ++ (": {} }" ++ nl ++ "}").

(** ** generateResponseFromCustomTool *)

Definition generateResponseFromCustomTool `{Env} `{Prompts}
  (agentConfig : AgentConfig) (originalMessage : JVal) (toolData : JVal)
  (toolName : JVal) : M AgentResponse :=
  let toolResultsMessage :=
    "He ejecutado la herramienta " ++ dquote ++ to_string toolName ++ dquote
    ++ (" y obtuve estos resultados:" ++ nl ++ nl) ++ JSON_stringify_pretty toolData
    ++ (nl ++ nl ++ "Basándote en estos resultados, genera una respuesta natural y útil para el usuario. Responde SIEMPRE en formato JSON con esta estructura:" ++ nl)
    ++ narrate_instructions
    ++ (nl ++ nl ++ "Si los resultados contienen información relevante, inclúyela en tu respuesta de manera clara y natural.") in
  let messages :=
    [ say role_system (buildSystemPrompt agentConfig []);
      say role_user (to_string originalMessage);
      say role_assistant "Voy a consultar la información que necesitas.";
      say role_user toolResultsMessage ] in
  llmResponse <- generate (llm agentConfig) messages None ;;
  parsedResponse <- lift (parseLLMResponse (r_content llmResponse)) ;;
  audio <- lift (if truthy (audio_description parsedResponse)
                 then Ok (audio_description parsedResponse)
                 else generateAudioDescription (message parsedResponse) JUndefined) ;;
  ret (respond (message parsedResponse) audio
         (jor (action parsedResponse) null_action)).

(** ** Texts built from tool data *)

Fixpoint map_exc {A B : Type} (f : A -> Exc B) (l : list A) : Exc (list B) :=
  match l with
  | [] => Ok []
  | x :: rest =>
      exc_bind (f x) (fun y => exc_bind (map_exc f rest) (fun ys => Ok (y :: ys)))
  end.

(** [`${idx + 1}`] *)
Definition ordinal `{Env} (idx : nat) : string :=
  to_string (JNum (nat_to_Q (S idx))).

(** One line of the list of found products. *)
Definition found_product_line `{Env} (entry : nat * JVal) : Exc string :=
  let (idx, p) := entry in
  if is_nullish p then Throw "TypeError: Cannot read properties"
  else
    let price := jor (jget (jget p "price") "regular")
                   (jor (jget (jget p "price") "sale")
                      (jor (jget p "price") (JStr "N/A"))) in
    let priceStr := match price with
                    | JNum q => "S/ " ++ toFixed 2 q
                    | _ => to_string price
                    end in
    Ok (ordinal idx ++ ". "
        ++ to_string (jor (jget p "title") (jor (jget p "name") (JStr "Producto sin nombre")))
        ++ " - " ++ priceStr).

(** [products.slice(0, 5).map(...).join('\n')] *)
Definition found_product_list `{Env} (products : JVal) : Exc string :=
  match products with
  | JArr items =>
      exc_bind (map_exc found_product_line (indexed 0 (firstn 5 items)))
        (fun lines => Ok (join (nl) lines))
  | _ => Throw "TypeError: products.slice(...).map is not a function"
  end.

(** [count - 5] *)
Definition minus5 `{Env} (count : JVal) : JVal :=
  match to_number count with
  | Some q => JNum (q - 5)%Q
  | None => JUndefined
  end.

Definition found_message `{Env} (count products : JVal) : Exc string :=
  exc_bind (found_product_list products) (fun productList =>
    Ok ("Encontré " ++ to_string count ++ " producto"
        ++ (if js_gt count 1%Q then "s" else "") ++ (":" ++ nl ++ nl) ++ productList
        ++ (if js_gt count 5%Q
            then (nl ++ nl ++ "... y ") ++ to_string (minus5 count) ++ " más."
            else ""))).

Definition not_found_message `{Env} (query : JVal) : string :=
  "No encontré productos que coincidan con " ++ dquote
  ++ to_string (jor query (JStr "tu búsqueda")) ++ dquote
  ++ ". ¿Podrías ser más específico?".

Definition order_line `{Env} (entry : nat * JVal) : Exc string :=
  let (idx, p) := entry in
  if is_nullish p then Throw "TypeError: Cannot read properties"
  else Ok (ordinal idx ++ ". " ++ to_string (jget p "title") ++ " (x"
           ++ to_string (jget p "qty") ++ ") - S/ " ++ to_string (jget p "valid_price")).

(** [orderData.products?.map(...).join('\n') || 'Sin productos'] *)
Definition order_product_list `{Env} (products : JVal) : Exc string :=
  match products with
  | JUndefined | JNull => Ok "Sin productos"
  | JArr items =>
      exc_bind (map_exc order_line (indexed 0 items)) (fun lines =>
        Ok (if join (nl) lines =? "" then "Sin productos" else join (nl) lines))
  | _ => Throw "TypeError: orderData.products.map is not a function"
  end.

Definition order_message `{Env} (orderData : JVal) : Exc string :=
  exc_bind (order_product_list (jget orderData "products")) (fun productList =>
    Ok ("Orden #" ++ to_string (jget orderData "orderNumber") ++ (nl ++ nl)
        ++ ("Productos:" ++ nl) ++ productList ++ (nl ++ nl)
        ++ "Total: " ++ to_string (jget orderData "currency") ++ " "
        ++ to_string (jget orderData "total") ++ (nl)
        ++ "Estado: "
        ++ to_string (jor (jget (jget orderData "orderStatus") "typeStatus") (JStr "N/A"))
        ++ (nl) ++ "Pago: "
        ++ to_string (jor (jget (jget orderData "paymentStatus") "typeStatus") (JStr "N/A")))).

(** ** executeActionFromResponse *)

Definition is_word (c : ascii) : bool :=
  let n := nat_of_ascii c in
  (Nat.leb 48 n && Nat.leb n 57) || (Nat.leb 65 n && Nat.leb n 90)
  || (Nat.leb 97 n && Nat.leb n 122) || Nat.eqb n 95.

Fixpoint take_word (s : string) : string * string :=
  match s with
  | String c rest =>
      if is_word c then let (w, after) := take_word rest in (String c w, after)
      else ("", s)
  | "" => ("", "")
  end.

(** [path.match(/\{(\w+)\}/)], the captured name. *)
Fixpoint firstPathParam (s : string) : option string :=
  match s with
  | "" => None
  | String c rest =>
      if (c =? "{")%char
      then let (w, after) := take_word rest in
           if negb (w =? "") && prefix "}" after then Some w
           else firstPathParam rest
      else firstPathParam rest
  end.

(** [lastSearchResults[0]] *)
Definition first_of (v : JVal) : JVal :=
  match v with
  | JArr (x :: _) => x
  | JStr (String c _) => JStr (String c "")
  | JObj fields => jget v "0"
  | _ => JUndefined
  end.

(** The default of a missing [productId]: the first product of the last
    search, when there is one. *)
Definition fill_productId `{Env} (actionPayload : JVal) (extractedContext : ExtractedContext)
  : Exc JVal :=
  if negb (truthy (jget actionPayload "productId"))
     && js_gt (jget (lastSearchResults extractedContext) "length") 0%Q
  then
    let firstProduct := first_of (lastSearchResults extractedContext) in
    if is_nullish firstProduct then Throw "TypeError: Cannot read properties"
    else
      jset actionPayload "productId"
        (jor (if is_nullish (jget firstProduct "_id") then JUndefined
              else JStr (to_string (jget firstProduct "_id")))
           (jor (jget firstProduct "id") (jget firstProduct "slug")))
  else Ok actionPayload.

(** [{ ...actionPayload }] and the renaming of [query] to the first path
    parameter of the custom tool. *)
Definition mapped_payload `{Env} (customTool : CustomTool) (actionPayload : JVal)
  : Exc JVal :=
  exc_bind (entries actionPayload) (fun fields =>
    if truthy (jget actionPayload "query") && present (path customTool)
    then match firstPathParam (interpolate (path customTool)) with
         | Some paramName =>
             if negb (paramName =? "query")
             then Ok (JObj (assoc_set paramName (jget actionPayload "query") fields))
             else Ok (JObj fields)
         | None => Ok (JObj fields)
         end
    else Ok (JObj fields)).

(** The [switch]: the tool result, or [None] when the action is not
    recognised and the parsed response is returned unchanged. *)
Definition dispatch_action `{Env} (actionType actionPayload : JVal)
  (toolContext : ToolContext) (extractedContext : ExtractedContext)
  : M (option ToolResult) :=
  if is_str actionType "search_product"
  then r <- executeTool "search_product" actionPayload toolContext ;; ret (Some r)
  else if is_str actionType "add_to_cart"
  then p <- lift (fill_productId actionPayload extractedContext) ;;
       r <- executeTool "add_to_cart" p toolContext ;; ret (Some r)
  else if is_str actionType "show_product"
  then p <- lift (fill_productId actionPayload extractedContext) ;;
       r <- executeTool "show_product" p toolContext ;; ret (Some r)
  else if is_str actionType "get_order"
  then r <- executeTool "get_order" actionPayload toolContext ;; ret (Some r)
  else
    match actionType with
    | JStr toolName =>
        match (if truthy actionType
               then findCustomToolByName toolName (agentConfig toolContext)
               else None) with
        | Some customTool =>
            mappedPayload <- lift (mapped_payload customTool actionPayload) ;;
            r <- executeTool toolName mappedPayload toolContext ;; ret (Some r)
        | None => ret None
        end
    | _ => ret None
    end.

(** The answer when the tool asks for more information. *)
Definition clarifying_response `{Env} (toolResult : ToolResult)
  (parsedResponse : AgentResponse) : Exc AgentResponse :=
  exc_bind
    (generateAudioDescription
       (jor (of_opt_str (question toolResult)) (JStr "Necesito más información"))
       JUndefined)
    (fun audio =>
       Ok (respond
             (jor (of_opt_str (question toolResult))
                (jor (message parsedResponse)
                   (JStr "Necesito más información para ayudarte.")))
             audio null_action)).

(** The answer when the tool failed. *)
Definition failed_response `{Env} (toolResult : ToolResult) (actionType : JVal)
  : Exc AgentResponse :=
  exc_bind
    (generateAudioDescription (JStr ("Error al ejecutar " ++ to_string actionType))
       JUndefined)
    (fun audio =>
       Ok (respond
             (jor (of_opt_str (error toolResult))
                (JStr ("No pude ejecutar la acción " ++ to_string actionType
                       ++ ". Por favor, intenta de nuevo.")))
             audio null_action)).

(** [{ message, audio_description: generateAudioDescription(message, action), action }] *)
Definition shaped `{Env} (message action : JVal) : Exc AgentResponse :=
  exc_bind (generateAudioDescription message action) (fun audio =>
    Ok (respond message audio action)).

(** The answer when the tool succeeded. *)
Definition success_response `{Env} `{Prompts} (toolResult : ToolResult)
  (parsedResponse : AgentResponse) (actionType actionPayload : JVal)
  (agentConfig : AgentConfig) (userMessage : string) : M AgentResponse :=
  let d := data toolResult in
  if is_str actionType "search_product" && truthy d
  then
    let products := jor (jget d "products") (JArr []) in
    let count := jor (jget d "count") (jget products "length") in
    if js_gt count 0%Q
    then message <- lift (found_message count products) ;;
         lift (shaped (JStr message)
                 (mk_action (JStr "search_product")
                    (JObj [("query", jor (jget actionPayload "query") (JStr ""));
                           ("products", products);
                           ("count", count)])))
    else lift (shaped (JStr (not_found_message (jget actionPayload "query")))
                 (mk_action (JStr "search_product")
                    (JObj [("query", jor (jget actionPayload "query") (JStr ""));
                           ("products", JArr []);
                           ("count", JNum 0%Q)])))
  else if is_str actionType "show_product" && truthy d
  then lift (shaped (message parsedResponse) (mk_action (JStr "show_product") d))
  else if is_str actionType "add_to_cart" && truthy d
  then lift (shaped (jor (jget d "message") (message parsedResponse))
               (mk_action (JStr "add_to_cart") d))
  else if is_str actionType "get_order" && truthy d
  then message <- lift (order_message d) ;;
       lift (shaped (JStr message) (mk_action (JStr "get_order") d))
  else if truthy actionType
  then
    customToolResponse <-
      generateResponseFromCustomTool agentConfig
        (jor (message parsedResponse) (JStr userMessage)) d actionType ;;
    ret (respond (message customToolResponse) (audio_description customToolResponse)
           (mk_action actionType (jor d (JObj []))))
  else lift (shaped (message parsedResponse) (action parsedResponse)).

(** The answer of the [catch] block. *)
Definition caught_response `{Env} (parsedResponse : AgentResponse) : M AgentResponse :=
  audio <- lift (generateAudioDescription (JStr "Error al procesar") JUndefined) ;;
  ret (respond (jor (message parsedResponse)
                  (JStr "Ocurrió un error al procesar tu solicitud."))
         audio null_action).

Definition executeActionFromResponse `{Env} `{Prompts}
  (parsedResponse : AgentResponse) (context : OrchestratorContext)
  (agentConfig : AgentConfig) (extractedContext : ExtractedContext)
  (userMessage : string) : M AgentResponse :=
  let actionType := jget (action parsedResponse) "type" in
  let actionPayload := jor (jget (action parsedResponse) "payload") (JObj []) in
  let toolContext :=
    {| c_tenantId := tenantId context; c_userId := userId context;
       c_conversationId := x_conversationId context; agentConfig := agentConfig |} in
  catch
    (dispatched <- dispatch_action actionType actionPayload toolContext extractedContext ;;
     match dispatched with
     | None => ret parsedResponse
     | Some toolResult =>
         if needsUserInput toolResult
         then lift (clarifying_response toolResult parsedResponse)
         else if success toolResult
         then success_response toolResult parsedResponse actionType actionPayload
                agentConfig userMessage
         else lift (failed_response toolResult actionType)
     end)
    (fun _ => caught_response parsedResponse).

(** ** generateResponseFromToolResults *)

Record ToolRun : Type := {
  tool : string;
  result : ToolResult
}.

(** The block appended to the narration request for one tool. *)
Definition tool_block `{Env} (toolResult : ToolRun) : string :=
  "**Herramienta: " ++ tool toolResult ++ ("**" ++ nl)
  ++ (if success (result toolResult)
      then ("Resultado exitoso:" ++ nl) ++ JSON_stringify_pretty (data (result toolResult)) ++ (nl ++ nl)
      else "Error: " ++ interpolate (error (result toolResult)) ++ (nl ++ nl)).

(** One step of the loop that derives the action from the executed tools:
    a successful tool overrides the action found so far. *)
Definition action_step (action : JVal) (toolResult : ToolRun) : JVal :=
  let d := data (result toolResult) in
  if success (result toolResult)
  then
    if tool toolResult =? "search_product"
    then mk_action (JStr "search_product")
           (JObj [("query", jor (jget d "query") (JStr ""));
                  ("products", jor (jget d "products") (JArr []));
                  ("count", jor (jget d "count") (JNum 0))])
    else if tool toolResult =? "add_to_cart" then mk_action (JStr "add_to_cart") d
    else if tool toolResult =? "show_product" then mk_action (JStr "show_product") d
    else if tool toolResult =? "get_order" then mk_action (JStr "get_order") d
    else mk_action (JStr (tool toolResult)) (jor d (JObj []))
  else action.

Definition generateResponseFromToolResults `{Env} (agentConfig : AgentConfig)
  (originalMessages : list LLMMessage) (toolResults : list ToolRun) : M AgentResponse :=
  let toolResultsMessage :=
    fold_left (fun text r => text ++ tool_block r) toolResults
      ("He ejecutado las siguientes herramientas y obtuve estos resultados:" ++ nl ++ nl)
    ++ (nl ++ "Basándote en estos resultados, genera una respuesta natural y útil para el usuario. Responde SIEMPRE en formato JSON con esta estructura:" ++ nl)
    ++ narrate_instructions ++ (nl ++ nl)
    ++ "Si los resultados contienen información relevante, inclúyela en tu respuesta de manera clara y natural." in
  let followUpMessages :=
    (originalMessages ++
     [ say role_assistant "Voy a consultar la información que necesitas.";
       say role_user toolResultsMessage ])%list in
  followUpResponse <- generate (llm agentConfig) followUpMessages None ;;
  parsedResponse <- lift (parseLLMResponse (r_content followUpResponse)) ;;
  let action :=
    fold_left action_step toolResults (jor (action parsedResponse) null_action) in
  audio <- lift (if truthy (audio_description parsedResponse)
                 then Ok (audio_description parsedResponse)
                 else generateAudioDescription (message parsedResponse) action) ;;
  ret (respond (message parsedResponse) audio action).

(** ** processMessage *)

(** [AgentConfigRepo.getByTenant(tenantId, agentId)] *)
Definition getByTenant (tenant agent : string) (w : World) : option AgentConfig :=
  Cursor.findOne (fun c => (Config.tenantId c =? tenant) && (Config.agentId c =? agent))
    (configs w).

(** [sort({ createdAt: -1 })] *)
Definition latest_first (a b : ConversationMessage) : bool :=
  Nat.leb (m_createdAt b) (m_createdAt a).

(** [ConversationsRepo.getLastMessages(tenantId, userId, conversationId, limit)] *)
Definition getLastMessages (tenant user conversation : string) (limit : Z) (w : World)
  : list ConversationMessage :=
  rev (Cursor.limit limit
         (Cursor.sort latest_first
            (filter (fun m => (m_tenantId m =? tenant) && (m_userId m =? user)
                              && (m_conversationId m =? conversation))
               (conversations w)))).

(** [ConversationsRepo.saveMessage]: the message is stamped with the
    current time and inserted; when the database rejects the insertion the
    call throws and nothing is stored. *)
Definition saveMessage `{Env} (tenant user conversation : string) (r : Role)
  (text : JVal) (act : option StoredAction) (used : option (list string)) : M unit :=
  fun w =>
    let conversationMessage :=
      {| m_tenantId := tenant; m_userId := user;
         m_conversationId := conversation; m_role := r; m_content := text;
         m_action := act; m_toolsUsed := used; m_createdAt := clock w |} in
    match insertOne_error conversationMessage with
    | Some e => (Throw e, w)
    | None =>
        (Ok tt, tick (with_conversations (conversations w ++ [conversationMessage]) w))
    end.

(** [saveConversation]: the user message, then the assistant message with
    its action when the action has a truthy type; an error of either write,
    or of reading the type of a missing action, is logged and swallowed.
    (The conversation metadata that [upsertConversation] maintains
    afterwards is not part of the model; its failure is swallowed as
    well.) *)
Definition saveConversation `{Env} (context : OrchestratorContext)
  (userMessage : string) (response : AgentResponse) : M unit :=
  catch
    (_ <- saveMessage (tenantId context) (userId context) (x_conversationId context)
            role_user (JStr userMessage) None None ;;
     if is_nullish (action response)
     then throw "TypeError: Cannot read properties"
     else
       saveMessage (tenantId context) (userId context) (x_conversationId context)
         role_assistant (message response)
         (if truthy (jget (action response) "type")
          then Some {| sa_type := jget (action response) "type";
                       sa_payload := jget (action response) "payload" |}
          else None)
         match meta response with
         | Some m => toolsUsed m
         | None => None
         end)
    (fun _ => ret tt).

(** The loop over the tool calls requested by the model. *)
Fixpoint run_tool_calls `{Env} (calls : list ToolCall) (toolContext : ToolContext)
  : M (list ToolRun) :=
  match calls with
  | [] => ret []
  | toolCall :: rest =>
      toolResult <- executeTool (tc_name toolCall) (arguments toolCall) toolContext ;;
      runs <- run_tool_calls rest toolContext ;;
      ret ({| tool := tc_name toolCall; result := toolResult |} :: runs)
  end.

(** Steps 9 and 10: the token counts of the first provider call. *)
Definition token_counts `{Env} (llmResponse : LLMResponse) (estimatedInputTokens : Z)
  : Z * Z * Z :=
  let reported (f : Tokens -> Z) :=
    match r_tokens llmResponse with
    | Some t => f t
    | None => 0%Z
    end in
  let actualInputTokens :=
    if (reported prompt =? 0)%Z then estimatedInputTokens else reported prompt in
  let outputTokens :=
    if (reported completion =? 0)%Z && negb (r_content llmResponse =? "")
    then Qceiling_div4 (String.length (r_content llmResponse))
    else reported completion in
  let totalTokens :=
    if (reported total =? 0)%Z then (actualInputTokens + outputTokens)%Z
    else reported total in
  (actualInputTokens, outputTokens, totalTokens).

Definition with_meta (m : Meta) (r : AgentResponse) : AgentResponse :=
  {| message := message r; audio_description := audio_description r;
     conversationId := conversationId r; action := action r; meta := Some m |}.

Definition with_conversationId (c : string) (r : AgentResponse) : AgentResponse :=
  {| message := message r; audio_description := audio_description r;
     conversationId := Some c; action := action r; meta := meta r |}.

(** Step 11 and the branch after it: the response before the metadata, and
    the names of the tools used. *)
Definition answer `{Env} `{Prompts} (context : OrchestratorContext)
  (agentConfig : AgentConfig) (messages : list LLMMessage)
  (extractedContext : ExtractedContext) (userMessage : string)
  (llmResponse : LLMResponse) : M (AgentResponse * list string) :=
  match toolCalls llmResponse with
  | Some (first :: others) =>
      let toolContext :=
        {| c_tenantId := tenantId context; c_userId := userId context;
           c_conversationId := x_conversationId context; agentConfig := agentConfig |} in
      toolResults <- run_tool_calls (first :: others) toolContext ;;
      finalResponse <- generateResponseFromToolResults agentConfig messages toolResults ;;
      ret (finalResponse, map tool toolResults)
  | _ =>
      parsedResponse <- lift (parseLLMResponse (r_content llmResponse)) ;;
      if truthy (jget (action parsedResponse) "type")
      then finalResponse <- executeActionFromResponse parsedResponse context agentConfig
                              extractedContext userMessage ;;
           ret (finalResponse, [])
      else ret (parsedResponse, [])
  end.

Definition processMessage `{Env} `{Prompts} (context : OrchestratorContext)
  (userMessage : string) : M AgentResponse :=
  startTime <- gets clock ;;
  found <- gets (getByTenant (tenantId context)
                   match agentId context with
                   | Some a => if a =? "" then "default" else a
                   | None => "default"
                   end) ;;
  match found with
  | None => throw ("Agent config not found for tenant: " ++ tenantId context)
  | Some agentConfig =>
      lastMessages <- gets (getLastMessages (tenantId context) (userId context)
                              (x_conversationId context) 4%Z) ;;
      extractedContext <- lift (extractContext lastMessages) ;;
      let toolDefinitions := getToolDefinitions agentConfig in
      let systemPrompt := buildSystemPrompt agentConfig toolDefinitions in
      messages <- lift (buildConversationMessages systemPrompt lastMessages userMessage
                          extractedContext) ;;
      let estimatedInputTokens := estimatePromptTokens messages toolDefinitions in
      llmResponse <- generate (llm agentConfig) messages
                       match toolDefinitions with
                       | [] => None
                       | _ => Some toolDefinitions
                       end ;;
      let '(actualInputTokens, outputTokens, totalTokens) :=
        token_counts llmResponse estimatedInputTokens in
      let estimatedCost :=
        calculateEstimatedCost (provider (llm agentConfig)) (model (llm agentConfig))
          actualInputTokens outputTokens in
      '(finalResponse, toolsUsed) <- answer context agentConfig messages extractedContext
                                       userMessage llmResponse ;;
      now <- gets clock ;;
      let finalResponse :=
        with_meta {| m_model := r_model llmResponse;
                     tokens := totalTokens;
                     tokensInput := actualInputTokens;
                     tokensOutput := outputTokens;
                     latency := Z.of_nat (now - startTime);
                     toolsUsed := match toolsUsed with
                                  | [] => None
                                  | _ => Some toolsUsed
                                  end;
                     estimatedCost := totalCost estimatedCost |}
          finalResponse in
      _ <- saveConversation context userMessage finalResponse ;;
      ret (with_conversationId (x_conversationId context) finalResponse)
  end.

End AgentOrchestrator.

(* ================================================================== *)
(** * Vocabulary of the properties, and sample data                    *)
(* ================================================================== *)

(** ** Advertisement: the core tools and their capability flags *)

Module Advertised.
Import Config ToolRegistry.

Inductive CoreTool : Type :=
| search_product | add_to_cart | get_order | show_product | rag_query.

Definition core_def (k : CoreTool) : ToolDefinition :=
  match k with
  | search_product => def_search_product
  | add_to_cart => def_add_to_cart
  | get_order => def_get_order
  | show_product => def_show_product
  | rag_query => def_rag_query
  end.

(** The flag that enables a core tool: [show_product] goes with
    [tools.searchProduct], [rag_query] with a knowledge topic served by the
    retrieval index. *)
Definition capability (k : CoreTool) (cfg : AgentConfig) : bool :=
  match k with
  | search_product | show_product => flag (Config.searchProduct (tools cfg))
  | add_to_cart => flag (Config.addToCart (tools cfg))
  | get_order => flag (Config.getOrder (tools cfg))
  | rag_query => source_is_rag (companyInfo (knowledge cfg))
                 || source_is_rag (kproducts (knowledge cfg))
  end.

(** [t] is one of the custom tools the configuration declares. *)
Definition declared (t : CustomTool) (cfg : AgentConfig) : Prop :=
  exists l, custom (tools cfg) = Some l /\ In t l.

(** The mode is literally one of the two listed values. *)
Definition mode_among (cfg : AgentConfig) (m1 m2 : Mode) : Prop :=
  mode (tools cfg) = Some m1 \/ mode (tools cfg) = Some m2.

(** The gating of the core tools read on the stored [tools.mode] itself. *)
Definition core_gated_by_stored_mode (cfg : AgentConfig) : Prop :=
  forall k, In (core_def k) (advertised_core cfg) ->
            mode_among cfg mode_default mode_hybrid /\ capability k cfg = true.

End Advertised.

(** ** Replies and responses *)

Module Shape.
Import Store ToolRegistry AgentOrchestrator.

(** The audio description of a plain text: the text itself, cut to 197
    characters and an ellipsis when it is longer than 200. *)
Definition spoken (text : string) : string :=
  if Nat.ltb 200 (String.length text) then take 197 text ++ "..." else text.

(** The reply holds no JSON object that can be parsed: there is no
    brace-delimited part, or [JSON.parse] rejects it. *)
Definition unparseable `{Env} (content : string) : Prop :=
  matchBraces content = None
  \/ exists text e, matchBraces content = Some text /\ JSON_parse text = Throw e.

(** [action.type == null] implies [action.payload] is [{}]. *)
Definition null_action_has_empty_payload (action : JVal) : Prop :=
  is_nullish (jget action "type") = true ->
  is_empty_object (jget action "payload") = true.





End Shape.

(** ** Product search *)

Module Search.
Import Config Store ToolRegistry.








End Search.

(** ** Carts *)

Module Cart.
Import Store ToolRegistry.

(** The arguments of an [add_to_cart] call. *)
Definition cart_args (pid : string) (quantity : Q) : JVal :=
  JObj [("productId", JStr pid); ("quantity", JNum quantity)].

(** The id under which [addToCart] files the product:
    [product._id?.toString() || productId]. *)
Definition line_id (product : Product) (pid : string) : string :=
  if p_id product =? "" then pid else p_id product.

(** The filter of [updateProducts]. *)
Definition numbered (tenant orderNo : string) (o : Order) : bool :=
  (o_domain o =? tenant) && (orderNumber o =? orderNo).

(** Order numbers designate orders: the user's pending cart is the order
    that its own number designates within the tenant, and when the user has
    no pending cart the number about to be generated is new to the tenant. *)
Definition cart_addressable `{Env} (tenant user : string) (w : World) : Prop :=
  match OrdersRepo.getActiveCart tenant user w with
  | Some cart =>
      Cursor.findOne (numbered tenant (orderNumber cart)) (orders w) = Some cart
  | None =>
      forall o, In o (orders w) -> o_domain o = tenant ->
                orderNumber o <> orderNumberAt (clock w)
  end.

(** The lines of the user's pending cart, none when there is no cart. *)
Definition cart_lines (tenant user : string) (w : World) : list OrderProduct :=
  match OrdersRepo.getActiveCart tenant user w with
  | Some cart => products cart
  | None => []
  end.

(** The lines of the cart that are lines of the product. *)
Definition lines_of (productIdStr : string) (lines : list OrderProduct)
  : list OrderProduct :=
  filter (line_matches productIdStr) lines.

(** The filter of [getActiveCart]. *)
Definition active (tenant user : string) (o : Order) : bool :=
  (o_domain o =? tenant) && (typeStatus (orderStatus o) =? "pending") &&
  ((email (clientInfo o) =? user) || (phone (clientInfo o) =? user)).

(** The cart sits in the collection after orders that are neither pending
    orders of the user nor orders with the cart's number. *)
Definition located (tenant user : string) (w : World) (pre : list Order) (cart : Order)
  (post : list Order) : Prop :=
  orders w = (pre ++ cart :: post)%list
  /\ (forall o, In o pre ->
        active tenant user o = false /\ numbered tenant (orderNumber cart) o = false)
  /\ active tenant user cart = true.

(** The sum over the lines of [valid_price * qty]. *)
Fixpoint line_sum (lines : list OrderProduct) : Q :=
  match lines with
  | [] => 0%Q
  | l :: rest => (valid_price l * qty l + line_sum rest)%Q
  end.

(** After [add_to_cart] with [q1] and then with [q2], the user's cart holds
    exactly one line of the product, and its quantity is [q1 + q2]. *)
Definition two_calls_leave_sum `{Env} (context : ToolContext) (w : World)
  (pid : string) (product : Product) (q1 q2 : Q) : Prop :=
  exists line,
    lines_of (line_id product pid)
      (cart_lines (c_tenantId context) (c_userId context)
         (snd (addToCart (cart_args pid q2) context
                 (snd (addToCart (cart_args pid q1) context w)))))
    = [line]
    /\ (qty line == q1 + q2)%Q.

(** The order persisted as the user's cart holds, as its total, the sum
    over its lines of [valid_price * qty]. *)
Definition cart_total_is_line_sum (tenant user : string) (w : World) : Prop :=
  exists cart, OrdersRepo.getActiveCart tenant user w = Some cart
               /\ (o_total cart == line_sum (products cart))%Q.

End Cart.

(** ** Sample data *)

Module Sample.
Import Config Store.

Definition no_knowledge : KnowledgeConfig :=
  {| companyInfo := None; kproducts := None; other_topics := [] |}.

Definition on_mongo : option ToolConfig :=
  Some {| enabled := true; type := Some type_mongodb |}.

Definition students_tool : CustomTool :=
  {| name := Some "get_student";
     baseUrl := Some "https://school.example";
     path := Some "/api/students/{studentId}";
     method := None;
     apiKeyEncrypted := None;
     ct_enabled := Some true;
     description := None;
     parameters := None |}.

Definition table : Product :=
  {| p_id := "65f0c0ffee0000000000000a";
     p_domain := "shop.example";
     title := "Mesa de roble";
     slug := "mesa-roble";
     description_short := Some "Mesa de comedor";
     description_long := None;
     price := {| regular := 350; sale := 299.90 |};
     image_default := Some ["https://cdn.example/mesa.jpg"];
     stock := Some 4%Q;
     category := None;
     is_available := true;
     is_trash := Some {| status := false; date := "" |};
     order := Some 1%Q |}.


Definition shop (m : option Mode) (customs : option (list CustomTool)) : AgentConfig :=
  {| tenantId := "shop.example";
     agentId := "default";
     llm := {| provider := "openai"; model := "gpt-4o-mini" |};
     knowledge := no_knowledge;
     tools := {| mode := m; searchProduct := on_mongo; addToCart := on_mongo;
                 getOrder := on_mongo; custom := customs |} |}.

End Sample.

(** ** Path templates of custom tools *)

Module PathTemplate.
Import Config Store ToolRegistry.






Fixpoint has_char (c : ascii) (s : string) : bool :=
  match s with
  | "" => false
  | String d rest => (d =? c)%char || has_char c rest
  end.











End PathTemplate.

(** ** Outcomes of computations *)

Module Outcome.
Import Store LLM AgentOrchestrator Shape.

(** Every value that [m] returns satisfies [P]. *)
Definition always {A : Type} (P : A -> Prop) (m : M A) : Prop :=
  forall w a w', m w = (Ok a, w') -> P a.

(** [m] makes no provider call. *)
Definition quiet {A : Type} (m : M A) : Prop :=
  forall w, llm_log (snd (m w)) = llm_log w.

(** The response is an answer of the provider. *)
Definition from_provider `{Env} (response : LLMResponse) : Prop :=
  exists n request, provider_generate n request = Ok response.

(** The action objects in the provider's JSON replies respect the shape
    invariant. *)
Definition reply_actions_well_formed `{Env} : Prop :=
  forall response text parsed,
    from_provider response ->
    matchBraces (r_content response) = Some text ->
    JSON_parse text = Ok parsed ->
    truthy (jget parsed "action") = true ->
    null_action_has_empty_payload (jget parsed "action").

(** The response satisfies the shape invariant. *)
Definition well_shaped (r : AgentResponse) : Prop :=
  null_action_has_empty_payload (action r).

End Outcome.

(** ** A platform on which runs can be evaluated.

    [JSON_parse] knows the replies listed in [replies] and rejects any other
    text; the provider returns the scripted answers in order and is then
    unavailable; the HTTP backend is down. The printers are simplified
    ([String] of a number keeps two decimals, JSON text is compact and
    strings are not escaped): they only produce prompt and message text. *)

Module SampleEnv.
Import Store LLM.

Definition digits (n : nat) : string :=
  match n with
  | O => "0"
  | _ => NilEmpty.string_of_uint (Nat.to_uint n)
  end.

Fixpoint zeros (n : nat) : string :=
  match n with
  | O => ""
  | S k => String "0" (zeros k)
  end.

(** [x.toFixed(d)] *)
Definition fixed (d : nat) (x : Q) : string :=
  let scale := (10 ^ Z.of_nat d)%Z in
  let n := Qfloor (Qabs x * inject_Z scale + (1 # 2))%Q in
  let whole := Z.to_nat (n / scale) in
  let frac := digits (Z.to_nat (n mod scale)) in
  (if Qlt_bool x 0%Q && negb (n =? 0)%Z then "-" else "")
  ++ digits whole
  ++ match d with
     | O => ""
     | _ => "." ++ zeros (d - String.length frac) ++ frac
     end.

Definition number_text (q : Q) : string :=
  if Qeq_bool q (inject_Z (Qfloor q))
  then (if (Qfloor q <? 0)%Z then "-" else "") ++ digits (Z.abs_nat (Qfloor q))
  else fixed 2 q.

Fixpoint text_of (v : JVal) : string :=
  match v with
  | JUndefined => "undefined"
  | JNull => "null"
  | JBool b => if b then "true" else "false"
  | JNum q => number_text q
  | JStr s => s
  | JArr items => join "," (map text_of items)
  | JObj _ => "[object Object]"
  end.

Fixpoint json_text (v : JVal) : string :=
  match v with
  | JUndefined => "undefined"
  | JNull => "null"
  | JBool b => if b then "true" else "false"
  | JNum q => number_text q
  | JStr s => dquote ++ s ++ dquote
  | JArr items => "[" ++ join "," (map json_text items) ++ "]"
  | JObj fields =>
      "{" ++ join "," (map (fun kv => dquote ++ fst kv ++ dquote ++ ":" ++ json_text (snd kv))
                          fields) ++ "}"
  end.

(** Decimal numerals only. *)
Definition number_of_text (s : string) : option Q :=
  if s =? "" then Some 0%Q
  else option_map (fun u => nat_to_Q (Nat.of_uint u)) (NilEmpty.uint_of_string s).

Definition is_hex (c : ascii) : bool :=
  let n := nat_of_ascii c in
  (Nat.leb 48 n && Nat.leb n 57) || (Nat.leb 65 n && Nat.leb n 70)
  || (Nat.leb 97 n && Nat.leb n 102).

(** Twenty-four hexadecimal digits. *)
Definition isValid (s : string) : bool :=
  Nat.eqb (String.length s) 24 && forallb is_hex (list_ascii_of_string s).

Section Scripted.
Variable replies : list (string * JVal).
Variable script : list LLMResponse.

#[local] Instance env : Env :=
  {| JSON_parse := fun text =>
       match assoc text replies with
       | Some v => Ok v
       | None => Throw "SyntaxError: Unexpected token"
       end;
     JSON_stringify := json_text;
     JSON_stringify_pretty := json_text;
     ToString := text_of;
     ToNumber := fun v => match v with
                          | JStr s => number_of_text s
                          | _ => None
                          end;
     toFixed := fixed;
     urlencode := fun s => s;
     url_with_search := fun base params =>
       Ok (match params with
           | [] => base
           | _ => base ++ "?" ++ join "&" (map (fun kv => fst kv ++ "=" ++ snd kv) params)
           end);
     ObjectId_isValid := isValid;
     ObjectId_hex := toLowerCase;
     regex_match := fun pattern s => includes (toLowerCase pattern) (toLowerCase s);
     provider_generate := fun n _ =>
       match nth_error script n with
       | Some r => Ok r
       | None => Throw "provider unavailable"
       end;
     http_fetch := fun _ => Throw "External API error: 503 Service Unavailable";
     orderNumberAt := fun n => "1740532951975" ++ digits n;
     objectIdAt := fun n => "65f0c0ffee" ++ zeros (14 - String.length (digits n)) ++ digits n;
     insertOne_error := fun _ => None |}.

End Scripted.

(** A prompt builder that sends the bare conversation. *)
#[local] Instance prompts : AgentOrchestrator.Prompts :=
  {| AgentOrchestrator.buildSystemPrompt := fun _ _ => "Eres SAM un asistente virtual.";
     AgentOrchestrator.buildConversationMessages := fun systemPrompt _ userMessage _ =>
       Ok [AgentOrchestrator.say role_system systemPrompt;
           AgentOrchestrator.say role_user userMessage] |}.

Definition reply (text : string) : LLMResponse :=
  {| r_content := text; r_model := "gpt-4o-mini"; r_tokens := None; r_latency := 1%Z;
     toolCalls := None |}.

Definition calling (calls : list ToolCall) : LLMResponse :=
  {| r_content := ""; r_model := "gpt-4o-mini"; r_tokens := None; r_latency := 1%Z;
     toolCalls := Some calls |}.

Definition world (cfg : Config.AgentConfig) (ps : list Product) (os : list Order) : World :=
  {| configs := [cfg]; catalog := ps; orders := os; conversations := [];
     llm_log := []; http_log := []; clock := 0 |}.

Definition at_shop (cfg : Config.AgentConfig) : ToolRegistry.ToolContext :=
  {| ToolRegistry.c_tenantId := "shop.example";
     ToolRegistry.c_userId := "ana@example.com";
     ToolRegistry.c_conversationId := "conv-1";
     ToolRegistry.agentConfig := cfg |}.

(** The platform with no scripted reply and no scripted provider answer. *)
Definition plain : Env := env [] [].

(** The platform [base] with a database that rejects the insertion of
    every message of the assistant. *)
Definition losing_answers (base : Env) : Env :=
  {| JSON_parse := @JSON_parse base;
     JSON_stringify := @JSON_stringify base;
     JSON_stringify_pretty := @JSON_stringify_pretty base;
     ToString := @ToString base;
     ToNumber := @ToNumber base;
     toFixed := @toFixed base;
     urlencode := @urlencode base;
     url_with_search := @url_with_search base;
     ObjectId_isValid := @ObjectId_isValid base;
     ObjectId_hex := @ObjectId_hex base;
     regex_match := @regex_match base;
     provider_generate := @provider_generate base;
     http_fetch := @http_fetch base;
     orderNumberAt := @orderNumberAt base;
     objectIdAt := @objectIdAt base;
     insertOne_error := fun m =>
       match m_role m with
       | role_assistant => Some "MongoNetworkError: connection closed"
       | _ => None
       end |}.

Definition default_shop : Config.AgentConfig := Sample.shop (Some Config.mode_default) None.

Definition shop_context : ToolRegistry.ToolContext := at_shop default_shop.


(** A shop with one product and no order yet. *)
Definition one_table : World := world default_shop [Sample.table] [].

Definition turn : AgentOrchestrator.OrchestratorContext :=
  {| AgentOrchestrator.tenantId := "shop.example";
     AgentOrchestrator.userId := "ana@example.com";
     AgentOrchestrator.x_conversationId := "conv-1";
     AgentOrchestrator.agentId := None |}.

End SampleEnv.

(** ** Sample turns of a conversation *)

Module Turns.
Import Store LLM AgentOrchestrator SampleEnv.

(** A platform whose provider answers once, with the JSON text of [v], and
    whose [JSON.parse] reads that text back. *)
Definition speaking (v : JVal) : Env := env [(json_text v, v)] [reply (json_text v)].

(** A reply with no action to take. *)
Definition greeting : JVal :=
  JObj [("message", JStr "Hola, soy SAM.");
        ("action", mk_action JNull (JObj []))].

(** A reply whose action has no type and a payload that is not empty. *)
Definition stray_payload : JVal :=
  JObj [("message", JStr "Hola, soy SAM.");
        ("action", mk_action JNull (JObj [("x", JNum 1)]))].

(** A reply that asks for an order inline, without saying which. *)
Definition inline_get_order : JVal :=
  JObj [("message", JStr "Un momento, reviso tu pedido.");
        ("action", mk_action (JStr "get_order") (JObj []))].

Definition narration : string := "No encuentro tu pedido.".

(** A platform whose provider first requests the [get_order] tool without
    arguments and then narrates. *)
Definition calling_get_order : Env :=
  env [] [calling [{| tc_name := "get_order"; arguments := JObj [] |}]; reply narration].

Definition asking : string := "Quiero ver mi pedido".

End Turns.

(** ** Sample carts *)

Module Carts.
Import Store ToolRegistry SampleEnv.

(** The shop after the user has put one table in the cart. *)
Definition one_table_in_cart : World :=
  snd (@addToCart plain (Cart.cart_args "mesa-roble" 1) shop_context one_table).

End Carts.

(* ================================================================== *)
(** * The other queries of the repositories                            *)
(* ================================================================== *)

Module Queries.
Import Store.

(** ['category.slug': categorySlug]: one of the product's categories has
    the slug. *)
Definition in_category (categorySlug : string) (p : Product) : bool :=
  match category p with
  | Some cats => existsb (fun c => cat_slug c =? categorySlug) cats
  | None => false
  end.

(** [ProductsRepo.getByCategory(domain, categorySlug, limit)] *)
Definition getByCategory (domain categorySlug : string) (limit : Z) (w : World)
  : list Product :=
  Cursor.limit limit
    (Cursor.sort ProductsRepo.order_leb
       (filter (fun p => (p_domain p =? domain) && in_category categorySlug p
                         && ProductsRepo.not_trashed p && is_available p)
          (catalog w))).

(** [OrdersRepo.getByPaymentStatus(domain, paymentStatus, limit)] *)
Definition getByPaymentStatus (domain status : string) (limit : Z) (w : World)
  : list Order :=
  Cursor.limit limit
    (Cursor.sort OrdersRepo.newest_first
       (filter (fun o => (o_domain o =? domain) && (typeStatus (paymentStatus o) =? status))
          (orders w))).

(** [OrdersRepo.getByOrderStatus(domain, orderStatus, limit)] *)
Definition getByOrderStatus (domain status : string) (limit : Z) (w : World)
  : list Order :=
  Cursor.limit limit
    (Cursor.sort OrdersRepo.newest_first
       (filter (fun o => (o_domain o =? domain) && (typeStatus (orderStatus o) =? status))
          (orders w))).

(** The filter shared by the queries on one conversation. *)
Definition of_conversation (tenant user conversation : string) (m : ConversationMessage)
  : bool :=
  (m_tenantId m =? tenant) && (m_userId m =? user) && (m_conversationId m =? conversation).

(** [sort({ createdAt: 1 })] *)
Definition oldest_first (a b : ConversationMessage) : bool :=
  Nat.leb (m_createdAt a) (m_createdAt b).

(** [ConversationsRepo.getConversationMessages(tenantId, userId, conversationId)] *)
Definition getConversationMessages (tenant user conversation : string) (w : World)
  : list ConversationMessage :=
  Cursor.sort oldest_first (filter (of_conversation tenant user conversation) (conversations w)).

End Queries.

(** ** Words for what a computation leaves alone *)

Module Frames.
Import Store.

(** [m] leaves the part [f] of the world as it was, whether it returns or
    throws. *)
Definition keeps {A B : Type} (f : World -> B) (m : M A) : Prop :=
  forall w, f (snd (m w)) = f w.

(** [m] never throws. *)
Definition returns {A : Type} (m : M A) : Prop :=
  forall w, exists a w', m w = (Ok a, w').

(** [m] calls the provider at most [hi] times, and at least [lo] times
    when it returns. *)
Definition calls_between {A : Type} (lo hi : nat) (m : M A) : Prop :=
  forall w, exists requests,
    llm_log (snd (m w)) = (llm_log w ++ requests)%list
    /\ List.length requests <= hi
    /\ (forall a, fst (m w) = Ok a -> lo <= List.length requests).

(** The stores a tool never writes: the configurations, the catalogue,
    the conversations, and the log of provider calls. *)
Definition stable (w : World)
  : list Config.AgentConfig * list Product * list ConversationMessage * list LLMRequest :=
  (configs w, catalog w, conversations w, llm_log w).

Definition untouched (w w' : World) : Prop :=
  configs w' = configs w /\ catalog w' = catalog w
  /\ conversations w' = conversations w /\ llm_log w' = llm_log w.

(** The stores besides the conversations, and the log of HTTP requests:
    what a turn that runs no tool leaves alone. *)
Definition stores (w : World)
  : list Config.AgentConfig * list Product * list Order * list HttpRequest :=
  (configs w, catalog w, orders w, http_log w).

End Frames.

(** ** More sample configurations *)

Module Shops.
Import Config.

(** A shop whose product search is served by RAG. *)
Definition rag_shop : AgentConfig :=
  {| tenantId := "shop.example";
     agentId := "default";
     llm := {| provider := "openai"; model := "gpt-4o-mini" |};
     knowledge := Sample.no_knowledge;
     tools := {| mode := None;
                 searchProduct := Some {| enabled := true; type := Some type_rag |};
                 addToCart := None;
                 getOrder := None;
                 custom := None |} |}.

End Shops.

(* ================================================================== *)
(** * db/agentConfigRepo: the monthly usage of a plan                  *)
(* ================================================================== *)

Module Usage.
Import Store.

(** [PlanConfig]; times are clock ticks. *)
Record PlanConfig : Type := {
  plan_type : string;
  monthlyLimit : Q;
  usedThisMonth : Q;
  renewsAt : nat
}.

(** A document of the collection [agentConfigs], with its plan. *)
Record Planned : Type := {
  p_config : Config.AgentConfig;
  plan : PlanConfig
}.

(** [nextRenewal.setMonth(nextRenewal.getMonth() + 1)] on a time. *)
Class Calendar : Type := {
  next_month : nat -> nat
}.

(** The filter [{ tenantId, agentId }]. *)
Definition designated (tenantId agentId : string) (d : Planned) : bool :=
  (Config.tenantId (p_config d) =? tenantId) && (Config.agentId (p_config d) =? agentId).

Definition getByTenantAndAgent (tenantId agentId : string) (docs : list Planned)
  : option Planned :=
  Cursor.findOne (designated tenantId agentId) docs.

Definition with_plan (p : PlanConfig) (d : Planned) : Planned :=
  {| p_config := p_config d; plan := p |}.

(** [update(tenantId, agentId, { plan })]: [findOneAndUpdate] with
    [$set: { plan }] (the [updatedAt] it also sets is not part of the
    model). *)
Fixpoint update (tenantId agentId : string) (p : PlanConfig) (docs : list Planned)
  : list Planned :=
  match docs with
  | [] => []
  | d :: rest =>
      if designated tenantId agentId d then with_plan p d :: rest
      else d :: update tenantId agentId p rest
  end.

Definition not_found (tenantId agentId : string) : string :=
  "Agent config not found: " ++ tenantId ++ "/" ++ agentId.

(** [incrementUsage(tenantId, agentId, amount)] at the time [now]. *)
Definition incrementUsage `{Calendar} (tenantId agentId : string) (amount : Q) (now : nat)
  (docs : list Planned) : Exc (list Planned) :=
  match getByTenantAndAgent tenantId agentId docs with
  | None => Throw (not_found tenantId agentId)
  | Some config =>
      if Nat.ltb (renewsAt (plan config)) now
      then Ok (update tenantId agentId
                 {| plan_type := plan_type (plan config);
                    monthlyLimit := monthlyLimit (plan config);
                    usedThisMonth := amount;
                    renewsAt := next_month now |} docs)
      else Ok (update tenantId agentId
                 {| plan_type := plan_type (plan config);
                    monthlyLimit := monthlyLimit (plan config);
                    usedThisMonth := (usedThisMonth (plan config) + amount)%Q;
                    renewsAt := renewsAt (plan config) |} docs)
  end.

Record UsageCheck : Type := {
  allowed : bool;
  used : Q;
  limit : Q;
  remaining : Q
}.

(** [Math.max(0, x)] *)
Definition Math_max0 (x : Q) : Q := if Qle_bool x 0 then 0%Q else x.

Definition checkUsageLimit (tenantId agentId : string) (docs : list Planned)
  : Exc UsageCheck :=
  match getByTenantAndAgent tenantId agentId docs with
  | None => Throw (not_found tenantId agentId)
  | Some config =>
      let used := usedThisMonth (plan config) in
      let limit := monthlyLimit (plan config) in
      Ok {| allowed := Qlt_bool used limit;
            used := used;
            limit := limit;
            remaining := Math_max0 (limit - used)%Q |}
  end.

(** [listByTenant(tenantId)] *)
Definition listByTenant (tenantId : string) (docs : list Planned) : list Planned :=
  filter (fun d => Config.tenantId (p_config d) =? tenantId) docs.

End Usage.

(** ** Words for the separation of tenants *)

Module Isolation.
Import Store.

(** The orders of the other tenants. *)
Definition foreign_orders (tenant : string) (w : World) : list Order :=
  filter (fun o => negb (o_domain o =? tenant)) (orders w).

(** The provider request uses the model configuration of an agent of the
    tenant. *)
Definition configured_for (tenant agent : string) (w : World) (request : LLMRequest)
  : Prop :=
  exists agentConfig,
    In agentConfig (configs w)
    /\ Config.tenantId agentConfig = tenant /\ Config.agentId agentConfig = agent
    /\ q_config request = Config.llm agentConfig.

(** Every provider call of [m] satisfies [P]. *)
Definition requests_with {A : Type} (P : LLMRequest -> Prop) (m : M A) : Prop :=
  forall w, exists requests,
    llm_log (snd (m w)) = (llm_log w ++ requests)%list /\ Forall P requests.

(** The message carries a [search_product] action with truthy products. *)
Definition remembers_search (msg : ConversationMessage) : bool :=
  match m_action msg with
  | Some a => is_str (sa_type a) "search_product" && truthy (jget (sa_payload a) "products")
  | None => false
  end.

End Isolation.

(* ================================================================== *)
(** * Facts: the advertisement rule of [getToolDefinitions]            *)
(* ================================================================== *)

Section Advertisement.
Import Config ToolRegistry Advertised.

Lemma custom_definition_inv (t : CustomTool) (d : ToolDefinition) :
  In d (custom_definition t) ->
  d = def_custom t /\ ct_enabled t = Some true
  /\ present (name t) = true /\ present (baseUrl t) = true.
Proof.
  unfold custom_definition, strictly_enabled.
  destruct (present (name t)), (present (baseUrl t)); simpl; try tauto.
  destruct (ct_enabled t) as [[|]|]; simpl; intuition.
Qed.

Lemma core_definitions_inv (cfg : AgentConfig) (d : ToolDefinition) :
  In d (core_definitions cfg) -> exists k, d = core_def k /\ capability k cfg = true.
Proof.
  unfold core_definitions. intros Hin.
  repeat (apply in_app_or in Hin; destruct Hin as [Hin | Hin]).
  - destruct (flag (Config.searchProduct (tools cfg))) eqn:E; simpl in Hin; [|tauto].
    destruct Hin as [<- | []]. now exists search_product.
  - destruct (flag (Config.addToCart (tools cfg))) eqn:E; simpl in Hin; [|tauto].
    destruct Hin as [<- | []]. now exists add_to_cart.
  - destruct (flag (Config.getOrder (tools cfg))) eqn:E; simpl in Hin; [|tauto].
    destruct Hin as [<- | []]. now exists get_order.
  - destruct (flag (Config.searchProduct (tools cfg))) eqn:E; simpl in Hin; [|tauto].
    destruct Hin as [<- | []]. now exists show_product.
  - destruct (source_is_rag (companyInfo (knowledge cfg))
              || source_is_rag (kproducts (knowledge cfg))) eqn:E;
      simpl in Hin; [|tauto].
    destruct Hin as [<- | []]. now exists rag_query.
Qed.

(** Conversely, an enabled core tool is in the core block. *)
Lemma core_definitions_complete (cfg : AgentConfig) (k : CoreTool) :
  capability k cfg = true -> In (core_def k) (core_definitions cfg).
Proof.
  unfold core_definitions. intros Hc.
  destruct k; simpl in Hc; simpl core_def.
  - apply in_or_app; left. rewrite Hc. now left.
  - apply in_or_app; right. apply in_or_app; left. rewrite Hc. now left.
  - do 2 (apply in_or_app; right). apply in_or_app; left. rewrite Hc. now left.
  - do 3 (apply in_or_app; right). apply in_or_app; left. rewrite Hc. now left.
  - do 4 (apply in_or_app; right). rewrite Hc. now left.
Qed.

(** Conversely, an eligible custom tool yields its definition. *)
Lemma custom_definition_complete (t : CustomTool) :
  ct_enabled t = Some true -> present (name t) = true -> present (baseUrl t) = true ->
  custom_definition t = [def_custom t].
Proof.
  intros He Hn Hb. unfold custom_definition, strictly_enabled.
  now rewrite Hn, Hb, He.
Qed.

(** C2, as the code has it. A custom tool is advertised only when the mode
    in force is 'custom' or 'hybrid', the tool's [enabled] is exactly [true]
    and it has a name and a base URL; a core tool is advertised only when
    the mode in force is 'default' or 'hybrid' and its capability flag is
    enabled. The mode in force is [tools.mode], or 'default' when
    [tools.mode] is absent. With [tools.mode = 'default'] the result is the
    core block alone, with [tools.mode = 'custom'] the custom block alone. *)
Theorem getToolDefinitions_gating (cfg : AgentConfig) :
  getToolDefinitions cfg = (advertised_core cfg ++ advertised_custom cfg)%list
  /\ (forall d, In d (advertised_custom cfg) ->
        exists t, declared t cfg /\ d = def_custom t
                  /\ (effective_mode cfg = mode_custom \/ effective_mode cfg = mode_hybrid)
                  /\ ct_enabled t = Some true
                  /\ present (name t) = true /\ present (baseUrl t) = true)
  /\ (forall d, In d (advertised_core cfg) ->
        exists k, d = core_def k
                  /\ (effective_mode cfg = mode_default \/ effective_mode cfg = mode_hybrid)
                  /\ capability k cfg = true)
  /\ (mode (tools cfg) = Some mode_default ->
        advertised_custom cfg = [] /\ getToolDefinitions cfg = core_definitions cfg)
  /\ (mode (tools cfg) = Some mode_custom ->
        advertised_core cfg = [] /\ getToolDefinitions cfg = advertised_custom cfg).
Proof.
  repeat split.
  - unfold advertised_custom. intros d Hin.
    destruct (effective_mode cfg) eqn:Em; try contradiction;
      destruct (custom (tools cfg)) as [l|] eqn:Ec; try contradiction;
      apply in_flat_map in Hin; destruct Hin as (t & Ht & Hd);
      apply custom_definition_inv in Hd; destruct Hd as (-> & He & Hn & Hb);
      exists t; (split; [exists l; auto|]); auto 6.
  - unfold advertised_core. intros d Hin.
    destruct (effective_mode cfg) eqn:Em; try contradiction;
      apply core_definitions_inv in Hin; destruct Hin as (k & -> & Hc);
      exists k; auto.
  - unfold advertised_custom, effective_mode. now rewrite H.
  - unfold getToolDefinitions, advertised_core, advertised_custom, effective_mode.
    rewrite H. now rewrite app_nil_r.
  - unfold advertised_core, effective_mode. now rewrite H.
  - unfold getToolDefinitions, advertised_core, effective_mode. now rewrite H.
Qed.

Lemma getToolDefinitions_gating_witness :
  In (def_custom Sample.students_tool)
     (advertised_custom (Sample.shop (Some mode_hybrid) (Some [Sample.students_tool])))
  /\ exists t,
       declared t (Sample.shop (Some mode_hybrid) (Some [Sample.students_tool]))
       /\ def_custom Sample.students_tool = def_custom t
       /\ (effective_mode (Sample.shop (Some mode_hybrid) (Some [Sample.students_tool]))
           = mode_custom
           \/ effective_mode (Sample.shop (Some mode_hybrid) (Some [Sample.students_tool]))
              = mode_hybrid)
       /\ ct_enabled t = Some true
       /\ present (name t) = true /\ present (baseUrl t) = true.
Proof.
  split.
  - simpl. left. reflexivity.
  - apply (proj1 (proj2 (getToolDefinitions_gating
                            (Sample.shop (Some mode_hybrid) (Some [Sample.students_tool]))))).
    simpl. left. reflexivity.
Defined.

(** Read on the stored [tools.mode], the gating of the core tools fails: a
    configuration without [tools.mode] advertises its enabled core tools. *)
Lemma core_gating_absent_mode_counterexample :
  ~ core_gated_by_stored_mode (Sample.shop None None).
Proof.
  intros Hclaim.
  destruct (Hclaim search_product) as [[Hm | Hm] _].
  - simpl. left. reflexivity.
  - discriminate Hm.
  - discriminate Hm.
Qed.

End Advertisement.
(* ================================================================== *)
(** * Facts: the cost estimate                                         *)
(* ================================================================== *)

Section Cost.
Import AgentOrchestrator.

(** No model of the table bears the name of an inherited property. *)
Lemma pricing_at_inherited (key : string) :
  In key Object_prototype -> pricing_at key = Some inherited.
Proof.
  unfold Object_prototype. simpl.
  intros H. repeat (destruct H as [<- | H]; [reflexivity|]). destruct H.
Qed.

(** A model of the table is looked up by its lower-cased name. *)
Lemma price_for_own (provider model : string) (price : ModelPrice) :
  assoc (toLowerCase model) pricing = Some price -> price_for provider model = price.
Proof. intros H. unfold price_for, pricing_at. now rewrite H. Qed.

(** A name that is neither in the table nor inherited gets the default of
    the provider. *)
Lemma price_for_unknown (provider model : string) :
  assoc (toLowerCase model) pricing = None ->
  existsb (String.eqb (toLowerCase model)) Object_prototype = false ->
  price_for provider model = default_price provider.
Proof. intros Hown Hproto. unfold price_for, pricing_at. now rewrite Hown, Hproto. Qed.

(** NaN absorbs. *)
Lemma mul_NaN (x : Double.double) : Double.mul x Double.NaN = Double.NaN.
Proof. now destruct x. Qed.

Lemma add_NaN (y : Double.double) : Double.add Double.NaN y = Double.NaN.
Proof. reflexivity. Qed.

(** The estimate for a model whose lower-cased name is an inherited
    property: no price, and a cost that is not a number. *)
Lemma cost_of_inherited_name (provider model : string) (inputTokens outputTokens : Z) :
  In (toLowerCase model) Object_prototype ->
  calculateEstimatedCost provider model inputTokens outputTokens
  = {| inputCostPerMillion := None; outputCostPerMillion := None;
       totalCost := Double.NaN; cost_currency := "USD" |}.
Proof.
  intros Hkey. unfold calculateEstimatedCost, price_for.
  rewrite (pricing_at_inherited _ Hkey). cbn [input output inherited operand].
  now rewrite mul_NaN, add_NaN.
Qed.

(** C7. The model names [constructor] and [__proto__] are in no price
    table, yet they do not get the default price of the provider: the
    look-up finds the property that every object inherits, and the estimate
    is NaN whatever the provider and the token counts. A model name that is
    really unknown gets the default: one thousand input and five hundred
    output tokens of an unknown OpenAI model cost 0.00125. *)
Theorem calculateEstimatedCost_inherited_name (provider : string)
  (inputTokens outputTokens : Z) :
  totalCost (calculateEstimatedCost provider "constructor" inputTokens outputTokens)
  = Double.NaN
  /\ totalCost (calculateEstimatedCost provider "__proto__" inputTokens outputTokens)
     = Double.NaN
  /\ totalCost (calculateEstimatedCost "openai" "no-such-model" 1000 500)
     = Double.ratio 125 100000.
Proof.
  split; [|split].
  - rewrite cost_of_inherited_name; [reflexivity|]. simpl. auto.
  - rewrite cost_of_inherited_name; [reflexivity|]. simpl. auto 12.
  - vm_compute. reflexivity.
Qed.

(** A model of the table, under a name in capitals: 1000 input and 500
    output tokens of gpt-4o-mini cost 0.00045. *)
Example cost_of_known_model :
  calculateEstimatedCost "openai" "GPT-4o-mini" 1000 500
  = {| inputCostPerMillion := Some (Double.ratio 15 100);
       outputCostPerMillion := Some (Double.ratio 60 100);
       totalCost := Double.ratio 45 100000;
       cost_currency := "USD" |}.
Proof. vm_compute. reflexivity. Qed.

(** The arithmetic is that of the machine: one input token of gpt-4o costs
    a little less than 0.0000025 once [1 / 1000000] is rounded, and the
    estimate is 0.000002. *)
Example cost_of_one_token :
  totalCost (calculateEstimatedCost "openai" "gpt-4o" 1 0) = Double.ratio 2 1000000.
Proof. vm_compute. reflexivity. Qed.

(** No tokens cost nothing. *)
Example cost_of_nothing :
  totalCost (calculateEstimatedCost "groq" "mixtral-8x7b-32768" 0 0)
  = Double.of_Z 0.
Proof. vm_compute. reflexivity. Qed.

End Cost.

(* ================================================================== *)
(** * Facts: parsing the model's reply                                 *)
(* ================================================================== *)

Section Parsing.
Import Store AgentOrchestrator Shape.
Context {E : Env}.

Lemma Qlt_bool_nat (k n : nat) :
  Qlt_bool (inject_Z (Z.of_nat k)) (nat_to_Q n) = Nat.ltb k n.
Proof.
  unfold Qlt_bool, nat_to_Q.
  destruct (Nat.ltb_spec k n) as [Hlt | Hge].
  - apply negb_true_iff. apply not_true_is_false. intros H.
    apply Qle_bool_iff in H. rewrite <- Zle_Qle in H. lia.
  - apply negb_false_iff. apply Qle_bool_iff. rewrite <- Zle_Qle. lia.
Qed.

(** The audio description of a plain text, with no action. *)
Lemma generateAudioDescription_text (text : string) :
  generateAudioDescription (JStr text) JUndefined = Ok (JStr (spoken text)).
Proof.
  unfold generateAudioDescription, spoken, js_gt. simpl.
  change 200%Q with (inject_Z (Z.of_nat 200)).
  rewrite Qlt_bool_nat. now destruct (Nat.ltb 200 (String.length text)).
Qed.

Lemma plain_response_ok (content : string) :
  plain_response content = Ok (respond (JStr content) (JStr (spoken content)) null_action).
Proof.
  unfold plain_response. now rewrite generateAudioDescription_text.
Qed.

(** C8. Parsing a reply never throws; and when the reply holds no JSON
    object that can be parsed, the response is the raw text as message, the
    audio description generated from that text, and the null action
    [{ type: null, payload: {} }]. *)
Theorem parseLLMResponse_never_throws (content : string) :
  (exists r, parseLLMResponse content = Ok r)
  /\ generateAudioDescription (JStr content) JUndefined = Ok (JStr (spoken content))
  /\ (unparseable content ->
      parseLLMResponse content
      = Ok {| message := JStr content;
              audio_description := JStr (spoken content);
              conversationId := None;
              action := JObj [("type", JNull); ("payload", JObj [])];
              meta := None |}).
Proof.
  split; [|split].
  - unfold parseLLMResponse. destruct (parse_body content) as [r | e].
    + now exists r.
    + rewrite plain_response_ok. eauto.
  - apply generateAudioDescription_text.
  - intros [Hnone | (text & e & Hsome & Hthrow)].
    + unfold parseLLMResponse, parse_body. rewrite Hnone.
      now rewrite plain_response_ok.
    + unfold parseLLMResponse, parse_body. rewrite Hsome, Hthrow. simpl.
      now rewrite plain_response_ok.
Qed.

End Parsing.

Lemma parseLLMResponse_never_throws_witness :
  @Shape.unparseable SampleEnv.plain "Hola, ¿en qué puedo ayudarte?"
  /\ @AgentOrchestrator.parseLLMResponse SampleEnv.plain "Hola, ¿en qué puedo ayudarte?"
     = Ok {| AgentOrchestrator.message := JStr "Hola, ¿en qué puedo ayudarte?";
             AgentOrchestrator.audio_description := JStr "Hola, ¿en qué puedo ayudarte?";
             AgentOrchestrator.conversationId := None;
             AgentOrchestrator.action := JObj [("type", JNull); ("payload", JObj [])];
             AgentOrchestrator.meta := None |}.
Proof.
  assert (H : @Shape.unparseable SampleEnv.plain "Hola, ¿en qué puedo ayudarte?")
    by (left; reflexivity).
  split; [exact H|].
  exact (proj2 (proj2 (@parseLLMResponse_never_throws SampleEnv.plain _)) H).
Defined.

(** A reply whose braces do not hold JSON falls back to the raw text. *)
Example parse_rejected_json :
  @AgentOrchestrator.parseLLMResponse SampleEnv.plain "precio {oferta} hoy"
  = Ok (AgentOrchestrator.respond (JStr "precio {oferta} hoy")
          (JStr "precio {oferta} hoy") AgentOrchestrator.null_action).
Proof. reflexivity. Qed.

(* ================================================================== *)
(** * Facts: [get_order]                                               *)
(* ================================================================== *)

Section GetOrder.
Import Store ToolRegistry Shape.
Context {E : Env}.











End GetOrder.

Section GetOrderRuns.
Import Store ToolRegistry Shape SampleEnv.



(** An order number that matches nothing, through the registry. *)
Example get_order_unknown_number :
  fst (@executeTool plain "get_order" (JObj [("orderNumber", JStr "000")])
         shop_context one_table)
  = Ok (ask question_not_found "Order not found").
Proof. vm_compute. reflexivity. Qed.

End GetOrderRuns.

(* ================================================================== *)
(** * Facts: [add_to_cart]                                             *)
(* ================================================================== *)

Section CartFacts.
Import Store ToolRegistry Cart.
Context {E : Env}.

(** ** Searching and updating a collection *)

Lemma find_skip {A : Type} (f : A -> bool) (pre post : list A) (x : A) :
  (forall o, In o pre -> f o = false) -> f x = true ->
  List.find f (pre ++ x :: post) = Some x.
Proof.
  intros Hpre Hx. induction pre as [|o pre IH]; simpl.
  - now rewrite Hx.
  - rewrite (Hpre o (or_introl eq_refl)). apply IH. intros y Hy. apply Hpre. now right.
Qed.

Lemma findOneAndUpdate_skip (f : Order -> bool) (upd : Order -> Order)
  (pre post : list Order) (x : Order) :
  (forall o, In o pre -> f o = false) -> f x = true ->
  OrdersRepo.findOneAndUpdate f upd (pre ++ x :: post)
  = (Some (upd x), (pre ++ upd x :: post)%list).
Proof.
  intros Hpre Hx. induction pre as [|o pre IH]; simpl.
  - now rewrite Hx.
  - rewrite (Hpre o (or_introl eq_refl)). rewrite IH; [reflexivity|].
    intros y Hy. apply Hpre. now right.
Qed.

(** Two searches that find the same document find it at the same place. *)
Lemma find_same_place {A : Type} (f g : A -> bool) (l : list A) (x : A) :
  List.find f l = Some x -> List.find g l = Some x ->
  exists pre post, l = (pre ++ x :: post)%list
                   /\ forall o, In o pre -> f o = false /\ g o = false.
Proof.
  induction l as [|o rest IH]; simpl; [discriminate|].
  destruct (f o) eqn:Ef, (g o) eqn:Eg.
  - intros [= <-] _. exists [], rest. split; [reflexivity | intros ? []].
  - intros [= <-] Hg. apply find_some in Hg. destruct Hg as [_ Hg]. congruence.
  - intros Hf [= <-]. apply find_some in Hf. destruct Hf as [_ Hf]. congruence.
  - intros Hf Hg. destruct (IH Hf Hg) as (pre & post & -> & Hpre).
    exists (o :: pre), post. split; [reflexivity|].
    intros y [<- | Hy]; [auto | now apply Hpre].
Qed.

(** ** Where the cart is *)

Lemma active_numbered (tenant user : string) (cart : Order) :
  active tenant user cart = true -> numbered tenant (orderNumber cart) cart = true.
Proof.
  unfold active, numbered. intros H.
  apply andb_prop in H. destruct H as [H _]. apply andb_prop in H. destruct H as [H _].
  rewrite H. now rewrite String.eqb_refl.
Qed.

Lemma located_getActiveCart (tenant user : string) (w : World) pre cart post :
  located tenant user w pre cart post ->
  OrdersRepo.getActiveCart tenant user w = Some cart.
Proof.
  intros (Ho & Hpre & Hc). unfold OrdersRepo.getActiveCart, Cursor.findOne. rewrite Ho.
  apply (find_skip (active tenant user)); [|exact Hc].
  intros o Hin. now apply Hpre.
Qed.

Lemma located_of_addressable (tenant user : string) (w : World) (cart : Order) :
  OrdersRepo.getActiveCart tenant user w = Some cart ->
  cart_addressable tenant user w ->
  exists pre post, located tenant user w pre cart post.
Proof.
  intros Hact Haddr. unfold cart_addressable in Haddr. rewrite Hact in Haddr.
  destruct (find_same_place _ _ _ _ Hact Haddr) as (pre & post & Ho & Hpre).
  exists pre, post. split; [exact Ho | split; [exact Hpre|]].
  apply find_some in Hact. exact (proj2 Hact).
Qed.

Lemma updateProducts_located (tenant user : string) (w : World) pre cart post
  (lines : list OrderProduct) :
  located tenant user w pre cart post ->
  OrdersRepo.updateProducts tenant (orderNumber cart) lines w
  = (Some (OrdersRepo.set_products lines (OrdersRepo.total_of lines) (clock w) cart),
     tick (with_orders
             (pre ++ OrdersRepo.set_products lines (OrdersRepo.total_of lines) (clock w) cart
                  :: post) w)).
Proof.
  intros (Ho & Hpre & Hc). unfold OrdersRepo.updateProducts. rewrite Ho.
  rewrite (findOneAndUpdate_skip (numbered tenant (orderNumber cart)));
    [reflexivity | | now apply (active_numbered tenant user)].
  intros o Hin. now apply Hpre.
Qed.

Lemma located_after_update (tenant user : string) (w : World) pre cart post
  (lines : list OrderProduct) (total : Q) (now : nat) :
  located tenant user w pre cart post ->
  located tenant user
    (tick (with_orders (pre ++ OrdersRepo.set_products lines total now cart :: post) w))
    pre (OrdersRepo.set_products lines total now cart) post.
Proof.
  intros (Ho & Hpre & Hc). split; [reflexivity | split; [exact Hpre | exact Hc]].
Qed.

(** ** Obtaining the cart *)

Lemma active_or_new_cart_located (context : ToolContext) (w : World) pre cart post :
  located (c_tenantId context) (c_userId context) w pre cart post ->
  active_or_new_cart context w = (Ok cart, w).
Proof.
  intros Hloc. unfold active_or_new_cart, bind, gets.
  now rewrite (located_getActiveCart _ _ _ _ _ _ Hloc).
Qed.

(** The order that [active_or_new_cart] creates in a world without cart. *)
Lemma includes_at (user : string) :
  (email (defaultClientInfo user) =? user) || (phone (defaultClientInfo user) =? user) = true.
Proof.
  unfold defaultClientInfo. destruct (includes "@" user); simpl.
  - now rewrite String.eqb_refl.
  - rewrite String.eqb_refl. apply orb_true_r.
Qed.

Lemma active_or_new_cart_created (context : ToolContext) (w : World) :
  OrdersRepo.getActiveCart (c_tenantId context) (c_userId context) w = None ->
  cart_addressable (c_tenantId context) (c_userId context) w ->
  exists cart wc,
    active_or_new_cart context w = (Ok cart, wc)
    /\ located (c_tenantId context) (c_userId context) wc (orders w) cart []
    /\ products cart = [] /\ catalog wc = catalog w.
Proof.
  intros Hnone Hfresh. unfold cart_addressable in Hfresh. rewrite Hnone in Hfresh.
  unfold active_or_new_cart, bind, gets. rewrite Hnone.
  unfold update, OrdersRepo.generateOrderNumber, OrdersRepo.create. simpl.
  eexists. eexists. split; [reflexivity|]. split; [|split; reflexivity].
  split; [reflexivity|]. split.
  - intros o Hin. split.
    + unfold OrdersRepo.getActiveCart, Cursor.findOne in Hnone.
      exact (find_none _ _ Hnone o Hin).
    + unfold numbered. simpl.
      destruct (String.eqb_spec (o_domain o) (c_tenantId context)) as [Hd | Hd];
        [|reflexivity].
      simpl. apply String.eqb_neq. now apply Hfresh.
  - unfold active. simpl. rewrite String.eqb_refl. simpl. apply includes_at.
Qed.

(** In either case the cart is obtained and located, and it holds the lines
    the user's cart held before. *)
Lemma active_or_new_cart_run (context : ToolContext) (w : World) :
  cart_addressable (c_tenantId context) (c_userId context) w ->
  exists cart wc pre post,
    active_or_new_cart context w = (Ok cart, wc)
    /\ located (c_tenantId context) (c_userId context) wc pre cart post
    /\ products cart = cart_lines (c_tenantId context) (c_userId context) w
    /\ catalog wc = catalog w.
Proof.
  intros Haddr. unfold cart_lines.
  destruct (OrdersRepo.getActiveCart (c_tenantId context) (c_userId context) w)
    as [cart|] eqn:Hact.
  - destruct (located_of_addressable _ _ _ _ Hact Haddr) as (pre & post & Hloc).
    exists cart, w, pre, post.
    split; [now apply (active_or_new_cart_located context w pre cart post)|].
    split; [exact Hloc | split; reflexivity].
  - destruct (active_or_new_cart_created context w Hact Haddr)
      as (cart & wc & Hrun & Hloc & Hempty & Hcat).
    exists cart, wc, (orders w), []. auto.
Qed.

(** ** One call *)

Lemma truthy_id (pid : string) : pid <> "" -> truthy (JStr pid) = true.
Proof. intros H. simpl. apply String.eqb_neq in H. now rewrite H. Qed.

(** A call for a product of the catalog, once the cart is obtained. *)
Lemma addToCart_with_cart (context : ToolContext) (w wc : World) (pid : string)
  (product : Product) (quantity : Q) pre cart post :
  pid <> "" ->
  ProductsRepo.getById (c_tenantId context) pid w = Some product ->
  active_or_new_cart context w = (Ok cart, wc) ->
  located (c_tenantId context) (c_userId context) wc pre cart post ->
  let lines := add_line product (line_id product pid) quantity
                 (ProductsRepo.getProductPrice product) (products cart) in
  let cart' := OrdersRepo.set_products lines (OrdersRepo.total_of lines) (clock wc) cart in
  exists d, addToCart (cart_args pid quantity) context w
            = (Ok (succeeded d), tick (with_orders (pre ++ cart' :: post) wc)).
Proof.
  intros Hpid Hget Hcart Hloc. cbv zeta.
  unfold addToCart, cart_args.
  unfold bind at 1. unfold lift, destructure. simpl is_nullish. cbv iota.
  cbn [jget assoc String.eqb Ascii.eqb Bool.eqb arg_default as_number to_number
       as_identifier to_string].
  rewrite (truthy_id pid Hpid). change (negb true) with false. cbv beta iota.
  unfold catch, bind, gets. rewrite Hget, Hcart.
  unfold update. fold (line_id product pid).
  rewrite (updateProducts_located _ _ _ _ _ _ _ Hloc). unfold ret.
  eexists. reflexivity.
Qed.

Lemma getById_catalog (tenant pid : string) (w w' : World) :
  catalog w' = catalog w ->
  ProductsRepo.getById tenant pid w' = ProductsRepo.getById tenant pid w.
Proof. intros H. unfold ProductsRepo.getById. now rewrite H. Qed.

(** ** Merging a line *)

Lemma merge_line_none (productIdStr : string) (quantity productPrice : Q)
  (lines : list OrderProduct) :
  lines_of productIdStr lines = [] ->
  merge_line productIdStr quantity productPrice lines = None.
Proof.
  unfold lines_of. induction lines as [|l rest IH]; simpl; [reflexivity|].
  destruct (line_matches productIdStr l); [discriminate|].
  intros H. now rewrite (IH H).
Qed.

Lemma merge_line_first (productIdStr : string) (quantity productPrice : Q)
  (pre post : list OrderProduct) (old : OrderProduct) :
  lines_of productIdStr pre = [] -> line_matches productIdStr old = true ->
  merge_line productIdStr quantity productPrice (pre ++ old :: post)
  = Some (pre ++ bump_line quantity productPrice old :: post)%list.
Proof.
  unfold lines_of. intros Hpre Hold. induction pre as [|l pre IH]; simpl.
  - now rewrite Hold.
  - simpl in Hpre. destruct (line_matches productIdStr l); [discriminate|].
    now rewrite (IH Hpre).
Qed.

Lemma lines_of_app (productIdStr : string) (a b : list OrderProduct) :
  lines_of productIdStr (a ++ b) = (lines_of productIdStr a ++ lines_of productIdStr b)%list.
Proof. apply filter_app. Qed.

Lemma new_line_matches (product : Product) (productIdStr : string) (q price : Q) :
  line_matches productIdStr (new_line product productIdStr q price) = true.
Proof. unfold line_matches. simpl. now rewrite String.eqb_refl. Qed.

Lemma bump_line_matches (productIdStr : string) (q price : Q) (l : OrderProduct) :
  line_matches productIdStr (bump_line q price l) = line_matches productIdStr l.
Proof. reflexivity. Qed.

(** Adding a product that the cart does not hold, twice. *)
Lemma add_line_twice (product : Product) (productIdStr : string) (q1 q2 price : Q)
  (lines : list OrderProduct) :
  lines_of productIdStr lines = [] ->
  add_line product productIdStr q2 price (add_line product productIdStr q1 price lines)
  = (lines ++ [bump_line q2 price (new_line product productIdStr q1 price)])%list.
Proof.
  intros Hnone. unfold add_line at 2. rewrite (merge_line_none _ _ _ _ Hnone).
  unfold add_line.
  rewrite (merge_line_first productIdStr q2 price lines []); auto.
  apply new_line_matches.
Qed.

Lemma Qplus_comm_eq (x y : Q) : (x + y)%Q = (y + x)%Q.
Proof.
  unfold Qplus. f_equal; [apply Z.add_comm | apply Pos.mul_comm].
Qed.

Lemma bump_new_line_comm (product : Product) (productIdStr : string) (q1 q2 price : Q) :
  bump_line q2 price (new_line product productIdStr q1 price)
  = bump_line q1 price (new_line product productIdStr q2 price).
Proof.
  unfold bump_line, new_line. simpl. now rewrite (Qplus_comm_eq q1 q2).
Qed.

End CartFacts.

Section CartClaims.
Import Store ToolRegistry Cart.
Context {E : Env}.

(** Two calls in a row for the same product, once the cart is obtained. *)
Lemma addToCart_two_calls (context : ToolContext) (w wc : World) (pid : string)
  (product : Product) (qa qb : Q) pre cart post :
  pid <> "" ->
  ProductsRepo.getById (c_tenantId context) pid w = Some product ->
  active_or_new_cart context w = (Ok cart, wc) ->
  located (c_tenantId context) (c_userId context) wc pre cart post ->
  catalog wc = catalog w ->
  let price := ProductsRepo.getProductPrice product in
  let l1 := add_line product (line_id product pid) qa price (products cart) in
  let c1 := OrdersRepo.set_products l1 (OrdersRepo.total_of l1) (clock wc) cart in
  let w1 := tick (with_orders (pre ++ c1 :: post) wc) in
  let l2 := add_line product (line_id product pid) qb price l1 in
  let c2 := OrdersRepo.set_products l2 (OrdersRepo.total_of l2) (S (clock wc)) cart in
  let w2 := tick (tick (with_orders (pre ++ c2 :: post) wc)) in
  exists da db,
    addToCart (cart_args pid qa) context w = (Ok (succeeded da), w1)
    /\ addToCart (cart_args pid qb) context w1 = (Ok (succeeded db), w2)
    /\ located (c_tenantId context) (c_userId context) w1 pre c1 post
    /\ located (c_tenantId context) (c_userId context) w2 pre c2 post.
Proof.
  intros Hpid Hget Hrun Hloc Hcat price l1 c1 w1 l2 c2 w2.
  destruct (addToCart_with_cart context w wc pid product qa pre cart post
              Hpid Hget Hrun Hloc) as (da & Ha).
  assert (Hloc1 : located (c_tenantId context) (c_userId context) w1 pre c1 post)
    by (apply located_after_update; exact Hloc).
  assert (Hget1 : ProductsRepo.getById (c_tenantId context) pid w1 = Some product).
  { rewrite <- Hget. apply getById_catalog. exact Hcat. }
  destruct (addToCart_with_cart context w1 w1 pid product qb pre c1 post Hpid Hget1
              (active_or_new_cart_located context w1 pre c1 post Hloc1) Hloc1)
    as (db & Hb).
  exists da, db. split; [exact Ha|]. split; [exact Hb|]. split; [exact Hloc1|].
  destruct Hloc as (Ho & Hpre & Hc). split; [reflexivity | split; [exact Hpre | exact Hc]].
Qed.

Lemma Qlt_bool_iff (x y : Q) : Qlt_bool x y = true <-> (x < y)%Q.
Proof.
  unfold Qlt_bool. rewrite negb_true_iff. split.
  - intros H. apply Qnot_le_lt. intros Hle. apply Qle_bool_iff in Hle. congruence.
  - intros H. apply not_true_is_false. intros Hle. apply Qle_bool_iff in Hle.
    exact (Qlt_not_le _ _ H Hle).
Qed.

(** The price rule of [getProductPrice]. *)
Lemma getProductPrice_rule (product : Product) :
  ((0 < sale (price product))%Q ->
   ProductsRepo.getProductPrice product = sale (price product))
  /\ (~ (0 < sale (price product))%Q ->
      ProductsRepo.getProductPrice product = regular (price product)).
Proof.
  unfold ProductsRepo.getProductPrice.
  destruct (Qlt_bool 0 (sale (price product))) eqn:Hs.
  - apply Qlt_bool_iff in Hs. split; [reflexivity | contradiction].
  - split; [|reflexivity]. intros H. apply Qlt_bool_iff in H. congruence.
Qed.

(** The total that [updateProducts] computes with [reduce] is the sum over
    the lines of [valid_price * qty]. *)
Lemma total_of_line_sum (lines : list OrderProduct) :
  (OrdersRepo.total_of lines == line_sum lines)%Q.
Proof.
  unfold OrdersRepo.total_of.
  assert (H : forall acc,
            (fold_left (fun sum p => sum + valid_price p * qty p) lines acc
             == acc + line_sum lines)%Q).
  { induction lines as [|l rest IH]; intros acc; simpl.
    - ring.
    - rewrite IH. ring. }
  rewrite H. ring.
Qed.

(** Two calls for a product that the cart does not hold yet. *)
Lemma addToCart_fresh_twice (context : ToolContext) (w : World) (pid : string)
  (product : Product) (q1 q2 : Q) :
  pid <> "" ->
  ProductsRepo.getById (c_tenantId context) pid w = Some product ->
  cart_addressable (c_tenantId context) (c_userId context) w ->
  lines_of (line_id product pid) (cart_lines (c_tenantId context) (c_userId context) w) = [] ->
  exists d1 w1 d2 w2 line,
    addToCart (cart_args pid q1) context w = (Ok (succeeded d1), w1)
    /\ addToCart (cart_args pid q2) context w1 = (Ok (succeeded d2), w2)
    /\ cart_total_is_line_sum (c_tenantId context) (c_userId context) w1
    /\ cart_total_is_line_sum (c_tenantId context) (c_userId context) w2
    /\ lines_of (line_id product pid)
         (cart_lines (c_tenantId context) (c_userId context) w2) = [line]
    /\ qty line = (q1 + q2)%Q
    /\ snd (addToCart (cart_args pid q1) context
              (snd (addToCart (cart_args pid q2) context w))) = w2.
Proof.
  intros Hpid Hget Haddr Hfresh.
  destruct (active_or_new_cart_run context w Haddr)
    as (cart & wc & pre & post & Hrun & Hloc & Hlines & Hcat).
  rewrite <- Hlines in Hfresh.
  destruct (addToCart_two_calls context w wc pid product q1 q2 pre cart post
              Hpid Hget Hrun Hloc Hcat) as (d1 & d2 & H1 & H2 & Hloc1 & Hloc2).
  destruct (addToCart_two_calls context w wc pid product q2 q1 pre cart post
              Hpid Hget Hrun Hloc Hcat) as (d1' & d2' & H1' & H2' & _ & _).
  cbv zeta in *.
  do 5 eexists. split; [exact H1|]. split; [exact H2|].
  split; [|split; [|split; [|split]]].
  - eexists. split; [exact (located_getActiveCart _ _ _ _ _ _ Hloc1)|].
    cbn [o_total products OrdersRepo.set_products]. apply total_of_line_sum.
  - eexists. split; [exact (located_getActiveCart _ _ _ _ _ _ Hloc2)|].
    cbn [o_total products OrdersRepo.set_products]. apply total_of_line_sum.
  - unfold cart_lines. rewrite (located_getActiveCart _ _ _ _ _ _ Hloc2).
    cbn [products OrdersRepo.set_products].
    rewrite (add_line_twice product _ q1 q2 _ _ Hfresh).
    rewrite lines_of_app, Hfresh. unfold lines_of. simpl.
    rewrite bump_line_matches, new_line_matches. reflexivity.
  - reflexivity.
  - rewrite H1'. cbn [snd]. rewrite H2'. cbn [snd].
    rewrite (add_line_twice product _ q2 q1 _ _ Hfresh).
    rewrite (add_line_twice product _ q1 q2 _ _ Hfresh).
    now rewrite (bump_new_line_comm product _ q1 q2).
Qed.

(** C3. For a product of the catalog that the user's cart does not hold
    yet, two [add_to_cart] calls with quantities [q1] and [q2] both succeed
    and leave exactly one line for the product, with [qty = q1 + q2]; after
    each call the persisted total of the cart is the sum of
    [valid_price * qty] over its lines; and issuing the calls in the other
    order leaves the stores in the same state. *)
Theorem addToCart_twice_merges (context : ToolContext) (w : World) (pid : string)
  (product : Product) (q1 q2 : Q) :
  pid <> "" ->
  ProductsRepo.getById (c_tenantId context) pid w = Some product ->
  cart_addressable (c_tenantId context) (c_userId context) w ->
  lines_of (line_id product pid) (cart_lines (c_tenantId context) (c_userId context) w) = [] ->
  two_calls_leave_sum context w pid product q1 q2
  /\ exists d1 w1 d2 w2 line,
       addToCart (cart_args pid q1) context w = (Ok (succeeded d1), w1)
       /\ addToCart (cart_args pid q2) context w1 = (Ok (succeeded d2), w2)
       /\ cart_total_is_line_sum (c_tenantId context) (c_userId context) w1
       /\ cart_total_is_line_sum (c_tenantId context) (c_userId context) w2
       /\ lines_of (line_id product pid)
            (cart_lines (c_tenantId context) (c_userId context) w2) = [line]
       /\ qty line = (q1 + q2)%Q
       /\ snd (addToCart (cart_args pid q1) context
                 (snd (addToCart (cart_args pid q2) context w))) = w2.
Proof.
  intros Hpid Hget Haddr Hfresh.
  destruct (addToCart_fresh_twice context w pid product q1 q2 Hpid Hget Haddr Hfresh)
    as (d1 & w1 & d2 & w2 & line & H1 & H2 & Ht1 & Ht2 & Hline & Hqty & Hcomm).
  split.
  - exists line. rewrite H1. cbn [snd]. rewrite H2. cbn [snd].
    split; [exact Hline | now rewrite Hqty].
  - exists d1, w1, d2, w2, line. auto 8.
Qed.

(** C10. The unit price that [add_to_cart] files is the sale price when
    [price.sale > 0] and the regular price otherwise. A successful call
    persists the cart with the product's line carrying that price as
    [valid_price] and with the total recomputed from the lines; when the
    cart already held the product, the existing line keeps its place, its
    quantity grows and its [valid_price] is overwritten with that price. *)
Theorem addToCart_files_current_price (context : ToolContext) (w : World) (pid : string)
  (product : Product) (quantity : Q) :
  pid <> "" ->
  ProductsRepo.getById (c_tenantId context) pid w = Some product ->
  cart_addressable (c_tenantId context) (c_userId context) w ->
  let price := ProductsRepo.getProductPrice product in
  let before := cart_lines (c_tenantId context) (c_userId context) w in
  ((0 < sale (Store.price product))%Q -> price = sale (Store.price product))
  /\ (~ (0 < sale (Store.price product))%Q -> price = regular (Store.price product))
  /\ exists d w' cart',
       addToCart (cart_args pid quantity) context w = (Ok (succeeded d), w')
       /\ OrdersRepo.getActiveCart (c_tenantId context) (c_userId context) w' = Some cart'
       /\ o_total cart' = OrdersRepo.total_of (products cart')
       /\ (lines_of (line_id product pid) before = [] ->
           exists line, products cart' = (before ++ [line])%list
                        /\ valid_price line = price /\ qty line = quantity)
       /\ (forall pre old post,
             before = (pre ++ old :: post)%list ->
             lines_of (line_id product pid) pre = [] ->
             line_matches (line_id product pid) old = true ->
             exists line, products cart' = (pre ++ line :: post)%list
                          /\ valid_price line = price
                          /\ qty line = (qty old + quantity)%Q).
Proof.
  intros Hpid Hget Haddr price before.
  split; [apply getProductPrice_rule|]. split; [apply getProductPrice_rule|].
  destruct (active_or_new_cart_run context w Haddr)
    as (cart & wc & pre0 & post0 & Hrun & Hloc & Hlines & Hcat).
  destruct (addToCart_with_cart context w wc pid product quantity pre0 cart post0
              Hpid Hget Hrun Hloc) as (d & Hcall).
  cbv zeta in Hcall.
  do 3 eexists. split; [exact Hcall|]. split.
  { apply (located_getActiveCart _ _ _ pre0 _ post0).
    apply located_after_update. exact Hloc. }
  split; [reflexivity|]. split.
  - intros Hnone. cbn [products OrdersRepo.set_products].
    rewrite Hlines. fold before. unfold add_line.
    rewrite (merge_line_none _ _ _ _ Hnone).
    eexists. split; [reflexivity | split; reflexivity].
  - intros pre old post Hsplit Hpre Hold. cbn [products OrdersRepo.set_products].
    rewrite Hlines. fold before. rewrite Hsplit. unfold add_line.
    rewrite (merge_line_first _ _ _ _ _ _ Hpre Hold).
    eexists. split; [reflexivity | split; reflexivity].
Qed.

End CartClaims.

Section CartRuns.
Import Store ToolRegistry Cart SampleEnv Carts.

Lemma one_table_found :
  @ProductsRepo.getById plain (c_tenantId shop_context) "mesa-roble" one_table
  = Some Sample.table.
Proof. vm_compute. reflexivity. Qed.

Lemma one_table_addressable :
  @cart_addressable plain (c_tenantId shop_context) (c_userId shop_context) one_table.
Proof. unfold cart_addressable. simpl. intros o []. Qed.

Lemma mesa_named : "mesa-roble" <> "".
Proof. discriminate. Qed.

Lemma addToCart_twice_merges_witness :
  "mesa-roble" <> ""
  /\ @ProductsRepo.getById plain (c_tenantId shop_context) "mesa-roble" one_table
     = Some Sample.table
  /\ @cart_addressable plain (c_tenantId shop_context) (c_userId shop_context) one_table
  /\ lines_of (line_id Sample.table "mesa-roble")
       (cart_lines (c_tenantId shop_context) (c_userId shop_context) one_table) = []
  /\ @two_calls_leave_sum plain shop_context one_table "mesa-roble" Sample.table 2 3
  /\ exists d1 w1 d2 w2 line,
       @addToCart plain (cart_args "mesa-roble" 2) shop_context one_table
       = (Ok (succeeded d1), w1)
       /\ @addToCart plain (cart_args "mesa-roble" 3) shop_context w1
          = (Ok (succeeded d2), w2)
       /\ cart_total_is_line_sum (c_tenantId shop_context) (c_userId shop_context) w1
       /\ cart_total_is_line_sum (c_tenantId shop_context) (c_userId shop_context) w2
       /\ lines_of (line_id Sample.table "mesa-roble")
            (cart_lines (c_tenantId shop_context) (c_userId shop_context) w2) = [line]
       /\ qty line = (2 + 3)%Q
       /\ snd (@addToCart plain (cart_args "mesa-roble" 2) shop_context
                 (snd (@addToCart plain (cart_args "mesa-roble" 3) shop_context one_table)))
          = w2.
Proof.
  split; [exact mesa_named|]. split; [exact one_table_found|].
  split; [exact one_table_addressable|]. split; [reflexivity|].
  exact (@addToCart_twice_merges plain shop_context one_table "mesa-roble" Sample.table
           2 3 mesa_named one_table_found one_table_addressable eq_refl).
Defined.

Lemma addToCart_files_current_price_witness :
  "mesa-roble" <> ""
  /\ @ProductsRepo.getById plain (c_tenantId shop_context) "mesa-roble" one_table
     = Some Sample.table
  /\ @cart_addressable plain (c_tenantId shop_context) (c_userId shop_context) one_table
  /\ exists d w' cart',
       @addToCart plain (cart_args "mesa-roble" 2) shop_context one_table
       = (Ok (succeeded d), w')
       /\ OrdersRepo.getActiveCart (c_tenantId shop_context) (c_userId shop_context) w'
          = Some cart'
       /\ o_total cart' = OrdersRepo.total_of (products cart').
Proof.
  split; [exact mesa_named|]. split; [exact one_table_found|].
  split; [exact one_table_addressable|].
  destruct (proj2 (proj2 (@addToCart_files_current_price plain shop_context one_table
                            "mesa-roble" Sample.table 2 mesa_named one_table_found
                            one_table_addressable)))
    as (d & w' & cart' & Hrun & Hcart & Htotal & _).
  exists d, w', cart'. auto.
Defined.

(** A cart that already holds one table: after adding two and then three
    more its line holds six, not five. *)
Lemma addToCart_held_product_counterexample :
  ~ @two_calls_leave_sum plain shop_context one_table_in_cart "mesa-roble" Sample.table
      2 3.
Proof.
  intros (line & Hline & Hqty).
  assert (Hsix : map qty
                   (lines_of (line_id Sample.table "mesa-roble")
                      (cart_lines (c_tenantId shop_context) (c_userId shop_context)
                         (snd (@addToCart plain (cart_args "mesa-roble" 3) shop_context
                                 (snd (@addToCart plain (cart_args "mesa-roble" 2)
                                         shop_context one_table_in_cart))))))
                 = [(1 + 2 + 3)%Q]) by (vm_compute; reflexivity).
  rewrite Hline in Hsix. inversion Hsix as [Hsame]. rewrite Hsame in Hqty.
  discriminate Hqty.
Qed.

(** The cart after adding two and then three tables: one line of five at
    the sale price, and the total for five. *)
Example cart_after_two_calls :
  let w2 := snd (@addToCart plain (cart_args "mesa-roble" 3) shop_context
                   (snd (@addToCart plain (cart_args "mesa-roble" 2) shop_context one_table))) in
  match OrdersRepo.getActiveCart "shop.example" "ana@example.com" w2 with
  | Some cart =>
      map (fun l => (productId l, qty l, valid_price l)) (products cart)
      = [("65f0c0ffee0000000000000a", (2 + 3)%Q, 299.90%Q)]
      /\ (o_total cart == 1499.5)%Q
  | None => False
  end.
Proof. vm_compute. split; reflexivity. Qed.

(** A cart that already holds the product: the line is merged, not
    duplicated, and its price is refreshed. *)
Example merge_refreshes_price :
  let old := new_line Sample.table "65f0c0ffee0000000000000a" 1 350 in
  add_line Sample.table "65f0c0ffee0000000000000a" 2
    (ProductsRepo.getProductPrice Sample.table) [old]
  = [bump_line 2 299.90 old].
Proof. reflexivity. Qed.

End CartRuns.

(* ================================================================== *)
(** * Facts: [search_product]                                          *)
(* ================================================================== *)

Section Sorting.
Context {A : Type} (leb : A -> A -> bool).
Hypothesis leb_total : forall a b, leb a b = true \/ leb b a = true.
Hypothesis leb_trans : forall a b c, leb a b = true -> leb b c = true -> leb a c = true.

Let le (a b : A) : Prop := leb a b = true.

Lemma insert_permutation (x : A) (l : list A) :
  Permutation (x :: l) (Cursor.insert leb x l).
Proof.
  induction l as [|y rest IH]; simpl; [apply Permutation_refl|].
  destruct (leb x y); [apply Permutation_refl|].
  eapply perm_trans; [apply perm_swap | now apply perm_skip].
Qed.

Lemma sort_permutation (l : list A) : Permutation (Cursor.sort leb l) l.
Proof.
  induction l as [|x rest IH]; simpl; [constructor|].
  eapply perm_trans; [apply Permutation_sym, insert_permutation | now apply perm_skip].
Qed.

Lemma insert_forall (P : A -> Prop) (x : A) (l : list A) :
  P x -> Forall P l -> Forall P (Cursor.insert leb x l).
Proof.
  intros Hx Hl. induction Hl as [|y rest Hy Hrest IH]; simpl.
  - now constructor.
  - destruct (leb x y); repeat constructor; assumption.
Qed.

Lemma insert_sorted (x : A) (l : list A) :
  StronglySorted le l -> StronglySorted le (Cursor.insert leb x l).
Proof.
  induction 1 as [|y rest Hrest IH Hall]; simpl.
  - repeat constructor.
  - destruct (leb x y) eqn:Hxy.
    + constructor; [now constructor|].
      constructor; [exact Hxy|].
      eapply Forall_impl; [|exact Hall]. intros z Hz. exact (leb_trans _ _ _ Hxy Hz).
    + constructor; [exact IH|].
      apply insert_forall; [|exact Hall].
      destruct (leb_total x y) as [H | H]; [congruence | exact H].
Qed.

Lemma sort_sorted (l : list A) : StronglySorted le (Cursor.sort leb l).
Proof.
  induction l as [|x rest IH]; simpl; [constructor | now apply insert_sorted].
Qed.

Lemma firstn_subset (n : nat) (l : list A) (z : A) : In z (firstn n l) -> In z l.
Proof.
  revert n. induction l as [|y rest IH]; intros [|n]; simpl; try tauto.
  intros [-> | Hz]; [now left | right; exact (IH n Hz)].
Qed.

Lemma firstn_sorted (n : nat) (l : list A) :
  StronglySorted le l -> StronglySorted le (firstn n l).
Proof.
  intros Hl. revert n. induction Hl as [|y rest Hrest IH Hall]; intros [|n]; simpl;
    try constructor.
  - apply IH.
  - rewrite Forall_forall in *. intros z Hz. apply Hall.
    exact (firstn_subset _ _ _ Hz).
Qed.

Lemma limit_sorted (n : Z) (l : list A) :
  StronglySorted le l -> StronglySorted le (Cursor.limit n l).
Proof.
  intros Hl. unfold Cursor.limit. destruct (n =? 0)%Z; [exact Hl | now apply firstn_sorted].
Qed.

End Sorting.

Section SearchFacts.
Import Config Store ToolRegistry Search.
Context {E : Env}.

Lemma order_leb_total (a b : Product) :
  ProductsRepo.order_leb a b = true \/ ProductsRepo.order_leb b a = true.
Proof.
  unfold ProductsRepo.order_leb.
  destruct (order a) as [x|], (order b) as [y|]; auto.
  destruct (Qle_bool x y) eqn:Hxy; [now left | right].
  apply Qle_bool_iff. apply Qlt_le_weak. apply Qnot_le_lt.
  intros H. apply Qle_bool_iff in H. congruence.
Qed.

Lemma order_leb_trans (a b c : Product) :
  ProductsRepo.order_leb a b = true -> ProductsRepo.order_leb b c = true ->
  ProductsRepo.order_leb a c = true.
Proof.
  unfold ProductsRepo.order_leb.
  destruct (order a) as [x|], (order b) as [y|], (order c) as [z|];
    try reflexivity; try discriminate.
  rewrite !Qle_bool_iff. apply Qle_trans.
Qed.








End SearchFacts.

Section SearchRuns.
Import Config Store ToolRegistry Search SampleEnv.




(** With no item at all the result still has both fields. *)
Example search_in_empty_catalog :
  fst (@searchProduct plain (JObj [])
         shop_context (world default_shop [] []))
  = Ok (succeeded (JObj [("products", JArr []); ("count", JNum 0)])).
Proof. vm_compute. reflexivity. Qed.

End SearchRuns.

(* ================================================================== *)
(** * Facts: custom tools                                              *)
(* ================================================================== *)

Section Replacing.
Import PathTemplate.










End Replacing.

Section Templates.
Import Config Store ToolRegistry PathTemplate.
Context {E : Env}.












End Templates.

Section CustomToolClaims.
Import Config Store ToolRegistry PathTemplate.
Context {E : Env}.




End CustomToolClaims.

Section CustomToolRuns.
Import Config Store ToolRegistry PathTemplate SampleEnv.



(** The same tool declared as a GET sends the other argument in the query. *)
Example students_request_get :
  @custom_request plain
    {| name := Some "get_student"; baseUrl := Some "https://school.example";
       path := Some "/api/students/{studentId}"; method := Some "GET";
       apiKeyEncrypted := None; ct_enabled := Some true; description := None;
       parameters := None |}
    (JObj [("studentId", JStr "42"); ("term", JStr "2024")])
  = Ok ("https://school.example/api/students/42?term=2024",
        {| ExternalApiService.o_method := Some "GET";
           ExternalApiService.o_body := JUndefined;
           ExternalApiService.o_apiKeyEncrypted := None |}).
Proof. reflexivity. Qed.


End CustomToolRuns.

(* ================================================================== *)
(** * Facts: the shape of the orchestrator's responses                 *)
(* ================================================================== *)

Section Outcomes.
Import Store Outcome.

Lemma always_ret {A : Type} (P : A -> Prop) (a : A) : P a -> always P (ret a).
Proof. intros Ha w b w' Hrun. unfold ret in Hrun. now inversion Hrun; subst. Qed.

Lemma always_throw {A : Type} (P : A -> Prop) (e : string) : always P (throw e).
Proof. intros w b w' Hrun. unfold throw in Hrun. discriminate. Qed.

Lemma always_lift {A : Type} (P : A -> Prop) (e : Exc A) :
  (forall a, e = Ok a -> P a) -> always P (lift e).
Proof. intros He w b w' Hrun. unfold lift in Hrun. inversion Hrun; subst. now apply He. Qed.

Lemma always_bind {A B : Type} (Q : A -> Prop) (P : B -> Prop) (m : M A) (k : A -> M B) :
  always Q m -> (forall a, Q a -> always P (k a)) -> always P (bind m k).
Proof.
  intros Hm Hk w b w' Hrun. unfold bind in Hrun.
  destruct (m w) as [[a|e] w1] eqn:Hmw; [|discriminate].
  exact (Hk a (Hm _ _ _ Hmw) _ _ _ Hrun).
Qed.

Lemma always_then {A B : Type} (P : B -> Prop) (m : M A) (k : A -> M B) :
  (forall a, always P (k a)) -> always P (bind m k).
Proof.
  intros Hk. apply (always_bind (fun _ => True)); [intros w a w' _; exact I | auto].
Qed.

Lemma always_catch {A : Type} (P : A -> Prop) (m : M A) (handler : string -> M A) :
  always P m -> (forall e, always P (handler e)) -> always P (catch m handler).
Proof.
  intros Hm Hh w b w' Hrun. unfold catch in Hrun.
  destruct (m w) as [[a|e] w1] eqn:Hmw.
  - inversion Hrun; subst. exact (Hm _ _ _ Hmw).
  - exact (Hh e _ _ _ Hrun).
Qed.

Lemma always_weaken {A : Type} (P Q : A -> Prop) (m : M A) :
  (forall a, P a -> Q a) -> always P m -> always Q m.
Proof. intros HPQ Hm w a w' Hrun. exact (HPQ _ (Hm _ _ _ Hrun)). Qed.

End Outcomes.

Section Shapes.
Import Store Config LLM ToolRegistry PromptBuilder AgentOrchestrator Shape Outcome.
Context {E : Env} {P : Prompts}.

Lemma null_action_shaped : null_action_has_empty_payload null_action.
Proof. intros _. reflexivity. Qed.

(** An action whose type is truthy satisfies the invariant. *)
Lemma typed_action_shaped (type payload : JVal) :
  truthy type = true -> null_action_has_empty_payload (mk_action type payload).
Proof.
  intros Htype Hnull. unfold mk_action in Hnull. cbn in Hnull.
  destruct type; simpl in *; discriminate.
Qed.

Lemma shaped_action (message action : JVal) (r : AgentResponse) :
  shaped message action = Ok r -> AgentOrchestrator.action r = action.
Proof.
  unfold shaped. destruct (generateAudioDescription message action); simpl; [|discriminate].
  intros Hr. now inversion Hr.
Qed.

Lemma plain_response_action (content : string) (r : AgentResponse) :
  plain_response content = Ok r -> action r = null_action.
Proof.
  unfold plain_response. destruct (generateAudioDescription _ _); simpl; [|discriminate].
  intros Hr. now inversion Hr.
Qed.

(** What [parseLLMResponse] returns for an answer of the provider. *)
Lemma parseLLMResponse_shaped (response : LLMResponse) (r : AgentResponse) :
  reply_actions_well_formed -> from_provider response ->
  parseLLMResponse (r_content response) = Ok r -> well_shaped r.
Proof.
  intros Hreplies Hfrom. unfold parseLLMResponse, well_shaped.
  assert (Hplain : plain_response (r_content response) = Ok r ->
                   null_action_has_empty_payload (action r)).
  { intros Hr. rewrite (plain_response_action _ _ Hr). exact null_action_shaped. }
  destruct (parse_body (r_content response)) as [r0|e] eqn:Hbody; [|exact Hplain].
  intros Hr. inversion Hr; subst r0. clear Hr.
  unfold parse_body in Hbody.
  destruct (matchBraces (r_content response)) as [text|] eqn:Hbraces; [|auto].
  destruct (JSON_parse text) as [parsed|e] eqn:Hparse; simpl in Hbody; [|discriminate].
  destruct (is_nullish parsed); [discriminate|].
  match type of Hbody with exc_bind ?a _ = _ => destruct a end;
    simpl in Hbody; [|discriminate].
  inversion Hbody; subst r. cbn [action respond].
  destruct (truthy (jget parsed "action")) eqn:Haction.
  - unfold jor. rewrite Haction. exact (Hreplies _ _ _ Hfrom Hbraces Hparse Haction).
  - unfold jor. rewrite Haction. exact null_action_shaped.
Qed.

Lemma generate_from_provider (config : LLMConfig) (messages : list LLMMessage)
  (tools : option (list ToolDefinition)) :
  always from_provider (generate config messages tools).
Proof.
  intros w response w' Hrun. unfold generate in Hrun. inversion Hrun.
  unfold from_provider. eauto.
Qed.

(** A step of the action loop keeps the invariant. *)
Lemma action_step_shaped (a : JVal) (run : ToolRun) :
  null_action_has_empty_payload a -> null_action_has_empty_payload (action_step a run).
Proof.
  intros Ha. unfold action_step.
  destruct (success (result run)); [|exact Ha].
  repeat match goal with
         | |- context [if ?b then _ else _] => destruct b
         end; intros Hnull; discriminate Hnull.
Qed.

Lemma action_loop_shaped (runs : list ToolRun) (a : JVal) :
  null_action_has_empty_payload a ->
  null_action_has_empty_payload (fold_left action_step runs a).
Proof.
  revert a. induction runs as [|run rest IH]; intros a Ha; simpl; [exact Ha|].
  apply IH. now apply action_step_shaped.
Qed.

Lemma jor_null_action_shaped (a : JVal) :
  null_action_has_empty_payload a -> null_action_has_empty_payload (jor a null_action).
Proof.
  intros Ha. unfold jor. destruct (truthy a); [exact Ha | exact null_action_shaped].
Qed.

End Shapes.

Section ShapeClaim.
Import Store Config LLM ToolRegistry PromptBuilder AgentOrchestrator Shape Outcome.
Context {E : Env} {P : Prompts}.
Hypothesis replies_ok : reply_actions_well_formed.

Lemma always_shaped (message action : JVal) :
  null_action_has_empty_payload action -> always well_shaped (lift (shaped message action)).
Proof.
  intros Ha. apply always_lift. intros r Hr. unfold well_shaped.
  now rewrite (shaped_action _ _ _ Hr).
Qed.

Lemma generateResponseFromToolResults_shaped (agentConfig : AgentConfig)
  (originalMessages : list LLMMessage) (toolResults : list ToolRun) :
  always well_shaped
    (generateResponseFromToolResults agentConfig originalMessages toolResults).
Proof.
  unfold generateResponseFromToolResults.
  eapply always_bind; [apply generate_from_provider|]. intros followUp Hfrom.
  eapply always_bind.
  { apply always_lift. intros r Hr. exact (parseLLMResponse_shaped _ _ replies_ok Hfrom Hr). }
  intros parsed Hparsed. apply always_then. intros audio. apply always_ret.
  unfold well_shaped. cbn [action respond].
  apply action_loop_shaped. now apply jor_null_action_shaped.
Qed.

Lemma success_response_shaped (toolResult : ToolResult) (parsedResponse : AgentResponse)
  (actionType actionPayload : JVal) (agentConfig : AgentConfig) (userMessage : string) :
  well_shaped parsedResponse ->
  always well_shaped
    (success_response toolResult parsedResponse actionType actionPayload agentConfig
       userMessage).
Proof.
  intros Hparsed. unfold success_response.
  destruct (is_str actionType "search_product" && truthy (data toolResult)).
  { destruct (js_gt _ _).
    - apply always_then. intros message.
      apply always_shaped. now apply typed_action_shaped.
    - apply always_shaped. now apply typed_action_shaped. }
  destruct (is_str actionType "show_product" && truthy (data toolResult)).
  { apply always_shaped. now apply typed_action_shaped. }
  destruct (is_str actionType "add_to_cart" && truthy (data toolResult)).
  { apply always_shaped. now apply typed_action_shaped. }
  destruct (is_str actionType "get_order" && truthy (data toolResult)).
  { apply always_then. intros message. apply always_shaped. now apply typed_action_shaped. }
  destruct (truthy actionType) eqn:Htype.
  - apply always_then. intros custom. apply always_ret.
    unfold well_shaped. cbn [action respond]. now apply typed_action_shaped.
  - apply always_shaped. exact Hparsed.
Qed.

Lemma executeActionFromResponse_shaped (parsedResponse : AgentResponse)
  (context : OrchestratorContext) (agentConfig : AgentConfig)
  (extractedContext : ExtractedContext) (userMessage : string) :
  well_shaped parsedResponse ->
  always well_shaped
    (executeActionFromResponse parsedResponse context agentConfig extractedContext
       userMessage).
Proof.
  intros Hparsed. unfold executeActionFromResponse. apply always_catch.
  - apply always_then. intros [toolResult|]; [|now apply always_ret].
    destruct (needsUserInput toolResult).
    + apply always_lift. intros r Hr. unfold clarifying_response in Hr.
      destruct (generateAudioDescription _ _); simpl in Hr; [|discriminate].
      inversion Hr. exact null_action_shaped.
    + destruct (success toolResult).
      * now apply success_response_shaped.
      * apply always_lift. intros r Hr. unfold failed_response in Hr.
        destruct (generateAudioDescription _ _); simpl in Hr; [|discriminate].
        inversion Hr. exact null_action_shaped.
  - intros e. unfold caught_response. apply always_then. intros audio.
    apply always_ret. exact null_action_shaped.
Qed.

Lemma answer_shaped (context : OrchestratorContext) (agentConfig : AgentConfig)
  (messages : list LLMMessage) (extractedContext : ExtractedContext)
  (userMessage : string) (llmResponse : LLMResponse) :
  from_provider llmResponse ->
  always (fun out => well_shaped (fst out))
    (answer context agentConfig messages extractedContext userMessage llmResponse).
Proof.
  intros Hfrom. unfold answer.
  assert (Hinline :
    always (fun out => well_shaped (fst out))
      (bind (lift (parseLLMResponse (r_content llmResponse)))
         (fun parsedResponse =>
            if truthy (jget (action parsedResponse) "type")
            then bind (executeActionFromResponse parsedResponse context agentConfig
                         extractedContext userMessage)
                   (fun finalResponse => ret (finalResponse, @nil string))
            else ret (parsedResponse, @nil string)))).
  { eapply always_bind.
    { apply always_lift. intros r Hr.
      exact (parseLLMResponse_shaped _ _ replies_ok Hfrom Hr). }
    intros parsed Hparsed. destruct (truthy _).
    - eapply always_bind; [now apply executeActionFromResponse_shaped|].
      intros final Hfinal. now apply always_ret.
    - now apply always_ret. }
  destruct (toolCalls llmResponse) as [[|first others]|]; try exact Hinline.
  apply always_then. intros toolResults.
  eapply always_bind; [apply generateResponseFromToolResults_shaped|].
  intros final Hfinal. now apply always_ret.
Qed.

(** C9, as the code has it. When every action object that the provider's
    JSON replies carry respects the invariant, every response that
    [processMessage] returns respects it: a null or undefined [action.type]
    comes with the empty object as [action.payload]. The actions that the
    orchestrator builds itself always respect it. *)
Theorem processMessage_action_shape (context : OrchestratorContext)
  (userMessage : string) (w : World) (r : AgentResponse) (w' : World) :
  processMessage context userMessage w = (Ok r, w') ->
  null_action_has_empty_payload (action r).
Proof.
  revert w r w'. change (always well_shaped (processMessage context userMessage)).
  unfold processMessage.
  apply always_then. intros startTime. apply always_then. intros [agentConfig|].
  2: apply always_throw.
  apply always_then. intros lastMessages. apply always_then. intros extractedContext.
  apply always_then. intros messages.
  eapply always_bind; [apply generate_from_provider|]. intros llmResponse Hfrom.
  destruct (token_counts _ _) as [[actualInputTokens outputTokens] totalTokens].
  eapply always_bind; [now apply answer_shaped|].
  intros [finalResponse toolsUsed] Hfinal. cbn [fst] in Hfinal.
  apply always_then. intros now. apply always_then. intros _.
  apply always_ret. exact Hfinal.
Qed.

End ShapeClaim.

(* ================================================================== *)
(** * Facts: which steps of a turn call the provider                   *)
(* ================================================================== *)

Section Quiet.
Import Store Outcome.

Lemma quiet_ret {A : Type} (a : A) : quiet (ret a).
Proof. intros w. reflexivity. Qed.

Lemma quiet_throw {A : Type} (e : string) : quiet (@throw A e).
Proof. intros w. reflexivity. Qed.

Lemma quiet_lift {A : Type} (e : Exc A) : quiet (lift e).
Proof. intros w. reflexivity. Qed.

Lemma quiet_gets {A : Type} (f : World -> A) : quiet (gets f).
Proof. intros w. reflexivity. Qed.

Lemma quiet_bind {A B : Type} (m : M A) (k : A -> M B) :
  quiet m -> (forall a, quiet (k a)) -> quiet (bind m k).
Proof.
  intros Hm Hk w. unfold bind. specialize (Hm w).
  destruct (m w) as [[a|e] w1]; simpl in *.
  - now rewrite Hk.
  - exact Hm.
Qed.

Lemma quiet_catch {A : Type} (m : M A) (handler : string -> M A) :
  quiet m -> (forall e, quiet (handler e)) -> quiet (catch m handler).
Proof.
  intros Hm Hh w. unfold catch. specialize (Hm w).
  destruct (m w) as [[a|e] w1]; simpl in *.
  - exact Hm.
  - now rewrite Hh.
Qed.

Lemma quiet_update {A : Type} (f : World -> A * World) :
  (forall w, llm_log (snd (f w)) = llm_log w) -> quiet (update f).
Proof.
  intros Hf w. unfold update. specialize (Hf w). now destruct (f w).
Qed.

End Quiet.

Ltac quiet_step :=
  match goal with
  | |- Outcome.quiet (Store.ret _) => apply quiet_ret
  | |- Outcome.quiet (Store.throw _) => apply quiet_throw
  | |- Outcome.quiet (Store.lift _) => apply quiet_lift
  | |- Outcome.quiet (Store.gets _) => apply quiet_gets
  | |- Outcome.quiet (Store.bind _ _) => apply quiet_bind; [|intros ?]
  | |- Outcome.quiet (Store.catch _ _) => apply quiet_catch; [|intros ?]
  | |- Outcome.quiet (match ?x with _ => _ end) => destruct x
  end.

Section QuietTools.
Import Store Config ToolRegistry Outcome.
Context {E : Env}.

Lemma quiet_fetch (url : string) (options : ExternalApiService.Options) :
  quiet (ExternalApiService.fetch url options).
Proof. intros w. reflexivity. Qed.

Lemma quiet_fetchProducts (tenant apiUrl : string) (key : option string)
  (params : option ExternalApiService.Params) :
  quiet (ExternalApiService.fetchProducts tenant apiUrl key params).
Proof.
  unfold ExternalApiService.fetchProducts.
  apply quiet_bind; [apply quiet_lift|]. intros url.
  apply quiet_bind; [apply quiet_fetch|]. intros response.
  repeat quiet_step.
Qed.

Lemma quiet_executeCustomTool (customTool : CustomTool) (args : JVal)
  (context : ToolContext) :
  quiet (executeCustomTool customTool args context).
Proof.
  unfold executeCustomTool. destruct (negb _); [apply quiet_ret|].
  apply quiet_catch; [|intros e; apply quiet_ret].
  apply quiet_bind; [apply quiet_lift|]. intros [url options].
  apply quiet_bind; [apply quiet_fetch|]. intros response. apply quiet_ret.
Qed.

Lemma quiet_searchProduct (args : JVal) (context : ToolContext) :
  quiet (searchProduct args context).
Proof.
  unfold searchProduct, mongo_search.
  apply quiet_bind; [apply quiet_lift|]. intros args'.
  apply quiet_bind; [apply quiet_lift|]. intros searchQuery.
  destruct (negb _); [apply quiet_ret|].
  apply quiet_catch; [|intros e; apply quiet_ret].
  destruct (Config.searchProduct _) as [[en [[]|]]|];
    repeat first [apply quiet_fetchProducts | quiet_step].
Qed.

Lemma generateOrderNumber_quiet (w : World) :
  llm_log (snd (OrdersRepo.generateOrderNumber w)) = llm_log w.
Proof. reflexivity. Qed.

Lemma create_quiet (order : OrdersRepo.NewOrder) (w : World) :
  llm_log (snd (OrdersRepo.create order w)) = llm_log w.
Proof. reflexivity. Qed.

Lemma updateProducts_quiet (domain orderNo : string) (ps : list OrderProduct) (w : World) :
  llm_log (snd (OrdersRepo.updateProducts domain orderNo ps w)) = llm_log w.
Proof.
  unfold OrdersRepo.updateProducts. now destruct (OrdersRepo.findOneAndUpdate _ _ _).
Qed.

Lemma quiet_addToCart (args : JVal) (context : ToolContext) :
  quiet (addToCart args context).
Proof.
  unfold addToCart, active_or_new_cart.
  apply quiet_bind; [apply quiet_lift|]. intros args'.
  destruct (negb _); [apply quiet_ret|].
  apply quiet_catch; [|intros e; apply quiet_ret].
  apply quiet_bind; [apply quiet_gets|]. intros [product|]; [|apply quiet_ret].
  apply quiet_bind.
  { apply quiet_bind; [apply quiet_gets|]. intros [cart|]; [apply quiet_ret|].
    apply quiet_bind; [apply quiet_update, generateOrderNumber_quiet|]. intros orderNo.
    apply quiet_update, create_quiet. }
  intros cart. apply quiet_bind; [apply quiet_update, updateProducts_quiet|].
  intros [updated|]; apply quiet_ret.
Qed.

Lemma quiet_getOrder (args : JVal) (context : ToolContext) :
  quiet (getOrder args context).
Proof.
  unfold getOrder, lookup_order.
  apply quiet_bind; [apply quiet_lift|]. intros args'.
  apply quiet_catch; [|intros e; apply quiet_ret].
  apply quiet_bind; [repeat quiet_step|]. intros [early|[order|]]; apply quiet_ret.
Qed.

Lemma quiet_showProduct (args : JVal) (context : ToolContext) :
  quiet (showProduct args context).
Proof. unfold showProduct. repeat quiet_step. Qed.

Lemma quiet_ragQuery (args : JVal) (context : ToolContext) :
  quiet (ragQuery args context).
Proof. unfold ragQuery. repeat quiet_step. Qed.

(** No tool calls the provider. *)
Lemma quiet_executeTool (toolName : string) (args : JVal) (context : ToolContext) :
  quiet (executeTool toolName args context).
Proof.
  unfold executeTool. destruct (findCustomTool _ _); [apply quiet_executeCustomTool|].
  unfold core_executor.
  repeat match goal with
         | |- context [if ?b then _ else _] => destruct b
         end;
    try apply quiet_ret;
    (apply quiet_catch; [|intros e; apply quiet_ret]);
    auto using quiet_searchProduct, quiet_addToCart, quiet_getOrder, quiet_showProduct,
               quiet_ragQuery.
Qed.

End QuietTools.

Section Paths.
Import Store Config LLM ToolRegistry PromptBuilder AgentOrchestrator Shape Outcome.
Context {E : Env} {P : Prompts}.

Lemma quiet_run_tool_calls (calls : list ToolCall) (toolContext : ToolContext) :
  quiet (run_tool_calls calls toolContext).
Proof.
  induction calls as [|toolCall rest IH]; simpl; [apply quiet_ret|].
  apply quiet_bind; [apply quiet_executeTool|]. intros toolResult.
  apply quiet_bind; [exact IH|]. intros runs. apply quiet_ret.
Qed.

Lemma quiet_dispatch_action (actionType actionPayload : JVal) (toolContext : ToolContext)
  (extractedContext : ExtractedContext) :
  quiet (dispatch_action actionType actionPayload toolContext extractedContext).
Proof.
  unfold dispatch_action.
  repeat first [apply quiet_executeTool | quiet_step].
Qed.

(** The narration step calls the provider once, whatever the tools
    returned. *)
Lemma generateResponseFromToolResults_calls_provider (agentConfig : AgentConfig)
  (originalMessages : list LLMMessage) (toolResults : list ToolRun) (w : World) :
  exists request,
    llm_log (snd (generateResponseFromToolResults agentConfig originalMessages
                    toolResults w))
    = (llm_log w ++ [request])%list.
Proof.
  unfold generateResponseFromToolResults, bind, generate, lift, ret.
  eexists.
  destruct (provider_generate _ _) as [followUp|e]; [|reflexivity].
  destruct (parseLLMResponse _) as [parsed|e]; [|reflexivity].
  cbv beta iota.
  destruct (truthy (audio_description parsed)); [reflexivity|].
  destruct (generateAudioDescription _ _); reflexivity.
Qed.

(** A tool never throws out of the registry. *)
Lemma executeTool_returns (toolName : string) (args : JVal) (context : ToolContext)
  (w : World) :
  exists r w', executeTool toolName args context w = (Ok r, w').
Proof.
  unfold executeTool. destruct (findCustomTool _ _) as [customTool|].
  - unfold executeCustomTool. destruct (negb _); [unfold ret; eauto|].
    unfold catch. match goal with |- context [match ?m with (_, _) => _ end] =>
      destruct m as [[a|e] w1] end; unfold ret; eauto.
  - destruct (core_executor toolName) as [executor|]; [|unfold ret; eauto].
    unfold catch. destruct (executor args context w) as [[a|e] w1]; unfold ret; eauto.
Qed.

Lemma run_tool_calls_returns (calls : list ToolCall) (toolContext : ToolContext)
  (w : World) :
  exists runs w', run_tool_calls calls toolContext w = (Ok runs, w')
                  /\ map tool runs = map tc_name calls
                  /\ llm_log w' = llm_log w.
Proof.
  revert w. induction calls as [|toolCall rest IH]; intros w; simpl.
  - exists [], w. auto.
  - pose proof (quiet_executeTool (tc_name toolCall) (arguments toolCall) toolContext w)
      as Hquiet.
    destruct (executeTool_returns (tc_name toolCall) (arguments toolCall) toolContext w)
      as (r & w1 & Hrun).
    rewrite Hrun in Hquiet. simpl in Hquiet.
    destruct (IH w1) as (runs & w2 & Hrest & Hnames & Hlog).
    exists ({| tool := tc_name toolCall; result := r |} :: runs), w2.
    unfold bind. rewrite Hrun, Hrest. unfold ret. simpl.
    rewrite Hnames, Hlog, Hquiet. auto.
Qed.

(** The tool-call path: the tools run, then the provider is called for the
    narration, with no regard for what the tools returned. *)
Lemma tool_call_path_calls_provider (context : OrchestratorContext)
  (agentConfig : AgentConfig) (messages : list LLMMessage)
  (extractedContext : ExtractedContext) (userMessage : string)
  (llmResponse : LLMResponse) (first : ToolCall) (others : list ToolCall) (w : World) :
  toolCalls llmResponse = Some (first :: others) ->
  exists request,
    llm_log (snd (answer context agentConfig messages extractedContext userMessage
                    llmResponse w))
    = (llm_log w ++ [request])%list.
Proof.
  intros Hcalls. unfold answer. rewrite Hcalls.
  match goal with
  | |- context [bind (run_tool_calls ?calls ?c) ?k] =>
      destruct (run_tool_calls_returns calls c w) as (runs & w1 & Hrun & _ & Hquiet)
  end.
  destruct (generateResponseFromToolResults_calls_provider agentConfig messages runs w1)
    as [request Hlog].
  exists request. rewrite <- Hquiet, <- Hlog. unfold bind at 1. rewrite Hrun.
  unfold bind.
  destruct (generateResponseFromToolResults _ _ _ _) as [[final|e] w2]; reflexivity.
Qed.

(** The inline path: when the tool asks for input, the response is the
    tool's question with the null action, and the provider is not called. *)
Lemma inline_path_asks (parsedResponse : AgentResponse) (context : OrchestratorContext)
  (agentConfig : AgentConfig) (extractedContext : ExtractedContext)
  (userMessage : string) (w : World) (toolResult : ToolResult) (w1 : World) :
  dispatch_action (jget (action parsedResponse) "type")
    (jor (jget (action parsedResponse) "payload") (JObj []))
    {| c_tenantId := tenantId context; c_userId := userId context;
       c_conversationId := x_conversationId context;
       ToolRegistry.agentConfig := agentConfig |}
    extractedContext w = (Ok (Some toolResult), w1) ->
  needsUserInput toolResult = true ->
  exists audio,
    executeActionFromResponse parsedResponse context agentConfig extractedContext
      userMessage w
    = (Ok (respond
             (jor (of_opt_str (question toolResult))
                (jor (message parsedResponse)
                   (JStr "Necesito más información para ayudarte.")))
             audio null_action), w1)
    /\ llm_log w1 = llm_log w.
Proof.
  intros Hdispatch Hasks.
  pose proof (quiet_dispatch_action (jget (action parsedResponse) "type")
                (jor (jget (action parsedResponse) "payload") (JObj []))
                {| c_tenantId := tenantId context; c_userId := userId context;
                   c_conversationId := x_conversationId context;
                   ToolRegistry.agentConfig := agentConfig |}
                extractedContext w) as Hquiet.
  rewrite Hdispatch in Hquiet. simpl in Hquiet.
  unfold executeActionFromResponse, catch, bind. rewrite Hdispatch, Hasks.
  unfold lift, clarifying_response.
  assert (Htext : exists text,
            jor (of_opt_str (question toolResult)) (JStr "Necesito más información")
            = JStr text).
  { destruct (question toolResult) as [[|c q]|]; cbv; eauto. }
  destruct Htext as [text Htext]. rewrite Htext, generateAudioDescription_text.
  simpl. eauto.
Qed.

End Paths.

Section OrchestratorRuns.
Import Store LLM ToolRegistry AgentOrchestrator Shape Outcome SampleEnv Turns.

(** The only text that [JSON.parse] reads on the sample platform is the
    listed reply. *)
Lemma speaking_parse (v : JVal) (text : string) (parsed : JVal) :
  @JSON_parse (speaking v) text = Ok parsed -> parsed = v.
Proof.
  unfold speaking. cbn [JSON_parse env assoc].
  destruct (String.eqb _ _); [|discriminate]. intros Hv. now inversion Hv.
Qed.

Lemma greeting_well_formed : @reply_actions_well_formed (speaking greeting).
Proof.
  intros response text parsed _ _ Hparse _.
  rewrite (speaking_parse _ _ _ Hparse). intros _. reflexivity.
Qed.

Lemma processMessage_action_shape_witness :
  @reply_actions_well_formed (speaking greeting)
  /\ exists r w',
       @processMessage (speaking greeting) prompts turn asking one_table = (Ok r, w')
       /\ null_action_has_empty_payload (action r).
Proof.
  split; [exact greeting_well_formed|].
  assert (Hrun : exists r w',
            @processMessage (speaking greeting) prompts turn asking one_table = (Ok r, w')).
  { vm_compute. eauto. }
  destruct Hrun as (r & w' & Hrun). exists r, w'. split; [exact Hrun|].
  exact (@processMessage_action_shape (speaking greeting) prompts greeting_well_formed
           turn asking one_table r w' Hrun).
Defined.

(** The response to a reply whose action has no type and a payload. *)
Example stray_payload_kept :
  option_map action
    match fst (@processMessage (speaking stray_payload) prompts turn asking one_table) with
    | Ok r => Some r
    | Throw _ => None
    end
  = Some (mk_action JNull (JObj [("x", JNum 1)])).
Proof. vm_compute. reflexivity. Qed.

(** C9 as stated fails: the action of a reply without tool calls is copied
    into the response as it is, so a reply whose action has a null type and
    a payload that is not empty yields a response that breaks the
    invariant. *)
Lemma processMessage_stray_payload_counterexample :
  ~ (forall (E : Env) (P : Prompts) (context : OrchestratorContext) (userMessage : string)
            (w : World) (r : AgentResponse) (w' : World),
       processMessage context userMessage w = (Ok r, w') ->
       null_action_has_empty_payload (action r)).
Proof.
  intros Hclaim.
  assert (Hrun : exists r w',
            @processMessage (speaking stray_payload) prompts turn asking one_table = (Ok r, w')
            /\ action r = mk_action JNull (JObj [("x", JNum 1)])).
  { vm_compute. eauto. }
  destruct Hrun as (r & w' & Hrun & Haction).
  specialize (Hclaim _ _ _ _ _ _ _ Hrun). rewrite Haction in Hclaim.
  specialize (Hclaim eq_refl). discriminate Hclaim.
Qed.

(** C1 on the tool-call path, at a turn in which the model requests
    [get_order] without arguments: the tool asks for input, and the
    orchestrator still makes the second provider call and answers with the
    provider's narration, not with the tool's question. *)
Theorem tool_call_path_narrates_when_tool_asks :
  let run := @processMessage calling_get_order prompts turn asking one_table in
  (exists result,
     fst (@executeTool calling_get_order "get_order" (JObj []) shop_context one_table)
     = Ok result
     /\ needsUserInput result = true /\ question result = Some question_missing)
  /\ (exists r,
        fst run = Ok r
        /\ message r = JStr narration
        /\ message r <> JStr question_missing
        /\ action r = null_action)
  /\ List.length (llm_log (snd run)) = 2.
Proof.
  split; [|split].
  - vm_compute. eexists. split; [reflexivity|]. split; reflexivity.
  - vm_compute. eexists. split; [reflexivity|]. split; [reflexivity|].
    split; [discriminate | reflexivity].
  - vm_compute. reflexivity.
Qed.

(** The same request as an inline action: the response is the tool's
    question with the null action, after one provider call. *)
Example inline_get_order_asks :
  let run := @processMessage (speaking inline_get_order) prompts turn asking one_table in
  (exists r,
     fst run = Ok r /\ message r = JStr question_missing /\ action r = null_action)
  /\ List.length (llm_log (snd run)) = 1.
Proof.
  split.
  - vm_compute. eexists. split; [reflexivity|]. split; reflexivity.
  - vm_compute. reflexivity.
Qed.

End OrchestratorRuns.

(* ================================================================== *)
(** * Facts: the [find(...).sort(...).limit(...)] chains               *)
(* ================================================================== *)

Section Chains.
Context {A : Type} (leb : A -> A -> bool).
Hypothesis leb_total : forall a b, leb a b = true \/ leb b a = true.
Hypothesis leb_trans : forall a b c, leb a b = true -> leb b c = true -> leb a c = true.
Variable f : A -> bool.

Lemma limit_subset (n : Z) (l : list A) (x : A) : In x (Cursor.limit n l) -> In x l.
Proof.
  unfold Cursor.limit. destruct (n =? 0)%Z; [tauto | apply (firstn_subset leb)].
Qed.

Lemma limit_length (n : Z) (l : list A) :
  n <> 0%Z -> List.length (Cursor.limit n l) <= Z.abs_nat n.
Proof.
  intros Hn. unfold Cursor.limit. apply Z.eqb_neq in Hn. rewrite Hn.
  apply firstn_le_length.
Qed.

Lemma limit_head (n : Z) (l : list A) : hd_error (Cursor.limit n l) = hd_error l.
Proof.
  unfold Cursor.limit. destruct (n =? 0)%Z eqn:Hn; [reflexivity|].
  apply Z.eqb_neq in Hn. destruct (Z.abs_nat n) eqn:Habs; [lia|].
  now destruct l.
Qed.

Lemma chain_sound (n : Z) (l : list A) (x : A) :
  In x (Cursor.limit n (Cursor.sort leb (filter f l))) -> In x l /\ f x = true.
Proof.
  intros Hx. apply limit_subset in Hx.
  apply (Permutation_in _ (sort_permutation leb (filter f l))) in Hx.
  now apply filter_In in Hx.
Qed.

Lemma chain_sorted (n : Z) (l : list A) :
  StronglySorted (fun a b => leb a b = true)
    (Cursor.limit n (Cursor.sort leb (filter f l))).
Proof. apply limit_sorted. now apply sort_sorted. Qed.

(** The first document of the chain comes before every matching one. *)
Lemma chain_head (n : Z) (l : list A) (first x : A) :
  hd_error (Cursor.limit n (Cursor.sort leb (filter f l))) = Some first ->
  In x l -> f x = true -> leb first x = true.
Proof.
  rewrite limit_head. intros Hhead Hx Hfx.
  assert (Hin : In x (Cursor.sort leb (filter f l))).
  { apply (Permutation_in _ (Permutation_sym (sort_permutation leb (filter f l)))).
    now apply filter_In. }
  pose proof (sort_sorted leb leb_total leb_trans (filter f l)) as Hsorted.
  destruct (Cursor.sort leb (filter f l)) as [|y rest]; [discriminate|].
  simpl in Hhead. inversion Hhead; subst y.
  destruct Hin as [-> | Hin].
  - destruct (leb_total x x); assumption.
  - apply StronglySorted_inv in Hsorted. destruct Hsorted as [_ Hall].
    rewrite Forall_forall in Hall. now apply Hall.
Qed.


End Chains.

Section Orderings.
Import Store.

Lemma StronglySorted_weaken {A : Type} (R S : A -> A -> Prop) (l : list A) :
  (forall a b, R a b -> S a b) -> StronglySorted R l -> StronglySorted S l.
Proof.
  intros HRS. induction 1 as [|x rest Hrest IH Hall]; constructor; [exact IH|].
  eapply Forall_impl; [|exact Hall]. intros b. apply HRS.
Qed.

Lemma newest_first_total (a b : Order) :
  OrdersRepo.newest_first a b = true \/ OrdersRepo.newest_first b a = true.
Proof.
  unfold OrdersRepo.newest_first.
  destruct (Nat.leb_spec (createdAt b) (createdAt a)); [now left | right].
  apply Nat.leb_le. lia.
Qed.

Lemma newest_first_trans (a b c : Order) :
  OrdersRepo.newest_first a b = true -> OrdersRepo.newest_first b c = true ->
  OrdersRepo.newest_first a c = true.
Proof. unfold OrdersRepo.newest_first. rewrite !Nat.leb_le. lia. Qed.

Lemma oldest_first_total (a b : ConversationMessage) :
  Queries.oldest_first a b = true \/ Queries.oldest_first b a = true.
Proof.
  unfold Queries.oldest_first.
  destruct (Nat.leb_spec (m_createdAt a) (m_createdAt b)); [now left | right].
  apply Nat.leb_le. lia.
Qed.

Lemma oldest_first_trans (a b c : ConversationMessage) :
  Queries.oldest_first a b = true -> Queries.oldest_first b c = true ->
  Queries.oldest_first a c = true.
Proof. unfold Queries.oldest_first. rewrite !Nat.leb_le. lia. Qed.

Lemma latest_first_total (a b : ConversationMessage) :
  AgentOrchestrator.latest_first a b = true \/ AgentOrchestrator.latest_first b a = true.
Proof.
  unfold AgentOrchestrator.latest_first.
  destruct (Nat.leb_spec (m_createdAt b) (m_createdAt a)); [now left | right].
  apply Nat.leb_le. lia.
Qed.

Lemma latest_first_trans (a b c : ConversationMessage) :
  AgentOrchestrator.latest_first a b = true -> AgentOrchestrator.latest_first b c = true ->
  AgentOrchestrator.latest_first a c = true.
Proof. unfold AgentOrchestrator.latest_first. rewrite !Nat.leb_le. lia. Qed.

End Orderings.

(* ================================================================== *)
(** * Facts: the repositories                                          *)
(* ================================================================== *)

Section Repositories.
Import Store Queries.
Context {E : Env}.





(** X3. [ProductsRepo.getByCategory] returns only products of the tenant
    that belong to the category and are available and not deleted, sorted
    by ascending [order], no more than a limit that is not 0. *)
Theorem getByCategory_sound (domain categorySlug : string) (limit : Z) (w : World) :
  (forall p, In p (getByCategory domain categorySlug limit w) ->
     In p (catalog w) /\ p_domain p = domain
     /\ ProductsRepo.not_trashed p = true /\ is_available p = true
     /\ exists cats c, category p = Some cats /\ In c cats /\ cat_slug c = categorySlug)
  /\ StronglySorted (fun a b => ProductsRepo.order_leb a b = true)
       (getByCategory domain categorySlug limit w)
  /\ (limit <> 0%Z ->
      List.length (getByCategory domain categorySlug limit w) <= Z.abs_nat limit).
Proof.
  unfold getByCategory. split; [|split].
  - intros p Hp. apply chain_sound in Hp. destruct Hp as [Hin Hf].
    apply andb_prop in Hf. destruct Hf as [Hf Havail].
    apply andb_prop in Hf. destruct Hf as [Hf Htrash].
    apply andb_prop in Hf. destruct Hf as [Hdom Hcat].
    apply String.eqb_eq in Hdom. repeat (split; [assumption|]).
    unfold in_category in Hcat. destruct (category p) as [cats|]; [|discriminate].
    apply existsb_exists in Hcat. destruct Hcat as (c & Hc & Hslug).
    apply String.eqb_eq in Hslug. eauto.
  - apply chain_sorted; [apply order_leb_total | apply order_leb_trans].
  - apply limit_length.
Qed.

Lemma orders_getById_some (domain identifier : string) (w : World) (o : Order) :
  OrdersRepo.getById domain identifier w = Some o ->
  In o (orders w) /\ o_domain o = domain
  /\ ((ObjectId_isValid identifier = true /\ o_id o = ObjectId_hex identifier)
      \/ orderNumber o = identifier).
Proof.
  unfold OrdersRepo.getById, Cursor.findOne. intros Ho.
  destruct (ObjectId_isValid identifier) eqn:Hvalid.
  - destruct (find _ (orders w)) as [q|] eqn:Hid.
    + inversion Ho; subst q. apply find_some in Hid. destruct Hid as [Hin Hf].
      apply andb_prop in Hf. destruct Hf as [Hoid Hdom].
      apply String.eqb_eq in Hoid, Hdom. auto.
    + apply find_some in Ho. destruct Ho as [Hin Hf].
      apply andb_prop in Hf. destruct Hf as [Hdom Hnum].
      apply String.eqb_eq in Hnum, Hdom. auto.
  - apply find_some in Ho. destruct Ho as [Hin Hf].
    apply andb_prop in Hf. destruct Hf as [Hdom Hnum].
    apply String.eqb_eq in Hnum, Hdom. auto.
Qed.

(** X4. [OrdersRepo.getById] returns an order of the tenant whose [_id]
    is the ObjectId that the identifier denotes (when the identifier is a
    valid ObjectId) or whose order number is the identifier, and nothing
    only when the tenant has no such order: an order of another tenant is
    never returned. *)
Theorem orders_getById_sound (domain identifier : string) (w : World) :
  (forall o, OrdersRepo.getById domain identifier w = Some o ->
     In o (orders w) /\ o_domain o = domain
     /\ ((ObjectId_isValid identifier = true /\ o_id o = ObjectId_hex identifier)
         \/ orderNumber o = identifier))
  /\ (OrdersRepo.getById domain identifier w = None ->
      forall o, In o (orders w) -> o_domain o = domain ->
                orderNumber o <> identifier
                /\ (ObjectId_isValid identifier = true -> o_id o <> ObjectId_hex identifier)).
Proof.
  split; [intros o; apply orders_getById_some|].
  unfold OrdersRepo.getById, Cursor.findOne.
  - intros Hnone o Hin Hdom.
    apply String.eqb_eq in Hdom.
    assert (Hnum : find (fun o => (o_domain o =? domain) && (orderNumber o =? identifier))
                     (orders w) = None).
    { destruct (ObjectId_isValid identifier); [|exact Hnone].
      now destruct (find _ (orders w)). }
    split.
    + intros Heq. apply (find_none _ _ Hnum) in Hin.
      apply String.eqb_eq in Heq. now rewrite Hdom, Heq in Hin.
    + intros Hvalid Heq. rewrite Hvalid in Hnone.
      destruct (find _ (orders w)) as [q|] eqn:Hid; [discriminate|].
      apply (find_none _ _ Hid) in Hin.
      apply String.eqb_eq in Heq. now rewrite Hdom, Heq in Hin.
Qed.

(** X5. [OrdersRepo.getByUser] returns only orders of the tenant whose
    client email or phone is the identifier, newest first and no more than
    a limit that is not 0; its first order is at least as recent as every
    order of that user. *)
Theorem getByUser_newest_first (domain userIdentifier : string) (limit : Z) (w : World) :
  (forall o, In o (OrdersRepo.getByUser domain userIdentifier limit w) ->
     In o (orders w) /\ o_domain o = domain
     /\ (email (clientInfo o) = userIdentifier \/ phone (clientInfo o) = userIdentifier))
  /\ StronglySorted (fun a b => createdAt b <= createdAt a)
       (OrdersRepo.getByUser domain userIdentifier limit w)
  /\ (limit <> 0%Z ->
      List.length (OrdersRepo.getByUser domain userIdentifier limit w) <= Z.abs_nat limit)
  /\ (forall first o,
        hd_error (OrdersRepo.getByUser domain userIdentifier limit w) = Some first ->
        In o (orders w) -> o_domain o = domain ->
        email (clientInfo o) = userIdentifier \/ phone (clientInfo o) = userIdentifier ->
        createdAt o <= createdAt first).
Proof.
  unfold OrdersRepo.getByUser. split; [|split; [|split]].
  - intros o Ho. apply chain_sound in Ho. destruct Ho as [Hin Hf].
    unfold OrdersRepo.of_user in Hf.
    apply andb_prop in Hf. destruct Hf as [Hdom Hwho].
    apply String.eqb_eq in Hdom. split; [assumption|]. split; [assumption|].
    apply orb_prop in Hwho. destruct Hwho as [H | H]; apply String.eqb_eq in H; auto.
  - apply (StronglySorted_weaken (fun a b => OrdersRepo.newest_first a b = true)).
    + intros a b. apply Nat.leb_le.
    + apply chain_sorted; [apply newest_first_total | apply newest_first_trans].
  - apply limit_length.
  - intros first o Hhead Hin Hdom Hwho.
    apply Nat.leb_le.
    change (OrdersRepo.newest_first first o = true).
    eapply chain_head; eauto using newest_first_total, newest_first_trans.
    unfold OrdersRepo.of_user. apply String.eqb_eq in Hdom. rewrite Hdom.
    destruct Hwho as [H | H]; apply String.eqb_eq in H; rewrite H;
      [reflexivity | apply orb_true_r].
Qed.

End Repositories.

Section RepositoryRuns.
Import Store SampleEnv.

(** An ObjectId is found whatever the case of its hexadecimal digits, and
    so is a slug. *)
Example getById_reads_either_case :
  @ProductsRepo.getById plain "shop.example" "65F0C0FFEE0000000000000A" one_table
  = Some Sample.table
  /\ @ProductsRepo.getById plain "shop.example" "65f0c0ffee0000000000000a" one_table
     = Some Sample.table
  /\ @ProductsRepo.getById plain "shop.example" "mesa-roble" one_table = Some Sample.table
  /\ @ProductsRepo.getById plain "other.example" "65f0c0ffee0000000000000a" one_table = None.
Proof. vm_compute. repeat split. Qed.

End RepositoryRuns.

Section OrderWrites.
Import Store Queries.
Context {E : Env}.

Lemma find_app_none {A : Type} (f : A -> bool) (l : list A) (x : A) :
  find f l = None -> find f (l ++ [x]) = if f x then Some x else None.
Proof.
  induction l as [|y rest IH]; simpl; [reflexivity|].
  destruct (f y); [discriminate | exact IH].
Qed.

(** X6. An order created under a number that [getById] does not find is
    appended to the collection with the supplied fields and the current
    time as [createdAt] and [updatedAt], and is what [getById] then returns
    for that number. *)
Theorem create_then_getById (order : OrdersRepo.NewOrder) (w : World) :
  OrdersRepo.getById (OrdersRepo.n_domain order) (OrdersRepo.n_orderNumber order) w = None ->
  orders (snd (OrdersRepo.create order w)) = (orders w ++ [fst (OrdersRepo.create order w)])%list
  /\ OrdersRepo.getById (OrdersRepo.n_domain order) (OrdersRepo.n_orderNumber order)
       (snd (OrdersRepo.create order w))
     = Some (fst (OrdersRepo.create order w))
  /\ o_domain (fst (OrdersRepo.create order w)) = OrdersRepo.n_domain order
  /\ orderNumber (fst (OrdersRepo.create order w)) = OrdersRepo.n_orderNumber order
  /\ products (fst (OrdersRepo.create order w)) = OrdersRepo.n_products order
  /\ o_total (fst (OrdersRepo.create order w)) = OrdersRepo.n_total order
  /\ createdAt (fst (OrdersRepo.create order w)) = clock w
  /\ updatedAt (fst (OrdersRepo.create order w)) = clock w.
Proof.
  intros Hfresh. split; [reflexivity|]. split; [|repeat split].
  unfold OrdersRepo.getById, Cursor.findOne in *.
  cbn [OrdersRepo.create fst snd orders tick with_orders].
  assert (Hnum : find (fun o => (o_domain o =? OrdersRepo.n_domain order)
                                && (orderNumber o =? OrdersRepo.n_orderNumber order))
                   (orders w) = None).
  { destruct (ObjectId_isValid _); [|exact Hfresh]. now destruct (find _ (orders w)). }
  rewrite (find_app_none _ _ _ Hnum). cbn [o_domain orderNumber].
  rewrite !String.eqb_refl. cbn [andb].
  destruct (ObjectId_isValid _); [|reflexivity].
  destruct (find _ (orders w)) as [q|] eqn:Hid; [discriminate|].
  rewrite (find_app_none _ _ _ Hid). now destruct (_ && _).
Qed.

(** What [findOneAndUpdate] does to a collection. *)
Lemma findOneAndUpdate_spec (f : Order -> bool) (upd : Order -> Order) (l : list Order) :
  (OrdersRepo.findOneAndUpdate f upd l = (None, l) /\ forall o, In o l -> f o = false)
  \/ exists pre o post,
       l = (pre ++ o :: post)%list /\ (forall x, In x pre -> f x = false) /\ f o = true
       /\ OrdersRepo.findOneAndUpdate f upd l = (Some (upd o), (pre ++ upd o :: post)%list).
Proof.
  induction l as [|y rest IH]; simpl.
  - left. split; [reflexivity | intros o []].
  - destruct (f y) eqn:Hy.
    + right. exists [], y, rest. repeat split; auto. intros x [].
    + destruct IH as [[Hnone Hall] | (pre & o & post & -> & Hpre & Ho & Hrun)].
      * left. rewrite Hnone. split; [reflexivity|].
        intros o [<- | Ho]; auto.
      * right. exists (y :: pre), o, post. rewrite Hrun. repeat split; auto.
        intros x [<- | Hx]; auto.
Qed.

(** X7. [OrdersRepo.updateProducts] rewrites at most one order, the first
    of the tenant with the order number: the answer is that order with the
    new products, their total (the sum of price times quantity) and the
    current time as [updatedAt], every other field and every other order as
    before; when the tenant has no order with the number the answer is
    nothing and the collection is unchanged. *)
Theorem updateProducts_frame (domain orderNo : string) (ps : list OrderProduct) (w : World) :
  (fst (OrdersRepo.updateProducts domain orderNo ps w) = None
   /\ orders (snd (OrdersRepo.updateProducts domain orderNo ps w)) = orders w
   /\ forall o, In o (orders w) -> o_domain o = domain -> orderNumber o <> orderNo)
  \/ exists pre o post,
       orders w = (pre ++ o :: post)%list
       /\ o_domain o = domain /\ orderNumber o = orderNo
       /\ (forall x, In x pre -> o_domain x <> domain \/ orderNumber x <> orderNo)
       /\ fst (OrdersRepo.updateProducts domain orderNo ps w)
          = Some (OrdersRepo.set_products ps (OrdersRepo.total_of ps) (clock w) o)
       /\ orders (snd (OrdersRepo.updateProducts domain orderNo ps w))
          = (pre ++ OrdersRepo.set_products ps (OrdersRepo.total_of ps) (clock w) o :: post)%list
       /\ products (OrdersRepo.set_products ps (OrdersRepo.total_of ps) (clock w) o) = ps
       /\ o_total (OrdersRepo.set_products ps (OrdersRepo.total_of ps) (clock w) o)
          = fold_left (fun sum p => (sum + valid_price p * qty p)%Q) ps 0%Q
       /\ clientInfo (OrdersRepo.set_products ps (OrdersRepo.total_of ps) (clock w) o)
          = clientInfo o
       /\ orderStatus (OrdersRepo.set_products ps (OrdersRepo.total_of ps) (clock w) o)
          = orderStatus o
       /\ o_id (OrdersRepo.set_products ps (OrdersRepo.total_of ps) (clock w) o) = o_id o.
Proof.
  unfold OrdersRepo.updateProducts.
  destruct (findOneAndUpdate_spec
              (fun o => (o_domain o =? domain) && (orderNumber o =? orderNo))
              (OrdersRepo.set_products ps (OrdersRepo.total_of ps) (clock w)) (orders w))
    as [[Hrun Hall] | (pre & o & post & Hsplit & Hpre & Ho & Hrun)]; rewrite Hrun.
  - left. split; [reflexivity|]. split; [reflexivity|].
    intros o Hin Hdom Hnum. specialize (Hall o Hin).
    apply String.eqb_eq in Hdom, Hnum. now rewrite Hdom, Hnum in Hall.
  - right. exists pre, o, post.
    apply andb_prop in Ho. destruct Ho as [Hdom Hnum].
    apply String.eqb_eq in Hdom, Hnum.
    split; [exact Hsplit|]. split; [exact Hdom|]. split; [exact Hnum|].
    split; [|repeat split].
    intros x Hx. specialize (Hpre x Hx). apply andb_false_iff in Hpre.
    destruct Hpre as [H | H]; apply String.eqb_neq in H; auto.
Qed.

(** X8. [OrdersRepo.getByPaymentStatus] and [OrdersRepo.getByOrderStatus]
    return only orders of the tenant in the requested status, newest first,
    no more than a limit that is not 0. *)
Theorem status_queries_sound (domain status : string) (limit : Z) (w : World) :
  (forall o, In o (getByPaymentStatus domain status limit w) ->
     In o (orders w) /\ o_domain o = domain /\ typeStatus (paymentStatus o) = status)
  /\ (forall o, In o (getByOrderStatus domain status limit w) ->
        In o (orders w) /\ o_domain o = domain /\ typeStatus (orderStatus o) = status)
  /\ StronglySorted (fun a b => createdAt b <= createdAt a)
       (getByPaymentStatus domain status limit w)
  /\ StronglySorted (fun a b => createdAt b <= createdAt a)
       (getByOrderStatus domain status limit w)
  /\ (limit <> 0%Z ->
      List.length (getByPaymentStatus domain status limit w) <= Z.abs_nat limit
      /\ List.length (getByOrderStatus domain status limit w) <= Z.abs_nat limit).
Proof.
  unfold getByPaymentStatus, getByOrderStatus.
  assert (Hsorted : forall f,
            StronglySorted (fun a b => createdAt b <= createdAt a)
              (Cursor.limit limit (Cursor.sort OrdersRepo.newest_first (filter f (orders w))))).
  { intros f.
    apply (StronglySorted_weaken (fun a b => OrdersRepo.newest_first a b = true)).
    - intros a b. apply Nat.leb_le.
    - apply chain_sorted; [apply newest_first_total | apply newest_first_trans]. }
  split; [|split; [|split; [|split]]]; try apply Hsorted.
  - intros o Ho. apply chain_sound in Ho. destruct Ho as [Hin Hf].
    apply andb_prop in Hf. destruct Hf as [Hdom Hst].
    apply String.eqb_eq in Hdom, Hst. auto.
  - intros o Ho. apply chain_sound in Ho. destruct Ho as [Hin Hf].
    apply andb_prop in Hf. destruct Hf as [Hdom Hst].
    apply String.eqb_eq in Hdom, Hst. auto.
  - intros Hlimit. split; now apply limit_length.
Qed.

End OrderWrites.

Section OrderWritesRuns.
Import Store SampleEnv.

Lemma create_then_getById_witness :
  @OrdersRepo.getById plain "shop.example" "1740532951975" one_table = None
  /\ @OrdersRepo.getById plain "shop.example" "1740532951975"
       (snd (@OrdersRepo.create plain
               (ToolRegistry.empty_cart shop_context "1740532951975") one_table))
     = Some (fst (@OrdersRepo.create plain
                    (ToolRegistry.empty_cart shop_context "1740532951975") one_table)).
Proof.
  split; [reflexivity|].
  exact (proj1 (proj2 (@create_then_getById plain
                         (ToolRegistry.empty_cart shop_context "1740532951975")
                         one_table eq_refl))).
Defined.

End OrderWritesRuns.

(* ================================================================== *)
(** * Facts: the conversation store                                    *)
(* ================================================================== *)

Section SortedLists.
Context {A : Type}.

Lemma StronglySorted_app (R : A -> A -> Prop) (a b : list A) :
  StronglySorted R a -> StronglySorted R b ->
  (forall x y, In x a -> In y b -> R x y) ->
  StronglySorted R (a ++ b).
Proof.
  intros Ha Hb Hab. induction Ha as [|x rest Hrest IH Hall]; simpl; [exact Hb|].
  constructor.
  - apply IH. intros u v Hu Hv. apply Hab; [now right | exact Hv].
  - apply Forall_app. split; [exact Hall|].
    apply Forall_forall. intros y Hy. apply Hab; [now left | exact Hy].
Qed.

Lemma StronglySorted_app_inv (R : A -> A -> Prop) (a b : list A) :
  StronglySorted R (a ++ b) -> forall x y, In x a -> In y b -> R x y.
Proof.
  induction a as [|z rest IH]; simpl; intros Hs x y Hx Hy; [destruct Hx|].
  apply StronglySorted_inv in Hs. destruct Hs as [Hrest Hall].
  destruct Hx as [<- | Hx].
  - rewrite Forall_forall in Hall. apply Hall. apply in_or_app. now right.
  - now apply IH.
Qed.

Lemma StronglySorted_rev (R : A -> A -> Prop) (l : list A) :
  StronglySorted R l -> StronglySorted (fun a b => R b a) (rev l).
Proof.
  induction 1 as [|x rest Hrest IH Hall]; simpl; [constructor|].
  apply StronglySorted_app; [exact IH | repeat constructor|].
  intros u v Hu [<- | []]. rewrite Forall_forall in Hall.
  apply Hall. now apply in_rev.
Qed.

End SortedLists.

Section Conversations.
Import Store Queries AgentOrchestrator.

Lemma of_conversation_spec (tenant user conversation : string) (m : ConversationMessage) :
  of_conversation tenant user conversation m = true ->
  m_tenantId m = tenant /\ m_userId m = user /\ m_conversationId m = conversation.
Proof.
  unfold of_conversation. intros Hf.
  apply andb_prop in Hf. destruct Hf as [Hf Hc].
  apply andb_prop in Hf. destruct Hf as [Ht Hu].
  apply String.eqb_eq in Ht, Hu, Hc. auto.
Qed.

(** X9. [ConversationsRepo.getLastMessages] returns stored messages of
    the one conversation of that tenant and user, in chronological order,
    no more than a limit that is not 0, and they are the most recent ones:
    the messages of the conversation that are left out are all at most as
    recent as each returned one. *)
Theorem getLastMessages_most_recent (tenant user conversation : string) (limit : Z)
  (w : World) :
  (forall m, In m (getLastMessages tenant user conversation limit w) ->
     In m (conversations w)
     /\ m_tenantId m = tenant /\ m_userId m = user /\ m_conversationId m = conversation)
  /\ StronglySorted (fun a b => m_createdAt a <= m_createdAt b)
       (getLastMessages tenant user conversation limit w)
  /\ (limit <> 0%Z ->
      List.length (getLastMessages tenant user conversation limit w) <= Z.abs_nat limit)
  /\ exists older,
       Permutation (older ++ getLastMessages tenant user conversation limit w)
         (filter (of_conversation tenant user conversation) (conversations w))
       /\ forall x m, In x older ->
                      In m (getLastMessages tenant user conversation limit w) ->
                      m_createdAt x <= m_createdAt m.
Proof.
  unfold getLastMessages.
  change (fun m => (m_tenantId m =? tenant) && (m_userId m =? user)
                   && (m_conversationId m =? conversation))
    with (of_conversation tenant user conversation).
  set (matching := filter (of_conversation tenant user conversation) (conversations w)).
  pose proof (sort_sorted latest_first latest_first_total latest_first_trans matching)
    as Hsorted.
  pose proof (sort_permutation latest_first matching) as Hperm.
  split; [|split; [|split]].
  - intros m Hm. apply in_rev in Hm. apply chain_sound in Hm.
    destruct Hm as [Hin Hf]. split; [exact Hin|]. now apply of_conversation_spec.
  - apply (StronglySorted_weaken (fun a b => latest_first b a = true)).
    + intros a b. unfold latest_first. apply Nat.leb_le.
    + apply (StronglySorted_rev (fun a b => latest_first a b = true)).
      now apply (limit_sorted latest_first).
  - intros Hlimit. rewrite length_rev. now apply limit_length.
  - unfold Cursor.limit. destruct (limit =? 0)%Z.
    + exists []. split; [|intros x m []]. simpl.
      eapply perm_trans; [apply Permutation_sym, Permutation_rev | exact Hperm].
    + exists (skipn (Z.abs_nat limit) (Cursor.sort latest_first matching)). split.
      * eapply perm_trans; [apply Permutation_app_comm|].
        eapply perm_trans;
          [apply Permutation_app_tail, Permutation_sym, Permutation_rev|].
        rewrite firstn_skipn. exact Hperm.
      * intros x m Hx Hm. apply in_rev in Hm.
        rewrite <- (firstn_skipn (Z.abs_nat limit)) in Hsorted.
        apply Nat.leb_le.
        exact (StronglySorted_app_inv _ _ _ Hsorted m x Hm Hx).
Qed.

(** X10. [ConversationsRepo.getConversationMessages] returns exactly the
    stored messages of the conversation, each as often as it is stored, in
    chronological order; [getLastMessages] with limit 0, or with a limit
    that the conversation does not reach, returns the same messages. *)
Theorem getConversationMessages_all (tenant user conversation : string) (w : World) :
  Permutation (getConversationMessages tenant user conversation w)
    (filter (of_conversation tenant user conversation) (conversations w))
  /\ StronglySorted (fun a b => m_createdAt a <= m_createdAt b)
       (getConversationMessages tenant user conversation w)
  /\ (forall limit,
        limit = 0%Z
        \/ List.length (getConversationMessages tenant user conversation w)
           <= Z.abs_nat limit ->
        Permutation (getLastMessages tenant user conversation limit w)
          (getConversationMessages tenant user conversation w)).
Proof.
  unfold getConversationMessages, getLastMessages.
  change (fun m => (m_tenantId m =? tenant) && (m_userId m =? user)
                   && (m_conversationId m =? conversation))
    with (of_conversation tenant user conversation).
  set (matching := filter (of_conversation tenant user conversation) (conversations w)).
  split; [apply sort_permutation|]. split.
  - apply (StronglySorted_weaken (fun a b => oldest_first a b = true)).
    + intros a b. unfold oldest_first. apply Nat.leb_le.
    + apply sort_sorted; [apply oldest_first_total | apply oldest_first_trans].
  - intros limit Hlimit.
    eapply perm_trans; [apply Permutation_sym, Permutation_rev|].
    eapply perm_trans; [|apply Permutation_sym, sort_permutation].
    unfold Cursor.limit. destruct (limit =? 0)%Z eqn:Hz; [apply sort_permutation|].
    destruct Hlimit as [-> | Hlen]; [discriminate|].
    rewrite firstn_all2; [apply sort_permutation|].
    rewrite (Permutation_length (sort_permutation latest_first matching)).
    now rewrite <- (Permutation_length (sort_permutation oldest_first matching)).
Qed.

End Conversations.

(* ================================================================== *)
(** * Facts: what the tools leave alone                                *)
(* ================================================================== *)

Section Keeps.
Import Store Frames.
Context {B : Type} (f : World -> B).

Lemma keeps_ret {A : Type} (a : A) : keeps f (ret a).
Proof. intros w. reflexivity. Qed.

Lemma keeps_throw {A : Type} (e : string) : keeps f (@throw A e).
Proof. intros w. reflexivity. Qed.

Lemma keeps_lift {A : Type} (e : Exc A) : keeps f (lift e).
Proof. intros w. reflexivity. Qed.

Lemma keeps_gets {A : Type} (g : World -> A) : keeps f (gets g).
Proof. intros w. reflexivity. Qed.

Lemma keeps_bind {A C : Type} (m : M A) (k : A -> M C) :
  keeps f m -> (forall a, keeps f (k a)) -> keeps f (bind m k).
Proof.
  intros Hm Hk w. unfold bind. specialize (Hm w).
  destruct (m w) as [[a|e] w1]; simpl in *.
  - now rewrite Hk.
  - exact Hm.
Qed.

Lemma keeps_catch {A : Type} (m : M A) (handler : string -> M A) :
  keeps f m -> (forall e, keeps f (handler e)) -> keeps f (catch m handler).
Proof.
  intros Hm Hh w. unfold catch. specialize (Hm w).
  destruct (m w) as [[a|e] w1]; simpl in *.
  - exact Hm.
  - now rewrite Hh.
Qed.

Lemma keeps_update {A : Type} (g : World -> A * World) :
  (forall w, f (snd (g w)) = f w) -> keeps f (update g).
Proof.
  intros Hg w. unfold update. specialize (Hg w). now destruct (g w).
Qed.

End Keeps.

Ltac keeps_step :=
  match goal with
  | |- Frames.keeps _ (Store.ret _) => apply keeps_ret
  | |- Frames.keeps _ (Store.throw _) => apply keeps_throw
  | |- Frames.keeps _ (Store.lift _) => apply keeps_lift
  | |- Frames.keeps _ (Store.gets _) => apply keeps_gets
  | |- Frames.keeps _ (Store.bind _ _) => apply keeps_bind; [|intros ?]
  | |- Frames.keeps _ (Store.catch _ _) => apply keeps_catch; [|intros ?]
  | |- Frames.keeps _ (match ?x with _ => _ end) => destruct x
  end.

Section ToolFrames.
Import Store Config ToolRegistry Frames.
Context {E : Env}.

Lemma stable_fetch (url : string) (options : ExternalApiService.Options) :
  keeps stable (ExternalApiService.fetch url options).
Proof. intros w. reflexivity. Qed.

Lemma stable_fetchProducts (tenant apiUrl : string) (key : option string)
  (params : option ExternalApiService.Params) :
  keeps stable (ExternalApiService.fetchProducts tenant apiUrl key params).
Proof.
  unfold ExternalApiService.fetchProducts.
  apply keeps_bind; [apply keeps_lift|]. intros url.
  apply keeps_bind; [apply stable_fetch|]. intros response.
  repeat keeps_step.
Qed.

Lemma stable_executeCustomTool (customTool : CustomTool) (args : JVal)
  (context : ToolContext) :
  keeps stable (executeCustomTool customTool args context).
Proof.
  unfold executeCustomTool. destruct (negb _); [apply keeps_ret|].
  apply keeps_catch; [|intros e; apply keeps_ret].
  apply keeps_bind; [apply keeps_lift|]. intros [url options].
  apply keeps_bind; [apply stable_fetch|]. intros response. apply keeps_ret.
Qed.

Lemma stable_searchProduct (args : JVal) (context : ToolContext) :
  keeps stable (searchProduct args context).
Proof.
  unfold searchProduct, mongo_search.
  apply keeps_bind; [apply keeps_lift|]. intros args'.
  apply keeps_bind; [apply keeps_lift|]. intros searchQuery.
  destruct (negb _); [apply keeps_ret|].
  apply keeps_catch; [|intros e; apply keeps_ret].
  destruct (Config.searchProduct _) as [[en [[]|]]|];
    repeat first [apply stable_fetchProducts | keeps_step].
Qed.

Lemma stable_updateProducts (domain orderNo : string) (ps : list OrderProduct) (w : World) :
  stable (snd (OrdersRepo.updateProducts domain orderNo ps w)) = stable w.
Proof.
  unfold OrdersRepo.updateProducts. now destruct (OrdersRepo.findOneAndUpdate _ _ _).
Qed.

Lemma stable_addToCart (args : JVal) (context : ToolContext) :
  keeps stable (addToCart args context).
Proof.
  unfold addToCart, active_or_new_cart.
  apply keeps_bind; [apply keeps_lift|]. intros args'.
  destruct (negb _); [apply keeps_ret|].
  apply keeps_catch; [|intros e; apply keeps_ret].
  apply keeps_bind; [apply keeps_gets|]. intros [product|]; [|apply keeps_ret].
  apply keeps_bind.
  { apply keeps_bind; [apply keeps_gets|]. intros [cart|]; [apply keeps_ret|].
    apply keeps_bind; [apply keeps_update; reflexivity|]. intros orderNo.
    apply keeps_update. reflexivity. }
  intros cart. apply keeps_bind; [apply keeps_update, stable_updateProducts|].
  intros [updated|]; apply keeps_ret.
Qed.

Lemma stable_getOrder (args : JVal) (context : ToolContext) :
  keeps stable (getOrder args context).
Proof.
  unfold getOrder, lookup_order.
  apply keeps_bind; [apply keeps_lift|]. intros args'.
  apply keeps_catch; [|intros e; apply keeps_ret].
  apply keeps_bind; [repeat keeps_step|]. intros [early|[order|]]; apply keeps_ret.
Qed.

Lemma stable_showProduct (args : JVal) (context : ToolContext) :
  keeps stable (showProduct args context).
Proof. unfold showProduct. repeat keeps_step. Qed.

Lemma stable_ragQuery (args : JVal) (context : ToolContext) :
  keeps stable (ragQuery args context).
Proof. unfold ragQuery. repeat keeps_step. Qed.

Lemma stable_executeTool (toolName : string) (args : JVal) (context : ToolContext) :
  keeps stable (executeTool toolName args context).
Proof.
  unfold executeTool. destruct (findCustomTool _ _); [apply stable_executeCustomTool|].
  unfold core_executor.
  repeat match goal with
         | |- context [if ?b then _ else _] => destruct b
         end;
    try apply keeps_ret;
    (apply keeps_catch; [|intros e; apply keeps_ret]);
    auto using stable_searchProduct, stable_addToCart, stable_getOrder, stable_showProduct,
               stable_ragQuery.
Qed.

Lemma untouched_of_stable (w w' : World) : stable w' = stable w -> untouched w w'.
Proof. unfold stable, untouched. intros H. inversion H. auto. Qed.

Lemma core_executor_unknown (toolName : string) :
  ~ In toolName ["search_product"; "add_to_cart"; "get_order"; "show_product";
                 "rag_query"; "external_api"] ->
  core_executor toolName = None.
Proof.
  intros Hname. unfold core_executor.
  repeat match goal with
         | |- context [if ?a =? ?b then _ else _] =>
             destruct (String.eqb_spec a b) as [Heq | _];
             [exfalso; apply Hname; rewrite Heq; simpl; tauto|]
         end.
  reflexivity.
Qed.

(** X11. [ToolRegistry.executeTool] never throws: whatever the tool, the
    arguments and the stores, it returns a result, and it leaves the
    configurations, the catalogue, the conversations and the log of
    provider calls as they were. A name that is neither an enabled custom
    tool of the configuration nor one of the six registered tools yields the
    failure [Tool not found: <name>] and changes nothing. *)
Theorem executeTool_contained (toolName : string) (args : JVal) (context : ToolContext)
  (w : World) :
  (exists r w', executeTool toolName args context w = (Ok r, w') /\ untouched w w')
  /\ (findCustomTool toolName (agentConfig context) = None ->
      ~ In toolName ["search_product"; "add_to_cart"; "get_order"; "show_product";
                     "rag_query"; "external_api"] ->
      executeTool toolName args context w
      = (Ok (failure ("Tool not found: " ++ toolName)), w)).
Proof.
  split.
  - destruct (executeTool_returns toolName args context w) as (r & w' & Hrun).
    exists r, w'. split; [exact Hrun|]. apply untouched_of_stable.
    pose proof (stable_executeTool toolName args context w) as Hkeep.
    now rewrite Hrun in Hkeep.
  - intros Hcustom Hcore. unfold executeTool.
    now rewrite Hcustom, (core_executor_unknown _ Hcore).
Qed.

End ToolFrames.

(* ================================================================== *)
(** * Facts: the core tools at their edges                             *)
(* ================================================================== *)

Section ToolEdges.
Import Store Config ToolRegistry.
Context {E : Env}.

Lemma destructure_object (args : JVal) :
  is_nullish args = false -> destructure args = Ok args.
Proof. intros H. unfold destructure. now rewrite H. Qed.



(** X14. [search_product] away from the product store, for arguments
    whose query is a string or is absent. When the tool is not enabled the
    result is the failure [search_product tool is not enabled]; when it is
    served by RAG the result is always a success with no product and count
    0, since the RAG service finds nothing; when it is served by an API and
    the configuration gives no URL for the products the result is a failure.
    None of the three changes the world or sends a request. *)
Theorem searchProduct_without_store (args : JVal) (context : ToolContext) (w : World)
  (searchQuery : string) :
  is_nullish args = false ->
  searchQuery_of (arg_default args "query" (JStr "")) = Ok searchQuery ->
  (flag (Config.searchProduct (tools (agentConfig context))) = false ->
   searchProduct args context w
   = (Ok (failure "search_product tool is not enabled"), w))
  /\ (Config.searchProduct (tools (agentConfig context))
      = Some {| enabled := true; type := Some type_rag |} ->
      searchProduct args context w
      = (Ok (succeeded (JObj [("products", JArr []); ("count", JNum 0)])), w))
  /\ (Config.searchProduct (tools (agentConfig context))
      = Some {| enabled := true; type := Some type_api |} ->
      match kproducts (knowledge (agentConfig context)) with
      | Some apiConfig => present (apiUrl apiConfig) = false
      | None => True
      end ->
      searchProduct args context w
      = (Ok (failure "API URL not configured for products"), w)).
Proof.
  intros Hargs Hquery. unfold searchProduct, bind, lift, catch, ret.
  rewrite (destructure_object _ Hargs), Hquery.
  split; [|split].
  - intros Hflag. now rewrite Hflag.
  - intros Hcfg. rewrite Hcfg. reflexivity.
  - intros Hcfg Hurl. rewrite Hcfg. cbn [flag enabled negb].
    destruct (kproducts _) as [apiConfig|]; [|reflexivity].
    now rewrite Hurl.
Qed.

Lemma is_array_spec (v : JVal) :
  ExternalApiService.is_array v = true -> exists items, v = JArr items.
Proof. destruct v; try discriminate. eauto. Qed.

(** X15. [ExternalApiService.fetchProducts] sets the search parameters
    [q], [limit] and [category], each only when the parameter is truthy.
    When the URL cannot be built it throws and sends nothing; otherwise it
    sends exactly one request, a GET without body to that URL, and changes
    nothing else. An answer that is an array is returned as it is; an
    answer that is [null] makes it throw; of any other answer it returns
    the [products] when they are an array, else the [data] when they are an
    array, else the empty array. An error of the request is thrown on. What
    it returns is always an array. *)
Theorem fetchProducts_returns_array (tenantId apiUrl : string)
  (apiKeyEncrypted : option string) (params : option ExternalApiService.Params)
  (w : World) :
  let truthy_text (name : string) (v : option string) :=
    match v with
    | Some text => if text =? "" then [] else [(name, text)]
    | None => []
    end in
  let search :=
    match params with
    | Some p =>
        (truthy_text "q" (ExternalApiService.p_query p) ++
         (if truthy (ExternalApiService.p_limit p)
          then [("limit", to_string (ExternalApiService.p_limit p))] else []) ++
         truthy_text "category" (ExternalApiService.p_category p))%list
    | None => []
    end in
  let run := ExternalApiService.fetchProducts tenantId apiUrl apiKeyEncrypted params w in
  (forall e, url_with_search apiUrl search = Throw e -> run = (Throw e, w))
  /\ (forall url,
        url_with_search apiUrl search = Ok url ->
        let request := {| Store.url := url; h_method := "GET"; body := None;
                          h_apiKeyEncrypted := apiKeyEncrypted |} in
        snd run = log_http request w
        /\ (forall e, http_fetch request = Throw e -> fst run = Throw e)
        /\ (forall items, http_fetch request = Ok (JArr items) -> fst run = Ok (JArr items))
        /\ (http_fetch request = Ok JNull -> exists e, fst run = Throw e)
        /\ (forall response,
              http_fetch request = Ok response ->
              is_nullish response = false ->
              ExternalApiService.is_array response = false ->
              (forall items, jget response "products" = JArr items ->
                             fst run = Ok (JArr items))
              /\ (ExternalApiService.is_array (jget response "products") = false ->
                  forall items, jget response "data" = JArr items ->
                                fst run = Ok (JArr items))
              /\ (ExternalApiService.is_array (jget response "products") = false ->
                  ExternalApiService.is_array (jget response "data") = false ->
                  fst run = Ok (JArr []))))
  /\ (forall v, fst run = Ok v -> exists items, v = JArr items).
Proof.
  intros truthy_text search run.
  assert (Hsearch : ExternalApiService.search_params params = search) by reflexivity.
  subst run. unfold ExternalApiService.fetchProducts, bind, lift. rewrite Hsearch.
  split; [|split].
  - intros e Hurl. now rewrite Hurl.
  - intros url Hurl. rewrite Hurl. unfold ExternalApiService.fetch.
    cbn [ExternalApiService.o_method ExternalApiService.o_body
         ExternalApiService.o_apiKeyEncrypted truthy].
    set (request := {| Store.url := url; h_method := "GET"; body := None;
                       h_apiKeyEncrypted := apiKeyEncrypted |}).
    unfold ret, throw.
    split; [|split; [|split; [|split]]].
    + destruct (http_fetch request) as [response|e]; [|reflexivity].
      repeat match goal with
             | |- context [if ?b then _ else _] => destruct b
             end; reflexivity.
    + intros e He. now rewrite He.
    + intros items Hitems. now rewrite Hitems.
    + intros Hnull. rewrite Hnull. cbn. eauto.
    + intros response Hresponse Hvalue Harray. rewrite Hresponse. cbv beta iota.
      rewrite Harray, Hvalue. split; [|split].
      * intros items Hitems. now rewrite Hitems.
      * intros Hproducts items Hitems. now rewrite Hproducts, Hitems.
      * intros Hproducts Hdata. now rewrite Hproducts, Hdata.
  - intros v. destruct (url_with_search apiUrl search) as [url|e]; [|discriminate].
    unfold ExternalApiService.fetch.
    destruct (http_fetch _) as [response|e]; [|discriminate].
    unfold ret, throw. cbv beta iota.
    destruct (ExternalApiService.is_array response) eqn:H1.
    { intros Hrun; inversion Hrun; subst. now apply is_array_spec. }
    destruct (is_nullish response); [discriminate|].
    destruct (ExternalApiService.is_array (jget response "products")) eqn:H2.
    { intros Hrun; inversion Hrun; subst. now apply is_array_spec. }
    destruct (ExternalApiService.is_array (jget response "data")) eqn:H3.
    { intros Hrun; inversion Hrun; subst. now apply is_array_spec. }
    intros Hrun; inversion Hrun. eexists; reflexivity.
Qed.

(** X16. [get_order] only reads and never leaves the caller's tenant: for
    arguments that are not null it returns a result and leaves the world as
    it was, and a successful result always describes a stored order of the
    tenant of the context. *)
Theorem getOrder_tenant_isolation (args : JVal) (context : ToolContext) (w : World) :
  is_nullish args = false ->
  exists r,
    getOrder args context w = (Ok r, w)
    /\ (success r = true ->
        exists o, In o (orders w) /\ o_domain o = c_tenantId context
                  /\ data r = order_data o).
Proof.
  intros Hargs. unfold getOrder, lookup_order, bind, lift, catch, gets, ret.
  rewrite (destructure_object _ Hargs).
  destruct (truthy (jget args "orderNumber")).
  { destruct (OrdersRepo.getById _ _ w) as [o|] eqn:Hfound.
    - eexists. split; [reflexivity|]. intros _. exists o.
      destruct (orders_getById_some _ _ _ _ Hfound) as (Hin & Hdom & _). auto.
    - eexists. split; [reflexivity | discriminate]. }
  destruct (truthy (jget args "orderId")).
  { destruct (OrdersRepo.getById _ _ w) as [o|] eqn:Hfound.
    - eexists. split; [reflexivity|]. intros _. exists o.
      destruct (orders_getById_some _ _ _ _ Hfound) as (Hin & Hdom & _). auto.
    - eexists. split; [reflexivity | discriminate]. }
  destruct (truthy (jget args "email") || truthy (jget args "phone")).
  { destruct (hd_error (OrdersRepo.getByUser _ _ 1%Z w)) as [o|] eqn:Hfound.
    - eexists. split; [reflexivity|]. intros _. exists o.
      assert (Hin : In o (OrdersRepo.getByUser (c_tenantId context)
                            (as_identifier (jor (jget args "email") (jget args "phone")))
                            1%Z w)).
      { destruct (OrdersRepo.getByUser _ _ _ _); [discriminate|].
        inversion Hfound. now left. }
      unfold OrdersRepo.getByUser in Hin. apply chain_sound in Hin.
      destruct Hin as [Hin Hf]. unfold OrdersRepo.of_user in Hf.
      apply andb_prop in Hf. destruct Hf as [Hdom _]. apply String.eqb_eq in Hdom. auto.
    - eexists. split; [reflexivity | discriminate]. }
  eexists. split; [reflexivity | discriminate].
Qed.

(** X17. [rag_query] only reads: for arguments that are not null it
    returns a result and leaves the world as it was; without a [query] the
    result is the failure [query parameter is required]; and since the RAG
    service is a stub, a successful result never holds a document: its data
    are the empty [data] and [sources]. *)
Theorem ragQuery_finds_nothing (args : JVal) (context : ToolContext) (w : World) :
  is_nullish args = false ->
  exists r,
    ragQuery args context w = (Ok r, w)
    /\ (truthy (jget args "query") = false -> r = failure "query parameter is required")
    /\ (success r = true ->
        truthy (jget args "query") = true
        /\ source_is_rag (topic (knowledge (agentConfig context))
                            (as_identifier (arg_default args "source" (JStr "companyInfo"))))
           = true
        /\ data r = JObj [("data", JArr []); ("sources", JArr [])]).
Proof.
  intros Hargs. unfold ragQuery, bind, lift, catch, ret.
  rewrite (destructure_object _ Hargs).
  destruct (truthy (jget args "query")); cbn [negb].
  - unfold source_is_rag.
    destruct (topic _ _) as [knowledgeConfig|].
    + destruct (source knowledgeConfig);
        (eexists; split; [reflexivity|]; split; [discriminate|]);
        first [discriminate | intros _; repeat split; reflexivity].
    + eexists. split; [reflexivity|]. split; discriminate.
  - eexists. split; [reflexivity|]. split; [reflexivity | discriminate].
Qed.

End ToolEdges.

Section AdvertisedAndFound.
Import Store Config ToolRegistry.
Context {E : Env}.

Lemma find_unique {A : Type} (f : A -> bool) (l : list A) (x : A) :
  In x l -> f x = true ->
  (forall y, In y l -> f y = true -> y = x) ->
  find f l = Some x.
Proof.
  intros Hin Hfx Huniq.
  destruct (find f l) as [y|] eqn:Hfind.
  - apply find_some in Hfind. destruct Hfind as [Hy Hfy]. now rewrite (Huniq y Hy Hfy).
  - apply (find_none _ _ Hfind) in Hin. congruence.
Qed.

Lemma core_definitions_registered (agentConfig : AgentConfig) (d : ToolDefinition) :
  In d (core_definitions agentConfig) ->
  In (td_name d) ["search_product"; "add_to_cart"; "get_order"; "show_product";
                  "rag_query"].
Proof.
  unfold core_definitions. intros Hd.
  repeat (apply in_app_or in Hd; destruct Hd as [Hd | Hd]);
    match type of Hd with
    | In _ (if ?b then _ else _) => destruct b
    end;
    try destruct Hd as [<- | []]; try destruct Hd; simpl; tauto.
Qed.

(** X18. Every tool that [getToolDefinitions] advertises can be executed,
    provided no two custom tools of the configuration share a name: an
    advertised name is that of an enabled custom tool with a base URL, which
    [findCustomTool] then finds, or that of a registered core tool; so
    [executeTool] never answers [Tool not found] for it. *)
Theorem advertised_tools_resolve (agentConfig : AgentConfig) (d : ToolDefinition) :
  (forall l t1 t2, custom (tools agentConfig) = Some l ->
                   In t1 l -> In t2 l -> name t1 = name t2 -> t1 = t2) ->
  In d (getToolDefinitions agentConfig) ->
  (exists t, findCustomTool (td_name d) agentConfig = Some t
             /\ d = def_custom t /\ present (baseUrl t) = true)
  \/ (exists executor, core_executor (td_name d) = Some executor).
Proof.
  intros Huniq Hd. unfold getToolDefinitions in Hd.
  apply in_app_or in Hd. destruct Hd as [Hcore | Hcustom].
  - right. unfold advertised_core in Hcore.
    assert (Hname : In (td_name d) ["search_product"; "add_to_cart"; "get_order";
                                    "show_product"; "rag_query"]).
    { destruct (effective_mode agentConfig);
        [apply (core_definitions_registered agentConfig) | destruct Hcore
        | apply (core_definitions_registered agentConfig)]; exact Hcore. }
    simpl in Hname.
    destruct Hname as [<- | [<- | [<- | [<- | [<- | []]]]]]; eexists; reflexivity.
  - left. unfold advertised_custom in Hcustom.
    destruct (custom (tools agentConfig)) as [l|] eqn:Hl;
      [|destruct (effective_mode agentConfig); destruct Hcustom].
    assert (Hin : In d (flat_map custom_definition l)).
    { destruct (effective_mode agentConfig); [destruct Hcustom | exact Hcustom..]. }
    apply in_flat_map in Hin. destruct Hin as (t & Ht & Hdt).
    unfold custom_definition in Hdt.
    destruct (present (name t)) eqn:Hname; [|destruct Hdt].
    destruct (present (baseUrl t)) eqn:Hbase; [|destruct Hdt].
    cbn [negb orb] in Hdt.
    destruct (strictly_enabled t) eqn:Henabled; [|destruct Hdt].
    destruct Hdt as [<- | []].
    exists t. split; [|auto].
    unfold findCustomTool. rewrite Hl.
    destruct (name t) as [n|] eqn:Hn; [|discriminate].
    cbn [def_custom td_name interpolate].
    rewrite (find_unique _ l t Ht).
    + now rewrite Henabled.
    + rewrite Hn. apply String.eqb_refl.
    + intros y Hy Hfy. apply (Huniq l y t eq_refl Hy Ht).
      destruct (name y) as [m|]; [|discriminate].
      apply String.eqb_eq in Hfy. now rewrite Hfy, Hn.
Qed.

(** Without the proviso the statement fails: a disabled tool hides an
    enabled one of the same name from [findCustomTool]. *)
Example shadowed_custom_tool :
  let off := {| name := Some "get_student"; baseUrl := Some "https://school.example";
                path := None; method := None; apiKeyEncrypted := None;
                ct_enabled := Some false; description := None; parameters := None |} in
  let cfg := Sample.shop (Some mode_custom) (Some [off; Sample.students_tool]) in
  map td_name (getToolDefinitions cfg) = ["get_student"]
  /\ findCustomTool "get_student" cfg = None.
Proof. split; reflexivity. Qed.

End AdvertisedAndFound.

Section ToolEdgeRuns.
Import Store Config ToolRegistry SampleEnv.

Lemma advertised_tools_resolve_witness :
  In def_get_order (getToolDefinitions default_shop)
  /\ ((exists t, findCustomTool (td_name def_get_order) default_shop = Some t
                 /\ def_get_order = def_custom t /\ present (baseUrl t) = true)
      \/ (exists executor, @core_executor plain (td_name def_get_order) = Some executor)).
Proof.
  assert (Hin : In def_get_order (getToolDefinitions default_shop)).
  { simpl. tauto. }
  split; [exact Hin|].
  apply (@advertised_tools_resolve plain default_shop def_get_order); [|exact Hin].
  intros l t1 t2 Hl. discriminate Hl.
Defined.



Lemma searchProduct_without_store_witness :
  is_nullish (JObj [("query", JStr "mesa")]) = false
  /\ searchQuery_of (arg_default (JObj [("query", JStr "mesa")]) "query" (JStr "")) = Ok "mesa"
  /\ @searchProduct plain (JObj [("query", JStr "mesa")]) (at_shop Shops.rag_shop) one_table
     = (Ok (succeeded (JObj [("products", JArr []); ("count", JNum 0)])), one_table).
Proof.
  split; [reflexivity|]. split; [reflexivity|].
  exact (proj1 (proj2 (@searchProduct_without_store plain
                         (JObj [("query", JStr "mesa")]) (at_shop Shops.rag_shop)
                         one_table "mesa" eq_refl eq_refl))
           eq_refl).
Defined.

Lemma getOrder_tenant_isolation_witness :
  is_nullish (JObj [("email", JStr "ana@example.com")]) = false
  /\ exists r,
       @getOrder plain (JObj [("email", JStr "ana@example.com")]) shop_context one_table
       = (Ok r, one_table).
Proof.
  split; [reflexivity|].
  destruct (@getOrder_tenant_isolation plain (JObj [("email", JStr "ana@example.com")])
              shop_context one_table eq_refl) as (r & Hrun & _).
  exists r. exact Hrun.
Defined.

Lemma ragQuery_finds_nothing_witness :
  is_nullish (JObj [("query", JStr "horario")]) = false
  /\ exists r,
       @ragQuery plain (JObj [("query", JStr "horario")]) shop_context one_table
       = (Ok r, one_table).
Proof.
  split; [reflexivity|].
  destruct (@ragQuery_finds_nothing plain (JObj [("query", JStr "horario")])
              shop_context one_table eq_refl) as (r & Hrun & _).
  exists r. exact Hrun.
Defined.

End ToolEdgeRuns.

(* ================================================================== *)
(** * Facts: the provider calls of a turn                              *)
(* ================================================================== *)

Section Calls.
Import Store Outcome Frames.

Lemma calls_quiet {A : Type} (m : M A) : quiet m -> calls_between 0 0 m.
Proof.
  intros Hm w. exists []. rewrite (Hm w), app_nil_r. simpl.
  split; [reflexivity|]. split; [lia | intros; lia].
Qed.

Lemma calls_throw {A : Type} (lo : nat) (e : string) : calls_between lo 0 (@throw A e).
Proof.
  intros w. exists []. simpl. rewrite app_nil_r.
  split; [reflexivity|]. split; [lia | discriminate].
Qed.

Lemma calls_weaken {A : Type} (lo hi lo' hi' : nat) (m : M A) :
  lo' <= lo -> hi <= hi' -> calls_between lo hi m -> calls_between lo' hi' m.
Proof.
  intros Hlo Hhi Hm w. destruct (Hm w) as (requests & Hlog & Hmax & Hmin).
  exists requests. split; [exact Hlog|]. split; [lia|].
  intros a Ha. specialize (Hmin a Ha). lia.
Qed.

Lemma calls_bind {A B : Type} (a b c d : nat) (m : M A) (k : A -> M B) :
  calls_between a b m -> (forall x, calls_between c d (k x)) ->
  calls_between (a + c) (b + d) (bind m k).
Proof.
  intros Hm Hk w. unfold bind.
  destruct (Hm w) as (first & Hlog & Hmax & Hmin).
  destruct (m w) as [[x|e] w1]; simpl in *.
  - destruct (Hk x w1) as (second & Hlog2 & Hmax2 & Hmin2).
    exists (first ++ second)%list. rewrite Hlog2, Hlog, app_assoc, length_app.
    split; [reflexivity|]. split; [lia|].
    intros y Hy. specialize (Hmin x eq_refl). specialize (Hmin2 y Hy). lia.
  - exists first. split; [exact Hlog|]. split; [lia | discriminate].
Qed.

Lemma calls_catch {A : Type} (a b c d : nat) (m : M A) (handler : string -> M A) :
  calls_between a b m -> (forall e, calls_between c d (handler e)) ->
  calls_between 0 (b + d) (catch m handler).
Proof.
  intros Hm Hh w. unfold catch.
  destruct (Hm w) as (first & Hlog & Hmax & Hmin).
  destruct (m w) as [[x|e] w1]; simpl in *.
  - exists first. split; [exact Hlog|]. split; [lia | intros; lia].
  - destruct (Hh e w1) as (second & Hlog2 & Hmax2 & Hmin2).
    exists (first ++ second)%list. rewrite Hlog2, Hlog, app_assoc, length_app.
    split; [reflexivity|]. split; [lia | intros; lia].
Qed.

End Calls.

Section TurnCalls.
Import Store Config LLM ToolRegistry PromptBuilder AgentOrchestrator Outcome Frames.
Context {E : Env} {P : Prompts}.

Lemma calls_ret {A : Type} (a : A) : calls_between 0 0 (ret a).
Proof. apply calls_quiet, quiet_ret. Qed.

Lemma calls_lift {A : Type} (e : Exc A) : calls_between 0 0 (lift e).
Proof. apply calls_quiet, quiet_lift. Qed.

Lemma calls_gets {A : Type} (f : World -> A) : calls_between 0 0 (gets f).
Proof. apply calls_quiet, quiet_gets. Qed.

Lemma calls_generate (config : LLMConfig) (messages : list LLMMessage)
  (tools : option (list ToolDefinition)) :
  calls_between 1 1 (generate config messages tools).
Proof.
  intros w. eexists [_]. unfold generate. simpl.
  split; [reflexivity|]. split; [lia | intros; lia].
Qed.

Lemma calls_generateResponseFromCustomTool (agentConfig : AgentConfig)
  (originalMessage toolData toolName : JVal) :
  calls_between 1 1
    (generateResponseFromCustomTool agentConfig originalMessage toolData toolName).
Proof.
  unfold generateResponseFromCustomTool.
  apply (calls_bind 1 1 0 0); [apply calls_generate|]. intros llmResponse.
  apply (calls_bind 0 0 0 0); [apply calls_lift|]. intros parsed.
  apply (calls_bind 0 0 0 0); [apply calls_lift|]. intros audio. apply calls_ret.
Qed.

Lemma calls_generateResponseFromToolResults (agentConfig : AgentConfig)
  (originalMessages : list LLMMessage) (toolResults : list ToolRun) :
  calls_between 1 1
    (generateResponseFromToolResults agentConfig originalMessages toolResults).
Proof.
  unfold generateResponseFromToolResults.
  apply (calls_bind 1 1 0 0); [apply calls_generate|]. intros followUp.
  apply (calls_bind 0 0 0 0); [apply calls_lift|]. intros parsed.
  apply (calls_bind 0 0 0 0); [apply calls_lift|]. intros audio. apply calls_ret.
Qed.

Lemma calls_success_response (toolResult : ToolResult) (parsedResponse : AgentResponse)
  (actionType actionPayload : JVal) (agentConfig : AgentConfig) (userMessage : string) :
  calls_between 0 1
    (success_response toolResult parsedResponse actionType actionPayload agentConfig
       userMessage).
Proof.
  unfold success_response.
  repeat match goal with
         | |- calls_between _ _ (if ?b then _ else _) => destruct b
         end;
    try (apply (calls_weaken 0 0); [lia | lia | apply calls_lift]);
    try (apply (calls_weaken 0 0); [lia | lia |];
         apply (calls_bind 0 0 0 0); [apply calls_lift | intros; apply calls_lift]).
  apply (calls_weaken 1 1); [lia | lia |].
  apply (calls_bind 1 1 0 0); [apply calls_generateResponseFromCustomTool|].
  intros custom. apply calls_ret.
Qed.

Lemma calls_executeActionFromResponse (parsedResponse : AgentResponse)
  (context : OrchestratorContext) (agentConfig : AgentConfig)
  (extractedContext : ExtractedContext) (userMessage : string) :
  calls_between 0 1
    (executeActionFromResponse parsedResponse context agentConfig extractedContext
       userMessage).
Proof.
  unfold executeActionFromResponse.
  apply (calls_catch 0 1 0 0).
  - apply (calls_bind 0 0 0 1); [apply calls_quiet, quiet_dispatch_action|].
    intros [toolResult|]; [|apply (calls_weaken 0 0); [lia | lia | apply calls_ret]].
    destruct (needsUserInput toolResult);
      [apply (calls_weaken 0 0); [lia | lia | apply calls_lift]|].
    destruct (success toolResult);
      [apply calls_success_response
      | apply (calls_weaken 0 0); [lia | lia | apply calls_lift]].
  - intros e. unfold caught_response.
    apply (calls_bind 0 0 0 0); [apply calls_lift | intros; apply calls_ret].
Qed.

Lemma calls_answer (context : OrchestratorContext) (agentConfig : AgentConfig)
  (messages : list LLMMessage) (extractedContext : ExtractedContext)
  (userMessage : string) (llmResponse : LLMResponse) :
  calls_between 0 1
    (answer context agentConfig messages extractedContext userMessage llmResponse).
Proof.
  unfold answer.
  assert (Hinline :
    calls_between 0 1
      (bind (lift (parseLLMResponse (r_content llmResponse)))
         (fun parsedResponse =>
            if truthy (jget (action parsedResponse) "type")
            then bind (executeActionFromResponse parsedResponse context agentConfig
                         extractedContext userMessage)
                   (fun finalResponse => ret (finalResponse, @nil string))
            else ret (parsedResponse, @nil string)))).
  { apply (calls_bind 0 0 0 1); [apply calls_lift|]. intros parsed.
    destruct (truthy _).
    - apply (calls_bind 0 1 0 0); [apply calls_executeActionFromResponse|].
      intros final. apply calls_ret.
    - apply (calls_weaken 0 0); [lia | lia | apply calls_ret]. }
  destruct (toolCalls llmResponse) as [[|first others]|]; try exact Hinline.
  apply (calls_bind 0 0 0 1); [apply calls_quiet, quiet_run_tool_calls|].
  intros toolResults. apply (calls_weaken 1 1); [lia | lia |].
  apply (calls_bind 1 1 0 0); [apply calls_generateResponseFromToolResults|].
  intros final. apply calls_ret.
Qed.

Lemma quiet_saveConversation (context : OrchestratorContext) (userMessage : string)
  (response : AgentResponse) :
  quiet (saveConversation context userMessage response).
Proof.
  assert (Hsave : forall r text act used,
            quiet (saveMessage (tenantId context) (userId context)
                     (x_conversationId context) r text act used)).
  { intros r text act used w'. unfold saveMessage.
    now destruct (insertOne_error _). }
  unfold saveConversation.
  apply quiet_catch; [|intros e; apply quiet_ret].
  apply quiet_bind; [apply Hsave|]. intros _.
  destruct (is_nullish _); [apply quiet_throw | apply Hsave].
Qed.

(** X19. A turn never calls the provider more than twice, and a turn that
    returns a response has called it at least once: [processMessage] adds
    one or two requests to the log of provider calls when it returns, and
    at most two when it throws. *)
Theorem processMessage_provider_calls (context : OrchestratorContext)
  (userMessage : string) (w : World) :
  exists requests,
    llm_log (snd (processMessage context userMessage w)) = (llm_log w ++ requests)%list
    /\ List.length requests <= 2
    /\ (forall r, fst (processMessage context userMessage w) = Ok r ->
                  1 <= List.length requests).
Proof.
  revert w. change (calls_between 1 2 (processMessage context userMessage)).
  unfold processMessage.
  apply (calls_bind 0 0 1 2); [apply calls_gets|]. intros startTime.
  apply (calls_bind 0 0 1 2); [apply calls_gets|]. intros [agentConfig|].
  2: apply (calls_weaken 1 0); [lia | lia | apply calls_throw].
  apply (calls_bind 0 0 1 2); [apply calls_gets|]. intros lastMessages.
  apply (calls_bind 0 0 1 2); [apply calls_lift|]. intros extractedContext.
  apply (calls_bind 0 0 1 2); [apply calls_lift|]. intros messages.
  apply (calls_bind 1 1 0 1); [apply calls_generate|]. intros llmResponse.
  destruct (token_counts _ _) as [[actualInputTokens outputTokens] totalTokens].
  apply (calls_bind 0 1 0 0); [apply calls_answer|]. intros [finalResponse toolsUsed].
  apply (calls_bind 0 0 0 0); [apply calls_gets|]. intros now.
  apply (calls_bind 0 0 0 0); [apply calls_quiet, quiet_saveConversation|]. intros _.
  apply calls_ret.
Qed.

End TurnCalls.

(* ================================================================== *)
(** * Facts: what a turn stores                                        *)
(* ================================================================== *)

Section TurnActions.
Import Store Config LLM ToolRegistry PromptBuilder AgentOrchestrator Outcome.
Context {E : Env} {P : Prompts}.

Lemma jor_truthy (a b : JVal) : truthy b = true -> truthy (jor a b) = true.
Proof. intros Hb. unfold jor. now destruct (truthy a) eqn:Ha. Qed.

Lemma parseLLMResponse_action_truthy (content : string) (r : AgentResponse) :
  parseLLMResponse content = Ok r -> truthy (action r) = true.
Proof.
  unfold parseLLMResponse.
  assert (Hplain : plain_response content = Ok r -> truthy (action r) = true).
  { intros Hr. now rewrite (plain_response_action _ _ Hr). }
  destruct (parse_body content) as [r0|e] eqn:Hbody; [|exact Hplain].
  intros Hr. inversion Hr; subst r0. clear Hr.
  unfold parse_body in Hbody.
  destruct (matchBraces content) as [text|]; [|auto].
  destruct (JSON_parse text) as [parsed|e]; simpl in Hbody; [|discriminate].
  destruct (is_nullish parsed); [discriminate|].
  match type of Hbody with exc_bind ?a _ = _ => destruct a end;
    simpl in Hbody; [|discriminate].
  inversion Hbody; subst r. cbn [action respond]. now apply jor_truthy.
Qed.

Lemma action_loop_truthy (runs : list ToolRun) (a : JVal) :
  truthy a = true -> truthy (fold_left action_step runs a) = true.
Proof.
  revert a. induction runs as [|run rest IH]; intros a Ha; simpl; [exact Ha|].
  apply IH. unfold action_step. destruct (success (result run)); [|exact Ha].
  repeat match goal with
         | |- context [if ?b then _ else _] => destruct b
         end; reflexivity.
Qed.

Lemma always_action_truthy_shaped (message action : JVal) :
  truthy action = true ->
  always (fun r => truthy (AgentOrchestrator.action r) = true)
    (lift (shaped message action)).
Proof.
  intros Ha. apply always_lift. intros r Hr. now rewrite (shaped_action _ _ _ Hr).
Qed.

Lemma generateResponseFromToolResults_action_truthy (agentConfig : AgentConfig)
  (originalMessages : list LLMMessage) (toolResults : list ToolRun) :
  always (fun r => truthy (action r) = true)
    (generateResponseFromToolResults agentConfig originalMessages toolResults).
Proof.
  unfold generateResponseFromToolResults.
  apply always_then. intros followUp. apply always_then. intros parsed.
  apply always_then. intros audio. apply always_ret. cbn [action respond].
  apply action_loop_truthy. now apply jor_truthy.
Qed.

Lemma executeActionFromResponse_action_truthy (parsedResponse : AgentResponse)
  (context : OrchestratorContext) (agentConfig : AgentConfig)
  (extractedContext : ExtractedContext) (userMessage : string) :
  truthy (action parsedResponse) = true ->
  always (fun r => truthy (action r) = true)
    (executeActionFromResponse parsedResponse context agentConfig extractedContext
       userMessage).
Proof.
  intros Hparsed. unfold executeActionFromResponse. apply always_catch.
  - apply always_then. intros [toolResult|]; [|now apply always_ret].
    destruct (needsUserInput toolResult).
    + apply always_lift. intros r Hr. unfold clarifying_response in Hr.
      destruct (generateAudioDescription _ _); simpl in Hr; [|discriminate].
      now inversion Hr.
    + destruct (success toolResult).
      * unfold success_response.
        repeat match goal with
               | |- always _ (if ?b then _ else _) => destruct b
               end;
          try (apply always_then; intros ?);
          try (now apply always_action_truthy_shaped).
        apply always_ret. reflexivity.
      * apply always_lift. intros r Hr. unfold failed_response in Hr.
        destruct (generateAudioDescription _ _); simpl in Hr; [|discriminate].
        now inversion Hr.
  - intros e. unfold caught_response. apply always_then. intros audio.
    now apply always_ret.
Qed.

Lemma answer_action_truthy (context : OrchestratorContext) (agentConfig : AgentConfig)
  (messages : list LLMMessage) (extractedContext : ExtractedContext)
  (userMessage : string) (llmResponse : LLMResponse) :
  always (fun out => truthy (action (fst out)) = true)
    (answer context agentConfig messages extractedContext userMessage llmResponse).
Proof.
  unfold answer.
  assert (Hinline :
    always (fun out => truthy (action (fst out)) = true)
      (bind (lift (parseLLMResponse (r_content llmResponse)))
         (fun parsedResponse =>
            if truthy (jget (action parsedResponse) "type")
            then bind (executeActionFromResponse parsedResponse context agentConfig
                         extractedContext userMessage)
                   (fun finalResponse => ret (finalResponse, @nil string))
            else ret (parsedResponse, @nil string)))).
  { eapply always_bind.
    { apply always_lift. intros r Hr. exact (parseLLMResponse_action_truthy _ _ Hr). }
    intros parsed Hparsed. destruct (truthy (jget _ _)).
    - eapply always_bind; [now apply executeActionFromResponse_action_truthy|].
      intros final Hfinal. now apply always_ret.
    - now apply always_ret. }
  destruct (toolCalls llmResponse) as [[|first others]|]; try exact Hinline.
  apply always_then. intros toolResults.
  eapply always_bind; [apply generateResponseFromToolResults_action_truthy|].
  intros final Hfinal. now apply always_ret.
Qed.

End TurnActions.

Section TurnConversations.
Import Store Config LLM ToolRegistry PromptBuilder AgentOrchestrator Outcome Frames.
Context {E : Env} {P : Prompts}.

Lemma keeps_conversations_of_stable {A : Type} (m : M A) :
  keeps stable m -> keeps conversations m.
Proof. intros Hm w. specialize (Hm w). unfold stable in Hm. now inversion Hm. Qed.

Lemma conversations_generate (config : LLMConfig) (messages : list LLMMessage)
  (tools : option (list ToolDefinition)) :
  keeps conversations (generate config messages tools).
Proof. intros w. reflexivity. Qed.

Lemma conversations_run_tool_calls (calls : list ToolCall) (toolContext : ToolContext) :
  keeps conversations (run_tool_calls calls toolContext).
Proof.
  induction calls as [|toolCall rest IH]; simpl; [apply keeps_ret|].
  apply keeps_bind; [apply keeps_conversations_of_stable, stable_executeTool|].
  intros toolResult. apply keeps_bind; [exact IH|]. intros runs. apply keeps_ret.
Qed.

Lemma conversations_dispatch_action (actionType actionPayload : JVal)
  (toolContext : ToolContext) (extractedContext : ExtractedContext) :
  keeps conversations
    (dispatch_action actionType actionPayload toolContext extractedContext).
Proof.
  unfold dispatch_action.
  repeat first [apply keeps_conversations_of_stable, stable_executeTool | keeps_step].
Qed.

Lemma conversations_executeActionFromResponse (parsedResponse : AgentResponse)
  (context : OrchestratorContext) (agentConfig : AgentConfig)
  (extractedContext : ExtractedContext) (userMessage : string) :
  keeps conversations
    (executeActionFromResponse parsedResponse context agentConfig extractedContext
       userMessage).
Proof.
  unfold executeActionFromResponse, success_response, generateResponseFromCustomTool,
    caught_response.
  repeat first [apply conversations_dispatch_action | apply conversations_generate
               | keeps_step].
Qed.

Lemma conversations_answer (context : OrchestratorContext) (agentConfig : AgentConfig)
  (messages : list LLMMessage) (extractedContext : ExtractedContext)
  (userMessage : string) (llmResponse : LLMResponse) :
  keeps conversations
    (answer context agentConfig messages extractedContext userMessage llmResponse).
Proof.
  unfold answer, generateResponseFromToolResults.
  repeat first [apply conversations_run_tool_calls | apply conversations_generate
               | apply conversations_executeActionFromResponse | keeps_step].
Qed.

(** One step of a computation that keeps the conversations. *)
Lemma conversations_step {A C : Type} (m : M A) (k : A -> M C)
  (Q : Exc C -> World -> Prop) (stored : list ConversationMessage) (w : World) :
  keeps conversations m -> conversations w = stored ->
  (forall e w1, conversations w1 = stored -> Q (Throw e) w1) ->
  (forall a w1, m w = (Ok a, w1) -> conversations w1 = stored ->
                Q (fst (k a w1)) (snd (k a w1))) ->
  Q (fst (bind m k w)) (snd (bind m k w)).
Proof.
  intros Hm Hw Hthrow Hok. unfold bind. specialize (Hm w).
  destruct (m w) as [[a|e] w1] eqn:Hrun; simpl in Hm.
  - apply (Hok a w1 eq_refl). congruence.
  - simpl. apply Hthrow. congruence.
Qed.

(** What [saveConversation] leaves in the store for a response with an
    action: the messages up to the first insertion that the database
    rejects. It never throws. *)
Lemma saveConversation_stores (context : OrchestratorContext) (userMessage : string)
  (response : AgentResponse) (w : World) :
  is_nullish (action response) = false ->
  let user :=
    {| m_tenantId := tenantId context; m_userId := userId context;
       m_conversationId := x_conversationId context;
       m_role := role_user; m_content := JStr userMessage;
       m_action := None; m_toolsUsed := None; m_createdAt := clock w |} in
  let assistant :=
    {| m_tenantId := tenantId context; m_userId := userId context;
       m_conversationId := x_conversationId context;
       m_role := role_assistant; m_content := message response;
       m_action :=
         if truthy (jget (action response) "type")
         then Some {| sa_type := jget (action response) "type";
                      sa_payload := jget (action response) "payload" |}
         else None;
       m_toolsUsed := match meta response with
                      | Some m => toolsUsed m
                      | None => None
                      end;
       m_createdAt := S (clock w) |} in
  exists w',
    saveConversation context userMessage response w = (Ok tt, w')
    /\ conversations w'
       = (conversations w ++
          match insertOne_error user with
          | Some _ => []
          | None => match insertOne_error assistant with
                    | Some _ => [user]
                    | None => [user; assistant]
                    end
          end)%list.
Proof.
  intros Haction user assistant.
  unfold saveConversation, catch, bind, saveMessage. fold user.
  destruct (insertOne_error user) as [e|].
  - exists w. split; [reflexivity | now rewrite app_nil_r].
  - rewrite Haction. cbn [clock tick with_conversations]. fold assistant.
    destruct (insertOne_error assistant) as [e|]; eexists; split; try reflexivity.
    cbn [conversations tick with_conversations]. now rewrite <- app_assoc.
Qed.

(** X20. What a turn stores. A turn that throws stores no message; in
    particular, without a configuration for the tenant and agent
    [processMessage] throws [Agent config not found] and changes nothing. A
    turn that returns has tried to store two messages in the conversation of
    the context: the user's text, then the assistant's message with the
    tools used and with the response's action when its type is truthy. It
    has appended both when the database accepted both insertions, only the
    user's text when it rejected the second, and nothing when it rejected
    the first: the error is swallowed and the response is returned all the
    same. The response carries the conversation id of the context, and its
    action is never null or undefined. *)
Theorem processMessage_stores_the_turn (context : OrchestratorContext)
  (userMessage : string) (w : World) :
  (forall e w', processMessage context userMessage w = (Throw e, w') ->
     conversations w' = conversations w)
  /\ (getByTenant (tenantId context)
        match agentId context with
        | Some a => if a =? "" then "default" else a
        | None => "default"
        end w = None ->
      processMessage context userMessage w
      = (Throw ("Agent config not found for tenant: " ++ tenantId context), w))
  /\ (forall r w', processMessage context userMessage w = (Ok r, w') ->
        conversationId r = Some (x_conversationId context)
        /\ is_nullish (action r) = false
        /\ exists t,
             let user :=
               {| m_tenantId := tenantId context; m_userId := userId context;
                  m_conversationId := x_conversationId context;
                  m_role := role_user; m_content := JStr userMessage;
                  m_action := None; m_toolsUsed := None; m_createdAt := t |} in
             let assistant :=
               {| m_tenantId := tenantId context; m_userId := userId context;
                  m_conversationId := x_conversationId context;
                  m_role := role_assistant; m_content := message r;
                  m_action :=
                    if truthy (jget (action r) "type")
                    then Some {| sa_type := jget (action r) "type";
                                 sa_payload := jget (action r) "payload" |}
                    else None;
                  m_toolsUsed := match meta r with
                                 | Some m => toolsUsed m
                                 | None => None
                                 end;
                  m_createdAt := S t |} in
             (insertOne_error user = None -> insertOne_error assistant = None ->
              conversations w' = (conversations w ++ [user; assistant])%list)
             /\ (insertOne_error user = None -> insertOne_error assistant <> None ->
                 conversations w' = (conversations w ++ [user])%list)
             /\ (insertOne_error user <> None -> conversations w' = conversations w)).
Proof.
  set (Q := fun (r : Exc AgentResponse) (w' : World) =>
    match r with
    | Throw _ => conversations w' = conversations w
    | Ok r =>
        conversationId r = Some (x_conversationId context)
        /\ is_nullish (action r) = false
        /\ exists t,
             let user :=
               {| m_tenantId := tenantId context; m_userId := userId context;
                  m_conversationId := x_conversationId context;
                  m_role := role_user; m_content := JStr userMessage;
                  m_action := None; m_toolsUsed := None; m_createdAt := t |} in
             let assistant :=
               {| m_tenantId := tenantId context; m_userId := userId context;
                  m_conversationId := x_conversationId context;
                  m_role := role_assistant; m_content := message r;
                  m_action :=
                    if truthy (jget (action r) "type")
                    then Some {| sa_type := jget (action r) "type";
                                 sa_payload := jget (action r) "payload" |}
                    else None;
                  m_toolsUsed := match meta r with
                                 | Some m => toolsUsed m
                                 | None => None
                                 end;
                  m_createdAt := S t |} in
             (insertOne_error user = None -> insertOne_error assistant = None ->
              conversations w' = (conversations w ++ [user; assistant])%list)
             /\ (insertOne_error user = None -> insertOne_error assistant <> None ->
                 conversations w' = (conversations w ++ [user])%list)
             /\ (insertOne_error user <> None -> conversations w' = conversations w)
    end).
  assert (Hrun : Q (fst (processMessage context userMessage w))
                   (snd (processMessage context userMessage w))).
  { unfold processMessage.
    apply (conversations_step _ _ Q (conversations w));
      [apply keeps_gets | reflexivity | intros e w1 Hw1; exact Hw1|].
    intros startTime w1 _ Hw1.
    apply (conversations_step _ _ Q (conversations w));
      [apply keeps_gets | exact Hw1 | intros e w2 Hw2; exact Hw2|].
    intros [agentConfig|] w2 _ Hw2; [|exact Hw2].
    apply (conversations_step _ _ Q (conversations w));
      [apply keeps_gets | exact Hw2 | intros e w3 Hw3; exact Hw3|].
    intros lastMessages w3 _ Hw3.
    apply (conversations_step _ _ Q (conversations w));
      [apply keeps_lift | exact Hw3 | intros e w4 Hw4; exact Hw4|].
    intros extractedContext w4 _ Hw4.
    apply (conversations_step _ _ Q (conversations w));
      [apply keeps_lift | exact Hw4 | intros e w5 Hw5; exact Hw5|].
    intros messages w5 _ Hw5.
    apply (conversations_step _ _ Q (conversations w));
      [apply conversations_generate | exact Hw5 | intros e w6 Hw6; exact Hw6|].
    intros llmResponse w6 _ Hw6.
    destruct (token_counts _ _) as [[actualInputTokens outputTokens] totalTokens].
    apply (conversations_step _ _ Q (conversations w));
      [apply conversations_answer | exact Hw6 | intros e w7 Hw7; exact Hw7|].
    intros [finalResponse used] w7 Hanswer Hw7.
    pose proof (answer_action_truthy _ _ _ _ _ _ _ _ _ Hanswer) as Htruthy.
    cbn [fst] in Htruthy.
    assert (Haction : is_nullish (action finalResponse) = false)
      by now destruct (action finalResponse).
    change (bind (gets clock) ?k w7) with (k (clock w7) w7). cbv beta.
    match goal with
    | |- context [saveConversation context userMessage ?r] => set (stored := r)
    end.
    destruct (saveConversation_stores context userMessage stored w7 Haction)
      as (w8 & Hsave & Hstored).
    unfold bind. rewrite Hsave. unfold ret. cbn [fst snd Q].
    split; [reflexivity|]. split; [exact Haction|].
    exists (clock w7). cbv zeta. rewrite Hstored, Hw7.
    change (message (with_conversationId (x_conversationId context) stored))
      with (message stored).
    change (action (with_conversationId (x_conversationId context) stored))
      with (action stored).
    change (meta (with_conversationId (x_conversationId context) stored))
      with (meta stored).
    split; [|split].
    - intros Hu Ha. now rewrite Hu, Ha.
    - intros Hu Ha. rewrite Hu.
      match type of Ha with ?x <> None => destruct x end; [reflexivity | now elim Ha].
    - intros Hu.
      match type of Hu with ?x <> None => destruct x end;
        [now rewrite app_nil_r | now elim Hu]. }
  split; [|split].
  - intros e w' Heq. rewrite Heq in Hrun. exact Hrun.
  - intros Hnone. unfold processMessage, bind, gets, throw. now rewrite Hnone.
  - intros r w' Heq. rewrite Heq in Hrun. exact Hrun.
Qed.

End TurnConversations.

(* ================================================================== *)
(** * Facts: actions and descriptions                                  *)
(* ================================================================== *)

Section Descriptions.
Import Store AgentOrchestrator Shape.
Context {E : Env}.

Lemma length_take (n : nat) (s : string) : String.length (take n s) <= n.
Proof.
  revert s. induction n as [|n IH]; intros [|c s]; simpl; try lia.
  specialize (IH s). lia.
Qed.

Lemma length_take_full (n : nat) (s : string) :
  n <= String.length s -> String.length (take n s) = n.
Proof.
  revert s. induction n as [|n IH]; intros [|c s]; simpl; try lia.
  intros H. rewrite IH; lia.
Qed.

Lemma length_append (a b : string) :
  String.length (a ++ b) = String.length a + String.length b.
Proof. induction a as [|c a IH]; simpl; [reflexivity | now rewrite IH]. Qed.

(** X21. The audio description of a text is the text itself when it has
    at most 200 characters, and otherwise its first 197 characters followed
    by an ellipsis, 200 characters in all; when the action has a truthy type
    the sentence [ Acción: <type>.] is appended after the cut, so that only
    then can the description exceed 200 characters. It never throws on a
    text. *)
Theorem generateAudioDescription_bound (text : string) (action : JVal) :
  generateAudioDescription (JStr text) action
  = Ok (JStr (if truthy (jget action "type")
              then spoken text ++ " Acción: " ++ to_string (jget action "type") ++ "."
              else spoken text))
  /\ String.length (spoken text) <= 200
  /\ (String.length text <= 200 -> spoken text = text)
  /\ (200 < String.length text ->
      spoken text = take 197 text ++ "..." /\ String.length (spoken text) = 200).
Proof.
  split; [|split; [|split]].
  - unfold generateAudioDescription, spoken, js_gt. cbn [is_nullish jget to_number].
    change ("length" =? "length") with true. unfold to_number. cbv iota.
    change 200%Q with (inject_Z (Z.of_nat 200)).
    rewrite Qlt_bool_nat.
    destruct (Nat.ltb 200 (String.length text)); cbn [exc_bind to_string];
      now destruct (truthy (jget action "type")).
  - unfold spoken. destruct (Nat.ltb_spec 200 (String.length text)) as [Hlong | Hshort].
    + rewrite length_append. pose proof (length_take 197 text) as Hcut.
      change (String.length "...") with 3. lia.
    + exact Hshort.
  - intros Hshort. unfold spoken.
    destruct (Nat.ltb_spec 200 (String.length text)); [lia | reflexivity].
  - intros Hlong. unfold spoken.
    destruct (Nat.ltb_spec 200 (String.length text)); [|lia].
    split; [reflexivity|]. rewrite length_append, length_take_full; [|lia].
    reflexivity.
Qed.

End Descriptions.

Section ActionLoop.
Import Store Config LLM ToolRegistry PromptBuilder AgentOrchestrator Outcome.
Context {E : Env} {P : Prompts}.

Lemma action_loop_failed (runs : list ToolRun) (a : JVal) :
  Forall (fun run => success (result run) = false) runs ->
  fold_left action_step runs a = a.
Proof.
  intros Hruns. revert a. induction Hruns as [|run rest Hrun Hrest IH]; intros a; simpl.
  - reflexivity.
  - rewrite IH. unfold action_step. now rewrite Hrun.
Qed.

Lemma action_step_succeeded (a b : JVal) (run : ToolRun) :
  success (result run) = true -> action_step a run = action_step b run.
Proof. intros Hrun. unfold action_step. now rewrite Hrun. Qed.

Lemma action_loop_last (pre post : list ToolRun) (run : ToolRun) (a : JVal) :
  success (result run) = true ->
  Forall (fun x => success (result x) = false) post ->
  fold_left action_step (pre ++ run :: post) a = action_step JNull run.
Proof.
  intros Hrun Hpost. rewrite fold_left_app. simpl.
  rewrite (action_loop_failed post _ Hpost). now apply action_step_succeeded.
Qed.

Lemma action_step_type (a : JVal) (run : ToolRun) :
  success (result run) = true -> jget (action_step a run) "type" = JStr (tool run).
Proof.
  intros Hrun. unfold action_step. rewrite Hrun.
  repeat match goal with
         | |- context [if ?x =? ?y then _ else _] =>
             destruct (String.eqb_spec x y) as [-> | _]
         end; reflexivity.
Qed.

(** X22. The action of the response to a turn with tool calls. When a
    tool succeeded, the action is the one built from the last successful
    tool alone, its type being that tool's name, whatever the provider's
    narration says; when no tool succeeded, the action is the one of the
    parsed narration, or the null action when that one is falsy. The message
    is always the one of the parsed narration. *)
Theorem tool_results_action (agentConfig : AgentConfig)
  (originalMessages : list LLMMessage) (toolResults : list ToolRun)
  (w : World) (r : AgentResponse) (w' : World) :
  generateResponseFromToolResults agentConfig originalMessages toolResults w = (Ok r, w') ->
  exists followUp parsed,
    parseLLMResponse (r_content followUp) = Ok parsed
    /\ from_provider followUp
    /\ message r = message parsed
    /\ (forall pre run post,
          toolResults = (pre ++ run :: post)%list ->
          success (result run) = true ->
          Forall (fun x => success (result x) = false) post ->
          action r = action_step JNull run /\ jget (action r) "type" = JStr (tool run))
    /\ (Forall (fun x => success (result x) = false) toolResults ->
        action r = jor (action parsed) null_action).
Proof.
  unfold generateResponseFromToolResults, bind, generate, lift, ret.
  destruct (provider_generate _ _) as [followUp|e] eqn:Hprovider; [|discriminate].
  destruct (parseLLMResponse _) as [parsed|e] eqn:Hparsed; [|discriminate].
  cbv beta iota.
  match goal with
  | |- context [if truthy (audio_description parsed) then ?a else ?b] =>
      destruct (if truthy (audio_description parsed) then a else b) as [audio|e];
        [|discriminate]
  end.
  intros Hrun. inversion Hrun; subst. clear Hrun.
  exists followUp, parsed. split; [exact Hparsed|].
  split; [unfold from_provider; eauto|]. split; [reflexivity|].
  cbn [action respond]. split.
  - intros pre run post -> Hsuccess Hpost.
    rewrite (action_loop_last pre post run _ Hsuccess Hpost).
    split; [reflexivity | now apply action_step_type].
  - intros Hfailed. now apply action_loop_failed.
Qed.

End ActionLoop.

Section InlineActions.
Import Store Config LLM ToolRegistry PromptBuilder AgentOrchestrator Outcome.
Context {E : Env} {P : Prompts}.

(** X23. For a parsed response whose action is not null or undefined (the
    only ones it is called on), [executeActionFromResponse] never throws:
    whatever the action, the tool and the provider do, it returns a
    response. An action whose type is none of [search_product],
    [add_to_cart], [show_product] and [get_order] and names no enabled
    custom tool of the configuration runs no tool: the parsed response is
    returned as it is and the world is left as it was. When the tool fails
    without asking for input, the response is the tool's error, or a fixed
    apology when there is none, with the null action. *)
Theorem executeActionFromResponse_total (parsedResponse : AgentResponse)
  (context : OrchestratorContext) (agentConfig : AgentConfig)
  (extractedContext : ExtractedContext) (userMessage : string) (w : World) :
  is_nullish (action parsedResponse) = false ->
  (exists r w',
     executeActionFromResponse parsedResponse context agentConfig extractedContext
       userMessage w = (Ok r, w'))
  /\ (is_str (jget (action parsedResponse) "type") "search_product" = false ->
      is_str (jget (action parsedResponse) "type") "add_to_cart" = false ->
      is_str (jget (action parsedResponse) "type") "show_product" = false ->
      is_str (jget (action parsedResponse) "type") "get_order" = false ->
      (forall toolName, jget (action parsedResponse) "type" = JStr toolName ->
                        findCustomToolByName toolName agentConfig = None) ->
      executeActionFromResponse parsedResponse context agentConfig extractedContext
        userMessage w = (Ok parsedResponse, w))
  /\ (forall toolResult w1,
        dispatch_action (jget (action parsedResponse) "type")
          (jor (jget (action parsedResponse) "payload") (JObj []))
          {| c_tenantId := tenantId context; c_userId := userId context;
             c_conversationId := x_conversationId context;
             ToolRegistry.agentConfig := agentConfig |}
          extractedContext w = (Ok (Some toolResult), w1) ->
        needsUserInput toolResult = false -> success toolResult = false ->
        exists audio,
          executeActionFromResponse parsedResponse context agentConfig extractedContext
            userMessage w
          = (Ok (respond
                   (jor (of_opt_str (error toolResult))
                      (JStr ("No pude ejecutar la acción "
                             ++ to_string (jget (action parsedResponse) "type")
                             ++ ". Por favor, intenta de nuevo.")))
                   audio null_action), w1)).
Proof.
  intros _. split; [|split].
  - unfold executeActionFromResponse, catch.
    match goal with
    | |- context [match ?m with (_, _) => _ end] => destruct m as [[r|e] w1]
    end; [eauto|].
    unfold caught_response, bind, lift, ret.
    rewrite generateAudioDescription_text. eauto.
  - intros H1 H2 H3 H4 Hcustom.
    unfold executeActionFromResponse, catch, bind, dispatch_action.
    rewrite H1, H2, H3, H4.
    destruct (jget (action parsedResponse) "type") as [| | | |toolName| |] eqn:Htype;
      try reflexivity.
    cbn [ToolRegistry.agentConfig]. rewrite (Hcustom toolName eq_refl).
    now destruct (truthy (JStr toolName)).
  - intros toolResult w1 Hdispatch Hasks Hfails.
    unfold executeActionFromResponse, catch, bind.
    rewrite Hdispatch, Hasks, Hfails. unfold lift, failed_response.
    rewrite generateAudioDescription_text. simpl. eauto.
Qed.

End InlineActions.

(* ================================================================== *)
(** * Facts: the monthly usage of a plan                               *)
(* ================================================================== *)

Section UsageFacts.
Import Usage.
Context {C : Calendar}.

Lemma designated_with_plan (t a : string) (p : PlanConfig) (d : Planned) :
  designated t a (with_plan p d) = designated t a d.
Proof. reflexivity. Qed.

Lemma designated_spec (t a : string) (d : Planned) :
  designated t a d = true <->
  Config.tenantId (p_config d) = t /\ Config.agentId (p_config d) = a.
Proof.
  unfold designated. rewrite andb_true_iff, !String.eqb_eq. tauto.
Qed.

Lemma update_same (t a : string) (p : PlanConfig) (docs : list Planned) :
  getByTenantAndAgent t a (update t a p docs)
  = option_map (with_plan p) (getByTenantAndAgent t a docs).
Proof.
  unfold getByTenantAndAgent, Cursor.findOne.
  induction docs as [|d rest IH]; simpl; [reflexivity|].
  destruct (designated t a d) eqn:Hd; simpl.
  - now rewrite designated_with_plan, Hd.
  - now rewrite Hd.
Qed.

Lemma update_other (t a t' a' : string) (p : PlanConfig) (docs : list Planned) :
  t' <> t \/ a' <> a ->
  getByTenantAndAgent t' a' (update t a p docs) = getByTenantAndAgent t' a' docs.
Proof.
  intros Hother. unfold getByTenantAndAgent, Cursor.findOne.
  induction docs as [|d rest IH]; simpl; [reflexivity|].
  destruct (designated t a d) eqn:Hd; simpl.
  - rewrite designated_with_plan.
    destruct (designated t' a' d) eqn:Hd'; [|reflexivity].
    apply designated_spec in Hd, Hd'. destruct Hd as [<- <-], Hd' as [<- <-].
    destruct Hother as [H | H]; now elim H.
  - now rewrite IH.
Qed.

Lemma update_length (t a : string) (p : PlanConfig) (docs : list Planned) :
  List.length (update t a p docs) = List.length docs.
Proof.
  induction docs as [|d rest IH]; simpl; [reflexivity|].
  destruct (designated t a d); simpl; [reflexivity | now rewrite IH].
Qed.

(** X24. [AgentConfigRepo.checkUsageLimit] throws [Agent config not
    found] exactly when the tenant has no such agent; otherwise it reports
    the usage and the limit of the plan, a remaining amount that is never
    negative, and [allowed] exactly when something remains: the remaining
    amount is the limit less the usage when the usage is under the limit,
    and 0 otherwise. *)
Theorem checkUsageLimit_spec (tenantId agentId : string) (docs : list Planned) :
  (getByTenantAndAgent tenantId agentId docs = None ->
   checkUsageLimit tenantId agentId docs = Throw (not_found tenantId agentId))
  /\ (forall c, checkUsageLimit tenantId agentId docs = Ok c ->
        exists d,
          In d docs
          /\ Config.tenantId (p_config d) = tenantId
          /\ Config.agentId (p_config d) = agentId
          /\ used c = usedThisMonth (plan d) /\ limit c = monthlyLimit (plan d)
          /\ (0 <= remaining c)%Q
          /\ (allowed c = true <-> (0 < remaining c)%Q)
          /\ (allowed c = true -> (remaining c == limit c - used c)%Q)
          /\ (allowed c = false -> remaining c = 0%Q)).
Proof.
  unfold checkUsageLimit. split.
  - intros Hnone. now rewrite Hnone.
  - intros c. destruct (getByTenantAndAgent tenantId agentId docs) as [d|] eqn:Hd;
      [|discriminate].
    intros Hc. inversion Hc; subst c; clear Hc. cbn [used limit remaining allowed].
    unfold getByTenantAndAgent, Cursor.findOne in Hd. apply find_some in Hd.
    destruct Hd as [Hin Hd]. apply designated_spec in Hd. destruct Hd as [Ht Ha].
    exists d. repeat (split; [assumption || reflexivity|]).
    unfold Math_max0.
    destruct (Qle_bool (monthlyLimit (plan d) - usedThisMonth (plan d)) 0) eqn:Hle.
    + apply Qle_bool_iff in Hle.
      assert (Hnot : Store.Qlt_bool (usedThisMonth (plan d)) (monthlyLimit (plan d))
                     = false).
      { apply not_true_is_false. intros H. apply Qlt_bool_iff in H. lra. }
      rewrite Hnot. split; [lra|]. split; [|split; [discriminate | reflexivity]].
      split; [discriminate | intros H; lra].
    + assert (Hpos : (0 < monthlyLimit (plan d) - usedThisMonth (plan d))%Q).
      { apply Qnot_le_lt. intros H. apply Qle_bool_iff in H. congruence. }
      assert (Hlt : Store.Qlt_bool (usedThisMonth (plan d)) (monthlyLimit (plan d))
                    = true).
      { apply Qlt_bool_iff. lra. }
      rewrite Hlt. split; [lra|]. split; [tauto|].
      split; [intros _; reflexivity | discriminate].
Qed.

(** X25. [AgentConfigRepo.incrementUsage] on an existing agent rewrites
    the plan of that agent only. When the renewal time has passed, the usage
    restarts at the amount and the renewal moves one month after now;
    otherwise the amount is added to the usage and the renewal stays. The
    limit and the configuration are kept, no document is added or removed,
    and every other agent reads as before. *)
Theorem incrementUsage_spec (tenantId agentId : string) (amount : Q) (now : nat)
  (docs : list Planned) (d : Planned) :
  getByTenantAndAgent tenantId agentId docs = Some d ->
  exists docs' d',
    incrementUsage tenantId agentId amount now docs = Ok docs'
    /\ getByTenantAndAgent tenantId agentId docs' = Some d'
    /\ p_config d' = p_config d
    /\ monthlyLimit (plan d') = monthlyLimit (plan d)
    /\ plan_type (plan d') = plan_type (plan d)
    /\ (renewsAt (plan d) < now ->
        usedThisMonth (plan d') = amount /\ renewsAt (plan d') = next_month now)
    /\ (now <= renewsAt (plan d) ->
        usedThisMonth (plan d') = (usedThisMonth (plan d) + amount)%Q
        /\ renewsAt (plan d') = renewsAt (plan d))
    /\ List.length docs' = List.length docs
    /\ (forall t a, t <> tenantId \/ a <> agentId ->
                    getByTenantAndAgent t a docs' = getByTenantAndAgent t a docs).
Proof.
  intros Hd. unfold incrementUsage. rewrite Hd.
  destruct (Nat.ltb_spec (renewsAt (plan d)) now) as [Hdue | Hnot].
  - eexists _, _. split; [reflexivity|].
    rewrite update_same, Hd. cbn [option_map]. split; [reflexivity|].
    cbn [with_plan p_config plan monthlyLimit plan_type usedThisMonth renewsAt].
    repeat (split; [reflexivity|]).
    split; [auto|]. split; [lia|]. split; [apply update_length|].
    intros t a Hother. now apply update_other.
  - eexists _, _. split; [reflexivity|].
    rewrite update_same, Hd. cbn [option_map]. split; [reflexivity|].
    cbn [with_plan p_config plan monthlyLimit plan_type usedThisMonth renewsAt].
    repeat (split; [reflexivity|]).
    split; [lia|]. split; [auto|]. split; [apply update_length|].
    intros t a Hother. now apply update_other.
Qed.

End UsageFacts.

Section UsageRuns.
Import Usage.

Lemma incrementUsage_spec_witness :
  let doc := {| p_config := SampleEnv.default_shop;
                plan := {| plan_type := "free"; monthlyLimit := 100;
                           usedThisMonth := 99; renewsAt := 50 |} |} in
  getByTenantAndAgent "shop.example" "default" [doc] = Some doc
  /\ exists docs' c,
       @incrementUsage {| next_month := fun t => t + 30 |}
         "shop.example" "default" 1 10 [doc] = Ok docs'
       /\ checkUsageLimit "shop.example" "default" docs' = Ok c
       /\ allowed c = false.
Proof.
  intros doc. split; [reflexivity|].
  destruct (@incrementUsage_spec {| next_month := fun t => t + 30 |}
              "shop.example" "default" 1 10 [doc] doc eq_refl)
    as (docs' & d' & Hrun & _).
  exists docs'. rewrite Hrun. inversion Hrun; subst docs'.
  eexists. split; [reflexivity|]. split; reflexivity.
Defined.

End UsageRuns.

(* ================================================================== *)
(** * Facts: the JSON that is read from a reply                        *)
(* ================================================================== *)

Section Spans.
Import PathTemplate.

Lemma prefix_brace_here (s : string) :
  prefix "{" s = true -> exists rest, s = String "{" rest.
Proof.
  destruct s as [|c rest]; cbn [prefix]; [discriminate|].
  destruct (ascii_dec "{" c) as [<- | _]; [eauto | discriminate].
Qed.

Lemma prefix_brace_absent (c : ascii) (s : string) :
  prefix "{" (String c s) = false -> (c =? "{")%char = false.
Proof.
  cbn [prefix]. destruct (ascii_dec "{" c) as [<- | Hc].
  - now destruct s.
  - intros _. apply Ascii.eqb_neq. congruence.
Qed.

Lemma indexOf_brace_split (s : string) (i : nat) :
  indexOf "{" s = Some i ->
  exists pre rest,
    s = pre ++ String "{" rest /\ has_char "{" pre = false
    /\ drop i s = String "{" rest.
Proof.
  revert i. induction s as [|c s IH]; intros i; cbn [indexOf].
  - cbn [prefix]. discriminate.
  - destruct (prefix "{" (String c s)) eqn:Hpre.
    + intros Hi. inversion Hi; subst i.
      destruct (prefix_brace_here _ Hpre) as [rest Hrest].
      exists "", rest. rewrite Hrest. auto.
    + destruct (indexOf "{" s) as [j|]; [|discriminate].
      intros Hi. inversion Hi; subst i.
      destruct (IH j eq_refl) as (pre & rest & Hs & Hno & Hdrop).
      exists (String c pre), rest. cbn [append has_char drop].
      rewrite (prefix_brace_absent _ _ Hpre), Hno, Hdrop. rewrite Hs at 1. auto.
Qed.

Lemma indexOf_brace_none (s : string) :
  indexOf "{" s = None -> has_char "{" s = false.
Proof.
  induction s as [|c s IH]; cbn [indexOf has_char]; [reflexivity|].
  destruct (prefix "{" (String c s)) eqn:Hpre; [discriminate|].
  destruct (indexOf "{" s) as [j|]; [discriminate|]. intros _.
  now rewrite (prefix_brace_absent _ _ Hpre), IH.
Qed.

Lemma lastIndexOfChar_none (c : ascii) (s : string) :
  lastIndexOfChar c s = None -> has_char c s = false.
Proof.
  induction s as [|d s IH]; cbn [lastIndexOfChar has_char]; [reflexivity|].
  destruct (lastIndexOfChar c s) as [j|]; [discriminate|].
  destruct (d =? c)%char; [discriminate|]. intros _. now apply IH.
Qed.

Lemma lastIndexOfChar_split (c : ascii) (s : string) (j : nat) :
  lastIndexOfChar c s = Some j ->
  exists mid post,
    s = mid ++ String c post /\ has_char c post = false
    /\ take (S j) s = mid ++ String c "".
Proof.
  revert j. induction s as [|d s IH]; intros j; cbn [lastIndexOfChar]; [discriminate|].
  destruct (lastIndexOfChar c s) as [k|] eqn:Hlast.
  - intros Hj. inversion Hj; subst j.
    destruct (IH k eq_refl) as (mid & post & Hs & Hno & Htake).
    exists (String d mid), post. cbn [append]. rewrite <- Hs.
    split; [reflexivity|]. split; [exact Hno|].
    change (take (S (S k)) (String d s)) with (String d (take (S k) s)).
    now rewrite Htake.
  - destruct (Ascii.eqb_spec d c) as [-> | _]; [|discriminate].
    intros Hj. inversion Hj; subst j.
    exists "", s. split; [reflexivity|].
    split; [now apply lastIndexOfChar_none | reflexivity].
Qed.

(** X26. The part of a reply that is handed to [JSON.parse] is the span
    from the first opening brace to the last closing brace: the text before
    it holds no opening brace and the text after it no closing brace. There
    is no such part only when the reply has no opening brace, or no closing
    brace after the first opening one. *)
Theorem matchBraces_span (content : string) :
  match matchBraces content with
  | Some text =>
      exists pre middle post,
        content = pre ++ "{" ++ middle ++ "}" ++ post
        /\ text = "{" ++ middle ++ "}"
        /\ has_char "{" pre = false /\ has_char "}" post = false
  | None =>
      has_char "{" content = false
      \/ exists pre rest,
           content = pre ++ "{" ++ rest
           /\ has_char "{" pre = false /\ has_char "}" rest = false
  end.
Proof.
  unfold matchBraces.
  destruct (indexOf "{" content) as [i|] eqn:Hfirst.
  - destruct (indexOf_brace_split _ _ Hfirst) as (pre & rest & Hcontent & Hpre & Hdrop).
    rewrite Hdrop. cbn [drop].
    destruct (lastIndexOfChar "}" rest) as [j|] eqn:Hlast.
    + destruct (lastIndexOfChar_split _ _ _ Hlast) as (mid & post & Hrest & Hpost & Htake).
      exists pre, mid, post. replace (j + 2) with (S (S j)) by lia.
      change (take (S (S j)) (String "{" rest)) with (String "{" (take (S j) rest)).
      rewrite Htake. cbn [append]. rewrite Hcontent, Hrest.
      split; [reflexivity|]. auto.
    + right. exists pre, rest. cbn [append].
      split; [exact Hcontent|]. split; [exact Hpre|].
      now apply lastIndexOfChar_none.
  - left. now apply indexOf_brace_none.
Qed.

End Spans.

Section ParsedReplies.
Import Store AgentOrchestrator Shape.
Context {E : Env}.

(** X27. What [parseLLMResponse] reads from a reply whose brace span is
    JSON. Fields that are missing or falsy are replaced: the message by the
    whole reply, the action by the null action, the audio description by
    one generated from the message. For a message that is a string or is
    missing, the response is exactly these three. *)
Theorem parseLLMResponse_reads_json (content text : string) (parsed : JVal) :
  matchBraces content = Some text ->
  JSON_parse text = Ok parsed ->
  is_nullish parsed = false ->
  (forall m, jor (jget parsed "message") (JStr content) = JStr m ->
     parseLLMResponse content
     = Ok (respond (JStr m)
             (if truthy (jget parsed "audio_description")
              then jget parsed "audio_description"
              else JStr (spoken m))
             (jor (jget parsed "action") null_action)))
  /\ (truthy (jget parsed "message") = false ->
      exists m, jor (jget parsed "message") (JStr content) = JStr m)
  /\ (forall s, jget parsed "message" = JStr s ->
      exists m, jor (jget parsed "message") (JStr content) = JStr m).
Proof.
  intros Hspan Hjson Hvalue. split; [|split].
  - intros m Hm. unfold parseLLMResponse, parse_body.
    rewrite Hspan, Hjson. cbn [exc_bind]. rewrite Hvalue, Hm.
    destruct (truthy (jget parsed "audio_description")); [reflexivity|].
    now rewrite generateAudioDescription_text.
  - intros Hmessage. unfold jor. rewrite Hmessage. eauto.
  - intros s Hs. unfold jor. rewrite Hs. destruct (truthy (JStr s)); eauto.
Qed.

End ParsedReplies.

Section ParsedRepliesRuns.
Import Store AgentOrchestrator Shape SampleEnv Turns.

Lemma parseLLMResponse_reads_json_witness :
  exists text,
    matchBraces ("Claro: " ++ json_text greeting ++ " Saludos.") = Some text
    /\ @JSON_parse (speaking greeting) text = Ok greeting
    /\ @parseLLMResponse (speaking greeting)
         ("Claro: " ++ json_text greeting ++ " Saludos.")
       = Ok (respond (JStr "Hola, soy SAM.") (JStr "Hola, soy SAM.") null_action).
Proof.
  exists (json_text greeting).
  assert (Hspan : matchBraces ("Claro: " ++ json_text greeting ++ " Saludos.")
                  = Some (json_text greeting)) by (vm_compute; reflexivity).
  assert (Hjson : @JSON_parse (speaking greeting) (json_text greeting) = Ok greeting)
    by (vm_compute; reflexivity).
  split; [exact Hspan|]. split; [exact Hjson|].
  exact (proj1 (@parseLLMResponse_reads_json (speaking greeting) _ _ _ Hspan Hjson eq_refl)
           "Hola, soy SAM." eq_refl).
Defined.

End ParsedRepliesRuns.

Section ActionRuns.
Import Store Config LLM ToolRegistry PromptBuilder AgentOrchestrator SampleEnv Turns.

Lemma tool_results_action_witness :
  exists r w',
    @generateResponseFromToolResults (env [] [reply narration]) default_shop []
      [{| tool := "add_to_cart"; result := succeeded (JObj [("message", JStr "Listo")]) |};
       {| tool := "get_order"; result := failure "Order not found" |}]
      one_table = (Ok r, w')
    /\ action r = mk_action (JStr "add_to_cart") (JObj [("message", JStr "Listo")])
    /\ message r = JStr narration.
Proof.
  assert (Hrun : exists r w',
            @generateResponseFromToolResults (env [] [reply narration]) default_shop []
              [{| tool := "add_to_cart";
                  result := succeeded (JObj [("message", JStr "Listo")]) |};
               {| tool := "get_order"; result := failure "Order not found" |}]
              one_table = (Ok r, w')
            /\ message r = JStr narration).
  { vm_compute. eauto. }
  destruct Hrun as (r & w' & Hrun & Hmessage).
  exists r, w'. split; [exact Hrun|]. split; [|exact Hmessage].
  destruct (@tool_results_action (env [] [reply narration]) default_shop [] _
              one_table r w' Hrun)
    as (followUp & parsed & _ & _ & _ & Hlast & _).
  assert (Hfailed : Forall (fun x => success (result x) = false)
                      [{| tool := "get_order"; result := failure "Order not found" |}]).
  { repeat constructor. }
  exact (proj1 (Hlast []
                  {| tool := "add_to_cart";
                     result := succeeded (JObj [("message", JStr "Listo")]) |}
                  _ eq_refl eq_refl Hfailed)).
Defined.

Lemma executeActionFromResponse_total_witness :
  let parsed := respond (JStr "Abro la puerta.") (JStr "Abro la puerta.")
                  (mk_action (JStr "open_door") (JObj [])) in
  is_nullish (action parsed) = false
  /\ @executeActionFromResponse plain prompts parsed turn default_shop
       {| lastSearchResults := JUndefined |} asking one_table
     = (Ok parsed, one_table).
Proof.
  intros parsed. split; [reflexivity|].
  apply (proj1 (proj2 (@executeActionFromResponse_total plain prompts parsed turn
                         default_shop {| lastSearchResults := JUndefined |} asking
                         one_table eq_refl)));
    reflexivity.
Defined.

End ActionRuns.

Section StoredTurns.
Import Store LLM AgentOrchestrator SampleEnv Turns.

(** A greeting on a healthy database: the turn stores the user's text and
    the answer. *)
Example greeting_is_stored :
  let run := @processMessage (speaking greeting) prompts turn "Hola" one_table in
  (exists r, fst run = Ok r /\ message r = JStr "Hola, soy SAM.")
  /\ map (fun m => (m_role m, m_content m)) (conversations (snd run))
     = [(role_user, JStr "Hola"); (role_assistant, JStr "Hola, soy SAM.")].
Proof. vm_compute. split; [eexists; split; reflexivity | reflexivity]. Qed.

(** The same greeting when the database rejects the answer: the turn
    returns the response all the same, and only the user's text is stored. *)
Example lost_answer_is_swallowed :
  let run := @processMessage (losing_answers (speaking greeting)) prompts turn "Hola"
               one_table in
  (exists r, fst run = Ok r /\ message r = JStr "Hola, soy SAM.")
  /\ map (fun m => (m_role m, m_content m)) (conversations (snd run))
     = [(role_user, JStr "Hola")].
Proof. vm_compute. split; [eexists; split; reflexivity | reflexivity]. Qed.

End StoredTurns.

(* ================================================================== *)
(** * Facts: the separation of tenants                                 *)
(* ================================================================== *)

Section OrderIsolation.
Import Store Config ToolRegistry Frames Isolation.
Context {E : Env}.

Lemma keeps_through {A B C : Type} (f : World -> B) (g : B -> C) (m : M A) :
  keeps f m -> keeps (fun w => g (f w)) m.
Proof. intros Hm w. now rewrite (Hm w). Qed.

Lemma orders_fetch (url : string) (options : ExternalApiService.Options) :
  keeps orders (ExternalApiService.fetch url options).
Proof. intros w. reflexivity. Qed.

Lemma orders_fetchProducts (tenant apiUrl : string) (key : option string)
  (params : option ExternalApiService.Params) :
  keeps orders (ExternalApiService.fetchProducts tenant apiUrl key params).
Proof.
  unfold ExternalApiService.fetchProducts.
  apply keeps_bind; [apply keeps_lift|]. intros url.
  apply keeps_bind; [apply orders_fetch|]. intros response.
  repeat keeps_step.
Qed.

Lemma orders_executeCustomTool (customTool : CustomTool) (args : JVal)
  (context : ToolContext) :
  keeps orders (executeCustomTool customTool args context).
Proof.
  unfold executeCustomTool. destruct (negb _); [apply keeps_ret|].
  apply keeps_catch; [|intros e; apply keeps_ret].
  apply keeps_bind; [apply keeps_lift|]. intros [url options].
  apply keeps_bind; [apply orders_fetch|]. intros response. apply keeps_ret.
Qed.

Lemma orders_searchProduct (args : JVal) (context : ToolContext) :
  keeps orders (searchProduct args context).
Proof.
  unfold searchProduct, mongo_search.
  apply keeps_bind; [apply keeps_lift|]. intros args'.
  apply keeps_bind; [apply keeps_lift|]. intros searchQuery.
  destruct (negb _); [apply keeps_ret|].
  apply keeps_catch; [|intros e; apply keeps_ret].
  destruct (Config.searchProduct _) as [[en [[]|]]|];
    repeat first [apply orders_fetchProducts | keeps_step].
Qed.

Lemma orders_getOrder (args : JVal) (context : ToolContext) :
  keeps orders (getOrder args context).
Proof.
  unfold getOrder, lookup_order.
  apply keeps_bind; [apply keeps_lift|]. intros args'.
  apply keeps_catch; [|intros e; apply keeps_ret].
  apply keeps_bind; [repeat keeps_step|]. intros [early|[order|]]; apply keeps_ret.
Qed.

Lemma orders_showProduct (args : JVal) (context : ToolContext) :
  keeps orders (showProduct args context).
Proof. unfold showProduct. repeat keeps_step. Qed.

Lemma orders_ragQuery (args : JVal) (context : ToolContext) :
  keeps orders (ragQuery args context).
Proof. unfold ragQuery. repeat keeps_step. Qed.

Lemma foreign_create (context : ToolContext) (orderNo : string) (w : World) :
  foreign_orders (c_tenantId context)
    (snd (OrdersRepo.create (empty_cart context orderNo) w))
  = foreign_orders (c_tenantId context) w.
Proof.
  unfold foreign_orders. cbn [OrdersRepo.create snd orders tick with_orders].
  rewrite filter_app. cbn [filter o_domain empty_cart OrdersRepo.n_domain].
  rewrite String.eqb_refl. cbn [negb]. apply app_nil_r.
Qed.

Lemma foreign_updateProducts (tenant orderNo : string) (ps : list OrderProduct)
  (w : World) :
  foreign_orders tenant (snd (OrdersRepo.updateProducts tenant orderNo ps w))
  = foreign_orders tenant w.
Proof.
  unfold foreign_orders, OrdersRepo.updateProducts.
  destruct (findOneAndUpdate_spec
              (fun o => (o_domain o =? tenant) && (orderNumber o =? orderNo))
              (OrdersRepo.set_products ps (OrdersRepo.total_of ps) (clock w)) (orders w))
    as [[Hrun _] | (pre & o & post & Hsplit & _ & Ho & Hrun)]; rewrite Hrun.
  - reflexivity.
  - cbn [snd orders tick with_orders]. rewrite Hsplit, !filter_app.
    cbn [filter o_domain OrdersRepo.set_products].
    apply andb_prop in Ho. destruct Ho as [Hdom _]. now rewrite Hdom.
Qed.

Lemma foreign_addToCart (args : JVal) (context : ToolContext) :
  keeps (foreign_orders (c_tenantId context)) (addToCart args context).
Proof.
  unfold addToCart, active_or_new_cart.
  apply keeps_bind; [apply keeps_lift|]. intros args'.
  destruct (negb _); [apply keeps_ret|].
  apply keeps_catch; [|intros e; apply keeps_ret].
  apply keeps_bind; [apply keeps_gets|]. intros [product|]; [|apply keeps_ret].
  apply keeps_bind.
  { apply keeps_bind; [apply keeps_gets|]. intros [cart|]; [apply keeps_ret|].
    apply keeps_bind; [apply keeps_update; reflexivity|]. intros orderNo.
    apply keeps_update. intros w. apply foreign_create. }
  intros cart. apply keeps_bind.
  { apply keeps_update. intros w. apply foreign_updateProducts. }
  intros [updated|]; apply keeps_ret.
Qed.

(** X28. A tool call never changes the orders of another tenant: after
    [executeTool], whatever the tool and its arguments, the orders that do
    not belong to the tenant of the context are exactly as before; and only
    the core tool [add_to_cart] writes orders at all. *)
Theorem executeTool_own_tenant (toolName : string) (args : JVal) (context : ToolContext)
  (w : World) :
  foreign_orders (c_tenantId context) (snd (executeTool toolName args context w))
  = foreign_orders (c_tenantId context) w
  /\ (toolName <> "add_to_cart" \/ findCustomTool toolName (agentConfig context) <> None ->
      orders (snd (executeTool toolName args context w)) = orders w).
Proof.
  split.
  - revert w. change (keeps (foreign_orders (c_tenantId context))
                        (executeTool toolName args context)).
    unfold executeTool.
    destruct (findCustomTool _ _);
      [apply (keeps_through orders), orders_executeCustomTool|].
    unfold core_executor.
    repeat match goal with
           | |- context [if ?b then _ else _] => destruct b
           end;
      try apply keeps_ret;
      (apply keeps_catch; [|intros e; apply keeps_ret]);
      first [ apply foreign_addToCart
            | apply (keeps_through orders);
              auto using orders_searchProduct, orders_getOrder, orders_showProduct,
                         orders_ragQuery ].
  - intros Hother. revert w.
    change (keeps orders (executeTool toolName args context)).
    unfold executeTool.
    destruct (findCustomTool _ _) as [customTool|]; [apply orders_executeCustomTool|].
    destruct Hother as [Hname | Hcustom]; [|now elim Hcustom].
    unfold core_executor.
    repeat match goal with
           | |- context [if ?a =? ?b then _ else _] =>
               destruct (String.eqb_spec a b) as [Heq | _]
           end;
      try apply keeps_ret; try contradiction;
      (apply keeps_catch; [|intros e; apply keeps_ret]);
      auto using orders_searchProduct, orders_getOrder, orders_showProduct,
                 orders_ragQuery.
Qed.

End OrderIsolation.

Section Requests.
Import Store Outcome Isolation.
Context (P : LLMRequest -> Prop).

Lemma requests_quiet {A : Type} (m : M A) : quiet m -> requests_with P m.
Proof. intros Hm w. exists []. rewrite (Hm w), app_nil_r. auto. Qed.

Lemma requests_bind {A B : Type} (m : M A) (k : A -> M B) :
  requests_with P m -> (forall x, requests_with P (k x)) -> requests_with P (bind m k).
Proof.
  intros Hm Hk w. unfold bind. destruct (Hm w) as (first & Hlog & Hfirst).
  destruct (m w) as [[x|e] w1]; simpl in *.
  - destruct (Hk x w1) as (second & Hlog2 & Hsecond).
    exists (first ++ second)%list. rewrite Hlog2, Hlog, app_assoc.
    split; [reflexivity | now apply Forall_app].
  - exists first. auto.
Qed.

Lemma requests_catch {A : Type} (m : M A) (handler : string -> M A) :
  requests_with P m -> (forall e, requests_with P (handler e)) ->
  requests_with P (catch m handler).
Proof.
  intros Hm Hh w. unfold catch. destruct (Hm w) as (first & Hlog & Hfirst).
  destruct (m w) as [[x|e] w1]; simpl in *.
  - exists first. auto.
  - destruct (Hh e w1) as (second & Hlog2 & Hsecond).
    exists (first ++ second)%list. rewrite Hlog2, Hlog, app_assoc.
    split; [reflexivity | now apply Forall_app].
Qed.

End Requests.

Ltac requests_step :=
  match goal with
  | |- Isolation.requests_with _ (Store.ret _) => apply requests_quiet, quiet_ret
  | |- Isolation.requests_with _ (Store.throw _) => apply requests_quiet, quiet_throw
  | |- Isolation.requests_with _ (Store.lift _) => apply requests_quiet, quiet_lift
  | |- Isolation.requests_with _ (Store.gets _) => apply requests_quiet, quiet_gets
  | |- Isolation.requests_with _ (Store.bind _ _) => apply requests_bind; [|intros ?]
  | |- Isolation.requests_with _ (Store.catch _ _) => apply requests_catch; [|intros ?]
  | |- Isolation.requests_with _ (match ?x with _ => _ end) => destruct x
  end.

Section TenantRequests.
Import Store Config LLM ToolRegistry PromptBuilder AgentOrchestrator Outcome Isolation.
Context {E : Env} {P : Prompts}.

Lemma requests_generate (config : LLMConfig) (messages : list LLMMessage)
  (tools : option (list ToolDefinition)) :
  requests_with (fun q => q_config q = config) (generate config messages tools).
Proof.
  intros w. eexists [_]. unfold generate. simpl.
  split; [reflexivity|]. now repeat constructor.
Qed.

Lemma requests_executeActionFromResponse (parsedResponse : AgentResponse)
  (context : OrchestratorContext) (agentConfig : AgentConfig)
  (extractedContext : ExtractedContext) (userMessage : string) :
  requests_with (fun q => q_config q = llm agentConfig)
    (executeActionFromResponse parsedResponse context agentConfig extractedContext
       userMessage).
Proof.
  unfold executeActionFromResponse, success_response, generateResponseFromCustomTool,
    caught_response.
  repeat first [ apply requests_quiet, quiet_dispatch_action
               | apply requests_generate
               | requests_step ].
Qed.

Lemma requests_answer (context : OrchestratorContext) (agentConfig : AgentConfig)
  (messages : list LLMMessage) (extractedContext : ExtractedContext)
  (userMessage : string) (llmResponse : LLMResponse) :
  requests_with (fun q => q_config q = llm agentConfig)
    (answer context agentConfig messages extractedContext userMessage llmResponse).
Proof.
  unfold answer, generateResponseFromToolResults.
  repeat first [ apply requests_quiet, quiet_run_tool_calls
               | apply requests_generate
               | apply requests_executeActionFromResponse
               | requests_step ].
Qed.

(** X29. Every provider call of a turn is made with the model
    configuration of an agent of the context's tenant: the one stored for
    the tenant and the agent of the context, the agent [default] when the
    context names none. No turn uses the configuration of another tenant. *)
Theorem processMessage_uses_own_config (context : OrchestratorContext)
  (userMessage : string) (w : World) :
  exists requests,
    llm_log (snd (processMessage context userMessage w)) = (llm_log w ++ requests)%list
    /\ Forall (configured_for (tenantId context)
                 match agentId context with
                 | Some a => if a =? "" then "default" else a
                 | None => "default"
                 end w) requests.
Proof.
  unfold processMessage.
  change (bind (gets clock) ?k w) with (k (clock w) w). cbv beta.
  match goal with
  | |- context [bind (gets ?f) ?k w] => change (bind (gets f) k w) with (k (f w) w)
  end.
  cbv beta.
  destruct (getByTenant _ _ w) as [agentConfig|] eqn:Hfound.
  - match goal with
    | |- context [snd (?m w)] =>
        assert (Hm : requests_with (fun q => q_config q = llm agentConfig) m)
    end.
    { apply requests_bind; [apply requests_quiet, quiet_gets|]. intros lastMessages.
      apply requests_bind; [apply requests_quiet, quiet_lift|]. intros extractedContext.
      apply requests_bind; [apply requests_quiet, quiet_lift|]. intros messages.
      apply requests_bind; [apply requests_generate|]. intros llmResponse.
      destruct (token_counts _ _) as [[actualInputTokens outputTokens] totalTokens].
      apply requests_bind; [apply requests_answer|]. intros [finalResponse used].
      apply requests_bind; [apply requests_quiet, quiet_gets|]. intros now.
      apply requests_bind; [apply requests_quiet, quiet_saveConversation|]. intros _.
      apply requests_quiet, quiet_ret. }
    destruct (Hm w) as (requests & Hlog & Hall). exists requests.
    split; [exact Hlog|].
    unfold getByTenant, Cursor.findOne in Hfound. apply find_some in Hfound.
    destruct Hfound as [Hin Hmatch]. apply andb_prop in Hmatch.
    destruct Hmatch as [Ht Ha]. apply String.eqb_eq in Ht, Ha.
    eapply Forall_impl; [|exact Hall]. intros q Hq.
    exists agentConfig. auto.
  - exists []. unfold throw. simpl. rewrite app_nil_r. auto.
Qed.

End TenantRequests.

(* ================================================================== *)
(** * Facts: the context taken from the history                        *)
(* ================================================================== *)

Section ExtractedContexts.
Import Store PromptBuilder Isolation.

Lemma extract_step_forgets (msg : ConversationMessage) (last : JVal) :
  remembers_search msg = false -> extract_step msg last = Ok last.
Proof.
  unfold remembers_search, extract_step. destruct (m_action msg) as [a|]; [|reflexivity].
  now intros ->.
Qed.

Lemma extract_step_remembers (msg : ConversationMessage) (a : StoredAction)
  (last v : JVal) :
  m_action msg = Some a -> remembers_search msg = true ->
  extract_step msg last = Ok v -> v = jget (sa_payload a) "products".
Proof.
  unfold remembers_search, extract_step. intros -> ->.
  destruct (iterate _) as [items|e]; simpl; [|discriminate].
  destruct (existsb is_nullish items); [discriminate|]. intros Hv. now inversion Hv.
Qed.

Lemma extract_loop_forgets (msgs : list ConversationMessage) (last : JVal) :
  Forall (fun m => remembers_search m = false) msgs -> extract_loop msgs last = Ok last.
Proof.
  intros Hmsgs. induction Hmsgs as [|msg rest Hmsg Hrest IH]; simpl; [reflexivity|].
  now rewrite (extract_step_forgets _ _ Hmsg).
Qed.

Lemma extract_loop_app (pre rest : list ConversationMessage) (last : JVal) :
  extract_loop (pre ++ rest) last = exc_bind (extract_loop pre last) (extract_loop rest).
Proof.
  revert last. induction pre as [|msg pre IH]; intros last; simpl; [reflexivity|].
  destruct (extract_step msg last) as [v|e]; simpl; [apply IH | reflexivity].
Qed.

Lemma extractContext_last (msgs : list ConversationMessage) (context : ExtractedContext) :
  extractContext msgs = Ok context ->
  extract_loop msgs JUndefined = Ok (lastSearchResults context).
Proof.
  unfold extractContext. destruct (extract_loop msgs JUndefined) as [last|e]; simpl;
    [|discriminate].
  destruct last; try (intros H; inversion H; reflexivity).
  destruct (truthy (JStr s)); [discriminate|]. intros H. now inversion H.
Qed.

(** X30. The search results that [extractContext] remembers are the
    products of the most recent message of the history whose action is a
    [search_product] with truthy products; they are undefined when the
    history has no such message. *)
Theorem extractContext_remembers_last_search (msgs : list ConversationMessage)
  (context : ExtractedContext) :
  extractContext msgs = Ok context ->
  (Forall (fun m => remembers_search m = false) msgs ->
   lastSearchResults context = JUndefined)
  /\ (forall pre msg post a,
        msgs = (pre ++ msg :: post)%list ->
        m_action msg = Some a -> remembers_search msg = true ->
        Forall (fun m => remembers_search m = false) post ->
        lastSearchResults context = jget (sa_payload a) "products").
Proof.
  intros Hcontext. apply extractContext_last in Hcontext. split.
  - intros Hnone. rewrite (extract_loop_forgets _ _ Hnone) in Hcontext.
    now inversion Hcontext.
  - intros pre msg post a -> Haction Hsearch Hpost.
    rewrite extract_loop_app in Hcontext.
    destruct (extract_loop pre JUndefined) as [before|e]; simpl in Hcontext;
      [|discriminate].
    destruct (extract_step msg before) as [v|e] eqn:Hstep; simpl in Hcontext;
      [|discriminate].
    rewrite (extract_loop_forgets _ _ Hpost) in Hcontext. inversion Hcontext; subst.
    exact (extract_step_remembers _ _ _ _ Haction Hsearch Hstep).
Qed.

End ExtractedContexts.

Section ExtractedContextRuns.
Import Store LLM PromptBuilder Isolation.

Lemma extractContext_remembers_last_search_witness :
  let found := {| m_tenantId := "shop.example"; m_userId := "ana@example.com";
                  m_conversationId := "conv-1"; m_role := role_assistant;
                  m_content := JStr "Encontré 1 producto";
                  m_action :=
                    Some {| sa_type := JStr "search_product";
                            sa_payload :=
                              JObj [("products",
                                     JArr [JObj [("slug", JStr "mesa-roble")]])] |};
                  m_toolsUsed := None; m_createdAt := 1 |} in
  extractContext [found]
  = Ok {| lastSearchResults := JArr [JObj [("slug", JStr "mesa-roble")]] |}
  /\ lastSearchResults {| lastSearchResults := JArr [JObj [("slug", JStr "mesa-roble")]] |}
     = JArr [JObj [("slug", JStr "mesa-roble")]].
Proof.
  intros found.
  assert (Hrun : extractContext [found]
                 = Ok {| lastSearchResults := JArr [JObj [("slug", JStr "mesa-roble")]] |})
    by reflexivity.
  split; [exact Hrun|].
  exact (proj2 (extractContext_remembers_last_search [found] _ Hrun)
           [] found [] _ eq_refl eq_refl eq_refl (Forall_nil _)).
Defined.

End ExtractedContextRuns.
